(** * data_service_py: the relation batch engine of [server.py]

    A shallow embedding of the attachment bookkeeping of [server.py]
    ([CreateFeatureMultipart.post], [EditFeatureMultipart.put],
    [Relations.post], [Relations.attachments_diff],
    [Relations.cleanup_attachments]) together with the properties of the
    specification that concern it.

    Python values are modelled by [value], dictionaries by insertion-ordered
    association lists, and the handlers by functions in a state-and-error
    monad over a [world] holding the Record Store state, the attachment files
    on disk and the log of calls made to both stores. *)

From Stdlib Require Import String Ascii List ZArith Bool Lia.
From Stdlib Require Import DecimalString Sorted Permutation.
Import ListNotations.
Open Scope string_scope.
Open Scope Z_scope.

(** ** Python strings *)

Module PyStr.

(** [c in chars], for the character-set argument of [str.lstrip]. *)
Fixpoint mem_char (c : ascii) (chars : string) : bool :=
  match chars with
  | EmptyString => false
  | String d r => if Ascii.eqb c d then true else mem_char c r
  end.

(** [s.lstrip(chars)]: drops leading characters as long as they belong to
    the SET of characters [chars]. *)
Fixpoint lstrip (chars s : string) : string :=
  match s with
  | EmptyString => EmptyString
  | String c r => if mem_char c chars then lstrip chars r else s
  end.

(** [s.startswith(p)]. *)
Definition startswith (p s : string) : bool := String.prefix p s.

(** [s[n:]]. *)
Fixpoint drop (n : nat) (s : string) : string :=
  match n, s with
  | O, _ => s
  | S _, EmptyString => EmptyString
  | S m, String _ r => drop m r
  end.

(** [s.split("__")]: [cur] is the piece under construction; the separator
    is searched from left to right and occurrences do not overlap. *)
Fixpoint split_dunder_aux (s cur : string) : list string :=
  match s with
  | EmptyString => [cur]
  | String c r =>
      match r with
      | String d r' =>
          if (Ascii.eqb c "_" && Ascii.eqb d "_")%bool
          then cur :: split_dunder_aux r' EmptyString
          else split_dunder_aux r (cur ++ String c EmptyString)
      | EmptyString => [cur ++ String c EmptyString]
      end
  end.

Definition split_dunder (s : string) : list string :=
  split_dunder_aux s EmptyString.

(** Truthiness of a string. *)
Definition nonempty (s : string) : bool :=
  match s with EmptyString => false | _ => true end.

End PyStr.

(** ** Python values

    The scalar JSON values a record property can hold (floating point numbers
    are left out), and flat string-valued objects, the shape of the Record
    Store's [error_details]. *)

Inductive value : Type :=
| VNone
| VBool (b : bool)
| VInt (z : Z)
| VStr (s : string)
| VDict (d : list (string * string)).

Definition pair_eqb (a b : string * string) : bool :=
  (String.eqb (fst a) (fst b) && String.eqb (snd a) (snd b))%bool.

Definition items_incl (a b : list (string * string)) : bool :=
  forallb (fun kv => existsb (pair_eqb kv) b) a.

(** Python's [a == b]. A [bool] is an [int] ([True == 1]); two dictionaries
    are equal when they hold the same items, in any order. *)
Definition py_eq (a b : value) : bool :=
  match a, b with
  | VNone, VNone => true
  | VBool x, VBool y => Bool.eqb x y
  | VInt x, VInt y => Z.eqb x y
  | VBool x, VInt y => Z.eqb (if x then 1 else 0) y
  | VInt x, VBool y => Z.eqb x (if y then 1 else 0)
  | VStr x, VStr y => String.eqb x y
  | VDict x, VDict y => (items_incl x y && items_incl y x)%bool
  | _, _ => false
  end.

(** Python's truth value of [v]. *)
Definition truthy (v : value) : bool :=
  match v with
  | VNone => false
  | VBool b => b
  | VInt z => negb (Z.eqb z 0)
  | VStr s => PyStr.nonempty s
  | VDict d => match d with [] => false | _ => true end
  end.

(** [str(v).startswith("attachment://")]. [str] of [None], of a [bool], of an
    [int] and of a [dict] begins with [N], [T] or [F], a digit or [-], and
    [{]: only a string can pass the test. *)
Definition is_attachment (v : value) : bool :=
  match v with
  | VStr s => PyStr.startswith "attachment://" s
  | _ => false
  end.

(** ** Python dictionaries: insertion-ordered association lists *)

Section Dict.
Context {A : Type}.

Definition dict := list (string * A).

(** [d.get(k)] *)
Fixpoint dict_get (k : string) (d : dict) : option A :=
  match d with
  | [] => None
  | (k', v) :: r => if String.eqb k k' then Some v else dict_get k r
  end.

(** [d[k] = v]: an existing key keeps its position, a new key goes last. *)
Fixpoint dict_set (k : string) (v : A) (d : dict) : dict :=
  match d with
  | [] => [(k, v)]
  | (k', v') :: r =>
      if String.eqb k k' then (k, v) :: r else (k', v') :: dict_set k v r
  end.

(** [list(d.keys())] and [d.values()] *)
Definition dict_keys (d : dict) : list string := map fst d.
Definition dict_values (d : dict) : list A := map snd d.

End Dict.
Arguments dict A : clear implicits.

(** Lists of field names used as dictionaries keyed by the name (the
    [internal_fields] dictionaries, whose values are determined by the key). *)
Definition name_mem (k : string) (l : list string) : bool :=
  existsb (String.eqb k) l.

Definition name_add (k : string) (l : list string) : list string :=
  if name_mem k l then l else l ++ [k].

(** ** Features and Record Store results *)

(** A GeoJSON feature as the handlers use it: its id and its properties.
    The feature of a request is taken to hold a [properties] object: one
    that holds none is outside the model (the multipart handlers raise
    [KeyError] or [TypeError] where they first index
    [feature["properties"]]). *)
Record feature : Type := mkFeature {
  f_id : value;
  f_props : dict value
}.

(** The dictionary a Record Store call returns; a key that is absent is
    [None]. *)
Record result : Type := mkResult {
  r_error : option value;
  r_error_code : option Z;
  r_error_details : option value;
  r_feature : option feature
}.

Definition res_feature (f : feature) : result := mkResult None None None (Some f).
Definition res_error (msg : string) : result :=
  mkResult (Some (VStr msg)) None None None.
Definition res_empty : result := mkResult None None None None.

(** ** The world of one request *)

(** The calls made to the two stores. *)
Inductive event : Type :=
| EvSave (key : string) (slug : option string)
| EvRemove (slug : string)
| EvShow (table : string) (id : value)
| EvCreate (table : string) (f : feature) (internal : list string)
| EvUpdate (table : string) (id : value) (f : feature) (internal : list string)
| EvDestroy (table : string) (id : value).

(** Calls to the Record Store, as opposed to the Attachment Store. *)
Definition is_store_call (e : event) : bool :=
  match e with
  | EvSave _ _ | EvRemove _ => false
  | _ => true
  end.

(** Unhandled Python exceptions. *)
Inductive exn : Type :=
| KeyError | IndexError | TypeError | ValueError | AttributeError.

(** How a piece of handler code ends: normally, by [api.abort(code, msg)],
    or by an exception nothing catches. *)
Inductive outcome (A : Type) : Type :=
| Ok (a : A)
| Abort (code : Z) (msg : value)
| Raise (e : exn).
Arguments Ok {A} a.
Arguments Abort {A} code msg.
Arguments Raise {A} e.

Section World.
(** The state of the Record Store. *)
Context {S : Type}.

Record world : Type := mkWorld {
  w_store : S;
  w_disk : list string;   (* slugs of the attachment files on disk *)
  w_log : list event
}.

Definition M (A : Type) : Type := world -> outcome A * world.

Definition ret {A} (a : A) : M A := fun w => (Ok a, w).

Definition bind {A B} (m : M A) (k : A -> M B) : M B :=
  fun w =>
    match m w with
    | (Ok a, w') => k a w'
    | (Abort c msg, w') => (Abort c msg, w')
    | (Raise e, w') => (Raise e, w')
    end.

Definition abort {A} (code : Z) (msg : value) : M A :=
  fun w => (Abort code msg, w).

Definition raise {A} (e : exn) : M A := fun w => (Raise e, w).

(** Lifts a pure computation that may raise. *)
Definition lift {A} (o : outcome A) : M A := fun w => (o, w).

End World.
Arguments world S : clear implicits.
Arguments M S A : clear implicits.

Declare Scope py_scope.
Delimit Scope py_scope with py.
Notation "x <- m ;; k" := (bind m (fun x => k))
  (at level 61, m at next level, right associativity) : py_scope.
Notation "' p <- m ;; k" := (bind m (fun p => k))
  (at level 61, p pattern, m at next level, right associativity) : py_scope.
Notation "m ;;; k" := (bind m (fun _ => k))
  (at level 61, right associativity) : py_scope.
Open Scope py_scope.

(** ** The Attachment Store *)

(** Modelled from the spec: the Attachment Store ([attachments_service.py]
    is not among the sources), whose interface is
    [validate(table, file) -> bool], [save(table, file) -> slug | absent],
    [remove(table, slug) -> ok]. An uploaded file carries the store's verdict
    on it and the slug its content is stored under ([None] when it cannot be
    saved). All calls of one request name the same dataset, which is left
    implicit. *)
Record filedata : Type := mkFile {
  fd_valid : bool;
  fd_slug : option string
}.

Definition disk_has (slug : string) (disk : list string) : bool :=
  existsb (String.eqb slug) disk.

Definition disk_add (slug : string) (disk : list string) : list string :=
  if disk_has slug disk then disk else slug :: disk.

Definition disk_remove (slug : string) (disk : list string) : list string :=
  filter (fun s => negb (String.eqb slug s)) disk.

Section AttachmentStore.
Context {S : Type}.

(** Modelled from the spec: [validate_attachment(dataset, filedata)], the
    store's acceptance rules. *)
Definition validate_attachment (f : filedata) : bool := fd_valid f.

(** Modelled from the spec: [save_attachment(dataset, filedata)] persists
    the file under its slug and answers the slug, or answers nothing. *)
Definition save_attachment (key : string) (f : filedata)
  : M S (option string) :=
  fun w =>
    (Ok (fd_slug f),
     mkWorld (w_store w)
             (match fd_slug f with
              | Some slug => disk_add slug (w_disk w)
              | None => w_disk w
              end)
             (w_log w ++ [EvSave key (fd_slug f)])).

(** Modelled from the spec: [remove_attachment(dataset, slug)] deletes the
    slug's file; removing a slug that is not there is no error. *)
Definition remove_attachment (slug : string) : M S unit :=
  fun w =>
    (Ok tt,
     mkWorld (w_store w) (disk_remove slug (w_disk w))
             (w_log w ++ [EvRemove slug])).

End AttachmentStore.

(** ** The Record Store *)

(** The interface of [DataService] ([data_service.py] is not among the
    sources): every operation is a parameter. [rs_show] answers [None] when
    the Python value is falsy. *)
Record RecordStore (S : Type) : Type := mkRecordStore {
  rs_show : S -> string -> value -> option result * S;
  rs_create : S -> string -> feature -> list string -> result * S;
  rs_update : S -> string -> value -> feature -> list string -> result * S;
  rs_destroy : S -> string -> value -> result * S;
  rs_is_editable : S -> string -> Z -> bool
}.
Arguments rs_show {S}.
Arguments rs_create {S}.
Arguments rs_update {S}.
Arguments rs_destroy {S}.
Arguments rs_is_editable {S}.

(** ** Request data *)

(** One relation record of the payload: the child record's properties under
    the [<table>__] prefix, with [id], [__status__] and the foreign key. *)
Definition record := dict value.

(** The value of one table of the batch: [{"fk": ..., "records": [...]}].
    An absent key is [None]. *)
Record rel_data : Type := mkRelData {
  rd_fk : option string;
  rd_records : option (list record)
}.

Definition payload := dict rel_data.

(** One table of the response. *)
Record rel_out : Type := mkRelOut {
  ro_fk : option string;
  ro_records : list record
}.

(** [l[i]] for a Python integer [i]: negative indices count from the end;
    [None] is [IndexError]. *)
Definition py_index {A} (l : list A) (i : Z) : option nat :=
  let n := Z.of_nat (length l) in
  let j := if i <? 0 then i + n else i in
  if ((0 <=? j) && (j <? n))%bool then Some (Z.to_nat j) else None.

Fixpoint list_set {A} (n : nat) (x : A) (l : list A) : list A :=
  match l, n with
  | [], _ => []
  | _ :: r, O => x :: r
  | y :: r, S m => y :: list_set m x r
  end.

(** [value or {}] *)
Definition or_empty_dict (o : option value) : value :=
  match o with
  | Some v => if truthy v then v else VDict []
  | None => VDict []
  end.

(** [if slug:] on the answer of [save_attachment]. *)
Definition slug_truthy (o : option string) : option string :=
  match o with
  | Some s => if PyStr.nonempty s then Some s else None
  | None => None
  end.

(** [if upload_user_field_suffix:] *)
Definition suffix_truthy (o : option string) : option string := slug_truthy o.

(** ["error" in result] *)
Definition has_error (r : result) : bool :=
  match r_error r with Some _ => true | None => false end.

(** ** The handlers *)

Section Handlers.
Context {S : Type}.
(** [data_service_handler()] *)
Variable RS : RecordStore S.
(** [get_auth_user()] *)
Variable user : value.
(** [config.get("upload_user_field_suffix", None)] *)
Variable upload_user_field_suffix : option string.
(** Python's [int(s)] on a string; [None] is [ValueError]. *)
Variable py_int : string -> option Z.

(** *** Calls to the Record Store, logged *)

Definition show (table : string) (id : value) : M S (option result) :=
  fun w =>
    let (r, s) := rs_show RS (w_store w) table id in
    (Ok r, mkWorld s (w_disk w) (w_log w ++ [EvShow table id])).

Definition create (table : string) (f : feature) (internal : list string)
  : M S result :=
  fun w =>
    let (r, s) := rs_create RS (w_store w) table f internal in
    (Ok r, mkWorld s (w_disk w) (w_log w ++ [EvCreate table f internal])).

Definition update (table : string) (id : value) (f : feature)
    (internal : list string) : M S result :=
  fun w =>
    let (r, s) := rs_update RS (w_store w) table id f internal in
    (Ok r, mkWorld s (w_disk w) (w_log w ++ [EvUpdate table id f internal])).

Definition destroy (table : string) (id : value) : M S result :=
  fun w =>
    let (r, s) := rs_destroy RS (w_store w) table id in
    (Ok r, mkWorld s (w_disk w) (w_log w ++ [EvDestroy table id])).

Definition is_editable (table : string) (id : Z) : M S bool :=
  fun w => (Ok (rs_is_editable RS (w_store w) table id), w).

(** *** Validating and saving the uploaded files *)

(** [for key in request.files: if not validate_attachment(...): abort] *)
Fixpoint validate_attachments (files : dict filedata) : M S unit :=
  match files with
  | [] => ret tt
  | (key, fd) :: rest =>
      if validate_attachment fd then validate_attachments rest
      else abort 404 (VStr ("Attachment validation failed: " ++ key))
  end.

(** [for slug in saved_attachments.values(): remove_attachment(dataset, slug)] *)
Fixpoint remove_all (slugs : list string) : M S unit :=
  match slugs with
  | [] => ret tt
  | slug :: rest => remove_attachment slug ;;; remove_all rest
  end.

(** The "Save attachments" loop the three multipart handlers share. They
    differ in the statements that bind the saved slug into the request
    data, [bind_ref key slug], which may raise. *)
Fixpoint save_attachments {St : Type}
    (bind_ref : string -> string -> St -> outcome St)
    (files : dict filedata) (saved_attachments : dict string) (st : St)
  : M S (dict string * St) :=
  match files with
  | [] => ret (saved_attachments, st)
  | (key, fd) :: rest =>
      slug <- save_attachment key fd ;;
      match slug_truthy slug with
      | None =>
          remove_all (dict_values saved_attachments) ;;;
          abort 404 (VStr ("Failed to save attachment: " ++ key))
      | Some slug =>
          let saved_attachments := dict_set key slug saved_attachments in
          st <- lift (bind_ref key slug st) ;;
          save_attachments bind_ref rest saved_attachments st
      end
  end.

(** [payload[table]["records"][int(index)][k] = v] *)
Definition set_record_field (p : payload) (table index k : string)
    (v : value) : outcome payload :=
  match dict_get table p with
  | None => Raise KeyError
  | Some rd =>
      match rd_records rd with
      | None => Raise KeyError
      | Some recs =>
          match py_int index with
          | None => Raise ValueError
          | Some i =>
              match py_index recs i with
              | None => Raise IndexError
              | Some n =>
                  match nth_error recs n with
                  | None => Raise IndexError
                  | Some r =>
                      Ok (dict_set table
                            (mkRelData (rd_fk rd)
                               (Some (list_set n (dict_set k v r) recs)))
                            p)
                  end
              end
          end
      end
  end.

(** The binding statements of [Relations.post] (lines 704-712); the state
    is the payload and the list [internal_fields]. *)
Definition bind_relation_upload (key slug : string)
    (st : payload * list string) : outcome (payload * list string) :=
  let '(p, internal_fields) := st in
  let parts := PyStr.split_dunder (PyStr.lstrip "file:" key) in
  match nth_error parts 0 with
  | None => Raise IndexError
  | Some table =>
  match nth_error parts 1 with
  | None => Raise IndexError
  | Some field =>
  match nth_error parts 2 with
  | None => Raise IndexError
  | Some index =>
      match set_record_field p table index (table ++ "__" ++ field)
              (VStr ("attachment://" ++ slug)) with
      | Ok p =>
          match suffix_truthy upload_user_field_suffix with
          | Some sfx =>
              let upload_user_field := table ++ "__" ++ field ++ "__" ++ sfx in
              match set_record_field p table index upload_user_field user with
              | Ok p => Ok (p, (internal_fields ++ [upload_user_field])%list)
              | Abort c m => Abort c m
              | Raise e => Raise e
              end
          | None => Ok (p, internal_fields)
          end
      | Abort c m => Abort c m
      | Raise e => Raise e
      end
  end end end.

(** The binding statements of the two single-record handlers
    (lines 403-408, 477-482); the state is the feature and the dictionary
    [internal_fields]. *)
Definition bind_feature_upload (key slug : string)
    (st : feature * list string) : outcome (feature * list string) :=
  let '(feat, internal_fields) := st in
  let field := PyStr.lstrip "file:" key in
  let props := dict_set field (VStr ("attachment://" ++ slug)) (f_props feat) in
  match suffix_truthy upload_user_field_suffix with
  | Some sfx =>
      let upload_user_field := field ++ "__" ++ sfx in
      Ok (mkFeature (f_id feat) (dict_set upload_user_field user props),
          name_add upload_user_field internal_fields)
  | None => Ok (mkFeature (f_id feat) props, internal_fields)
  end.

(** *** [Relations.cleanup_attachments] *)

Fixpoint cleanup_attachments (slugs : list value) : M S unit :=
  match slugs with
  | [] => ret tt
  | VStr slug :: rest =>
      remove_attachment (PyStr.lstrip "attachment://" slug) ;;;
      cleanup_attachments rest
  | _ :: _ => raise AttributeError
  end.

(** *** [Relations.attachments_diff] *)

(** The variables the loop of [attachments_diff] updates: the two lists,
    and [feature["properties"]] and [internal_fields], which belong to the
    caller and are changed in place. *)
Record diff_state : Type := mkDiff {
  newattachments : list value;
  oldattachments : list value;
  df_props : dict value;
  df_internal : list string
}.

(** [(key in prev and feature[key] != prev[key]) or record_deleted] *)
Definition diff_test (prev_props props : dict value) (record_deleted : bool)
    (key : string) : outcome bool :=
  match dict_get key prev_props with
  | Some pv =>
      match dict_get key props with
      | Some fv => Ok (negb (py_eq fv pv) || record_deleted)%bool
      | None => Raise KeyError
      end
  | None => Ok record_deleted
  end.

(** The body of [for key in keys] (lines 780-789). *)
Definition diff_key (prev_props : dict value) (record_deleted : bool)
    (key : string) (st : diff_state) : outcome diff_state :=
  match diff_test prev_props (df_props st) record_deleted key with
  | Ok true =>
      match dict_get key prev_props with
      | None => Raise KeyError
      | Some pv =>
          let st :=
            if is_attachment pv then
              match suffix_truthy upload_user_field_suffix with
              | Some sfx =>
                  let upload_user_field := key ++ "__" ++ sfx in
                  mkDiff (newattachments st)
                         (oldattachments st ++ [pv])
                         (dict_set upload_user_field user (df_props st))
                         (name_add upload_user_field (df_internal st))
              | None =>
                  mkDiff (newattachments st) (oldattachments st ++ [pv])
                         (df_props st) (df_internal st)
              end
            else st in
          match dict_get key (df_props st) with
          | None => Raise KeyError
          | Some fv =>
              if is_attachment fv then
                Ok (mkDiff (newattachments st ++ [fv]) (oldattachments st)
                           (df_props st) (df_internal st))
              else Ok st
          end
      end
  | Ok false => Ok st
  | Abort c m => Abort c m
  | Raise e => Raise e
  end.

Fixpoint diff_keys (prev_props : dict value) (record_deleted : bool)
    (keys : list string) (st : diff_state) : outcome diff_state :=
  match keys with
  | [] => Ok st
  | key :: rest =>
      match diff_key prev_props record_deleted key st with
      | Ok st => diff_keys prev_props record_deleted rest st
      | Abort c m => Abort c m
      | Raise e => Raise e
      end
  end.

(** Returns the two lists together with the caller's [feature] and
    [internal_fields] as the loop left them. *)
Definition attachments_diff (rel_table : string) (rel_record_id : value)
    (feat : feature) (internal_fields : list string) (record_deleted : bool)
  : M S diff_state :=
  prev <- show rel_table rel_record_id ;;
  match prev with
  | None => ret (mkDiff [] [] (f_props feat) internal_fields)
  | Some prev =>
      match r_feature prev with
      | None => raise KeyError
      | Some prev_feature =>
          lift (diff_keys (f_props prev_feature) record_deleted
                  (dict_keys (f_props feat))
                  (mkDiff [] [] (f_props feat) internal_fields))
      end
  end.

(** *** [Relations.post]: one record *)

(** [{k[len(tbl_prefix):]: v for k, v in rel_record.items()
      if k.startswith(tbl_prefix)}] *)
Definition entry_step (tbl_prefix : string) (d : dict value)
    (kv : string * value) : dict value :=
  if PyStr.startswith tbl_prefix (fst kv)
  then dict_set (PyStr.drop (String.length tbl_prefix) (fst kv)) (snd kv) d
  else d.

Definition entry_properties (tbl_prefix : string) (rel_record : record)
  : dict value :=
  fold_left (entry_step tbl_prefix) rel_record [].

(** The keys of [table_internal_fields] (line 739). *)
Definition table_internal (tbl_prefix : string) (internal_fields : list string)
  : list string :=
  fold_left
    (fun d n =>
       if PyStr.startswith tbl_prefix n
       then name_add (PyStr.drop (String.length tbl_prefix) n) d
       else d)
    internal_fields [].

(** [{(rel_table + "__" + k): v for k, v in result['feature']['properties'].items()
      if not k in table_internal_fields}], then [rel_record["id"] = ...]. *)
Definition committed_record (rel_table : string) (f : feature)
    (table_internal_fields : list string) : record :=
  dict_set "id" (f_id f)
    (fold_left
       (fun d kv =>
          if name_mem (fst kv) table_internal_fields then d
          else dict_set (rel_table ++ "__" ++ fst kv) (snd kv) d)
       (f_props f) []).

(** Lines 758-766. The answer is the record appended to
    [ret[rel_table]["records"]], if one is, and whether [haserrors] is
    set. *)
Definition report (rel_table : string) (rel_record : record)
    (table_internal_fields : list string) (res : result)
  : option record * bool :=
  match r_error res with
  | Some err =>
      (Some (dict_set "error_details" (or_empty_dict (r_error_details res))
               (dict_set "error" err rel_record)),
       true)
  | None =>
      match r_feature res with
      | Some f => (Some (committed_record rel_table f table_internal_fields), false)
      | None => (None, false)
      end
  end.

(** The [else] branch of the foreign-key test (lines 733-766): the record
    is applied according to its [__status__]. *)
Definition apply_edit (rel_table : string) (internal_fields : list string)
    (rel_record : record) : M S (option record * bool) :=
  let tbl_prefix := rel_table ++ "__" in
  let entry :=
    mkFeature (match dict_get "id" rel_record with
               | Some v => v
               | None => VNone
               end)
              (entry_properties tbl_prefix rel_record) in
  let table_internal_fields := table_internal tbl_prefix internal_fields in
  match dict_get "__status__" rel_record with
  | None => ret (Some rel_record, false)
  | Some status =>
      if py_eq status (VStr "new") then
        res <- create rel_table entry table_internal_fields ;;
        ret (report rel_table rel_record table_internal_fields res)
      else if py_eq status (VStr "changed") then
        match dict_get "id" rel_record with
        | None => raise KeyError
        | Some rid =>
            d <- attachments_diff rel_table rid entry
                   table_internal_fields false ;;
            res <- update rel_table rid
                     (mkFeature (f_id entry) (df_props d))
                     (df_internal d) ;;
            cleanup_attachments
              (if has_error res then newattachments d
               else oldattachments d) ;;;
            ret (report rel_table rel_record (df_internal d) res)
        end
      else
        match status with
        | VStr s =>
            if PyStr.startswith "deleted" s then
              match dict_get "id" rel_record with
              | None => raise KeyError
              | Some rid =>
                  d <- attachments_diff rel_table rid entry
                         table_internal_fields true ;;
                  match suffix_truthy upload_user_field_suffix with
                  | Some _ =>
                      update rel_table rid
                        (mkFeature (f_id entry) (df_props d))
                        (df_internal d) ;;; ret tt
                  | None => ret tt
                  end ;;;
                  res <- destroy rel_table rid ;;
                  cleanup_attachments
                    (if has_error res then newattachments d
                     else oldattachments d) ;;;
                  ret (report rel_table rel_record (df_internal d) res)
              end
            else ret (None, false)
        | _ => raise AttributeError
        end
  end.

(** [rel_record.get("__status__", '')] and
    [rel_record.get(tbl_prefix + fk_field, None)] *)
Definition status_of (rel_record : record) : value :=
  match dict_get "__status__" rel_record with
  | Some v => v
  | None => VStr EmptyString
  end.

Definition fk_of (fk_key : string) (rel_record : record) : value :=
  match dict_get fk_key rel_record with
  | Some v => v
  | None => VNone
  end.

(** "Set foreign key for new records" (lines 725-726). *)
Definition force_fk (id : Z) (fk_key : string) (rel_record : record)
  : record :=
  if py_eq (status_of rel_record) (VStr "new")
  then dict_set fk_key (VInt id) rel_record
  else rel_record.

(** The body of [for rel_record in rel_data.get("records", [])]
    (lines 724-766). The answer is the record appended to
    [ret[rel_table]["records"]], if one is, and whether [haserrors] is
    set. *)
Definition process_record (id : Z) (rel_table : string)
    (fk_field : option string) (internal_fields : list string)
    (rel_record : record) : M S (option record * bool) :=
  let tbl_prefix := rel_table ++ "__" in
  match fk_field with
  | None => raise TypeError
  | Some fk_field =>
      let rel_record := force_fk id (tbl_prefix ++ fk_field) rel_record in
      if negb (py_eq (fk_of (tbl_prefix ++ fk_field) rel_record) (VInt id))
      then
        ret (Some (dict_set "__error__" (VStr "FK validation failed") rel_record),
             true)
      else apply_edit rel_table internal_fields rel_record
  end.

(** *** [Relations.post] *)

(** [for rel_record in rel_data.get("records", [])]; [out] is
    [ret[rel_table]["records"]]. *)
Fixpoint process_records (id : Z) (rel_table : string)
    (fk_field : option string) (internal_fields : list string)
    (records : list record) (out : list record) (haserrors : bool)
  : M S (list record * bool) :=
  match records with
  | [] => ret (out, haserrors)
  | rel_record :: rest =>
      r <- process_record id rel_table fk_field internal_fields rel_record ;;
      process_records id rel_table fk_field internal_fields rest
        (match fst r with Some o => out ++ [o] | None => out end)
        (snd r || haserrors)
  end.

(** [for (rel_table, rel_data) in payload.items()] *)
Fixpoint process_tables (id : Z) (internal_fields : list string)
    (tables : list (string * rel_data)) (out : dict rel_out)
    (haserrors : bool) : M S (dict rel_out * bool) :=
  match tables with
  | [] => ret (out, haserrors)
  | (rel_table, rel_data) :: rest =>
      r <- process_records id rel_table (rd_fk rel_data) internal_fields
             (match rd_records rel_data with Some l => l | None => [] end)
             [] haserrors ;;
      process_tables id internal_fields rest
        (dict_set rel_table (mkRelOut (rd_fk rel_data) (fst r)) out)
        (snd r)
  end.

(** The handler. [values] is [None] when the form field is not a JSON
    object. The answer is [relationvalues] and [success]. *)
Definition relations_post (dataset : string) (id : Z)
    (values : option payload) (files : dict filedata)
  : M S (dict rel_out * bool) :=
  match values with
  | None => abort 400 (VStr "JSON is not an object")
  | Some p =>
      editable <- is_editable dataset id ;;
      if negb editable then
        abort 404 (VStr "Dataset or feature not found or permission error")
      else
        validate_attachments files ;;;
        saved <- save_attachments bind_relation_upload files [] (p, []) ;;
        let '(_, (p, internal_fields)) := saved in
        r <- process_tables id internal_fields p [] false ;;
        ret (fst r, negb (snd r))
  end.

(** *** The single-record multipart handlers *)

(** [dict(filter(lambda x: x[0] not in internal_fields, props.items()))] *)
Definition strip_internal (internal_fields : list string) (props : dict value)
  : dict value :=
  fold_left
    (fun d kv =>
       if name_mem (fst kv) internal_fields then d
       else dict_set (fst kv) (snd kv) d)
    props [].

(** [result.get('error_code') or 404] *)
Definition error_code (res : result) : Z :=
  match r_error_code res with
  | Some c => if Z.eqb c 0 then 404 else c
  | None => 404
  end.

(** Lines 415-423 and 504-512: the answer of the handler after the Record
    Store write. [api.abort] is taken to end the request with the code it
    is given: a code for which the HTTP library has no exception class (it
    raises [LookupError] instead) and the expansion of [error_details] into
    keyword arguments are outside the model. *)
Definition finish_write (saved_attachments : dict string)
    (internal_fields : list string) (res : result) : M S feature :=
  match r_error res with
  | None =>
      match r_feature res with
      | None => raise KeyError
      | Some f => ret (mkFeature (f_id f) (strip_internal internal_fields (f_props f)))
      end
  | Some err =>
      remove_all (dict_values saved_attachments) ;;;
      abort (error_code res) err
  end.

(** [CreateFeatureMultipart.post]. [feat] is [None] when the form field is
    not a JSON object. *)
Definition create_feature_multipart (dataset : string) (feat : option feature)
    (files : dict filedata) : M S feature :=
  match feat with
  | None => abort 400 (VStr "feature is not an object")
  | Some feat =>
      validate_attachments files ;;;
      saved <- save_attachments bind_feature_upload files [] (feat, []) ;;
      let '(saved_attachments, (feat, internal_fields)) := saved in
      res <- create dataset feat internal_fields ;;
      finish_write saved_attachments internal_fields res
  end.

(** The body of [for key in keys] of [EditFeatureMultipart.put]
    (lines 493-498); the state is [feature["properties"]] and
    [internal_fields]. *)
Definition edit_key (prev_props : dict value) (key : string)
    (st : dict value * list string) : M S (dict value * list string) :=
  let '(props, internal_fields) := st in
  match dict_get key prev_props with
  | None => ret st
  | Some pv =>
      if (truthy pv && is_attachment pv)%bool then
        match dict_get key props with
        | None => raise KeyError
        | Some fv =>
            if negb (py_eq fv pv) then
              match pv with
              | VStr s =>
                  remove_attachment (PyStr.lstrip "attachment://" s) ;;;
                  match suffix_truthy upload_user_field_suffix with
                  | Some sfx =>
                      let upload_user_field := key ++ "__" ++ sfx in
                      ret (dict_set upload_user_field user props,
                           name_add upload_user_field internal_fields)
                  | None => ret st
                  end
              | _ => raise AttributeError
              end
            else ret st
        end
      else ret st
  end.

Fixpoint edit_keys (prev_props : dict value) (keys : list string)
    (st : dict value * list string) : M S (dict value * list string) :=
  match keys with
  | [] => ret st
  | key :: rest =>
      st <- edit_key prev_props key st ;;
      edit_keys prev_props rest st
  end.

(** [EditFeatureMultipart.put]. *)
Definition edit_feature_multipart (dataset : string) (id : Z)
    (feat : option feature) (files : dict filedata) : M S feature :=
  match feat with
  | None => abort 400 (VStr "feature is not an object")
  | Some feat =>
      validate_attachments files ;;;
      saved <- save_attachments bind_feature_upload files [] (feat, []) ;;
      let '(saved_attachments, (feat, internal_fields)) := saved in
      prev <- show dataset (VInt id) ;;
      st <- match prev with
            | None => ret (f_props feat, internal_fields)
            | Some prev =>
                match r_feature prev with
                | None => raise KeyError
                | Some prev_feature =>
                    edit_keys (f_props prev_feature)
                      (dict_keys (f_props feat))
                      (f_props feat, internal_fields)
                end
            end ;;
      let '(props, internal_fields) := st in
      res <- update dataset (VInt id) (mkFeature (f_id feat) props)
               internal_fields ;;
      finish_write saved_attachments internal_fields res
  end.

End Handlers.

(** ** A concrete Record Store and request environment

    Used to run the handlers on concrete requests. *)

Module TableStore.

Record row : Type := mkRow {
  row_table : string;
  row_id : Z;
  row_props : dict value
}.

(** The rows of all tables, and whether writes are accepted. *)
Record state : Type := mkState {
  rows : list row;
  writable : bool
}.

Definition is_row (t : string) (id : Z) (r : row) : bool :=
  (String.eqb t (row_table r) && Z.eqb id (row_id r))%bool.

Definition find_row (s : state) (t : string) (id : value) : option row :=
  match id with
  | VInt z => find (is_row t z) (rows s)
  | _ => None
  end.

Definition next_id (s : state) : Z :=
  fold_left (fun m r => Z.max m (row_id r + 1)) (rows s) 1.

Definition show (s : state) (t : string) (id : value) : option result * state :=
  match find_row s t id with
  | Some r => (Some (res_feature (mkFeature (VInt (row_id r)) (row_props r))), s)
  | None => (None, s)
  end.

Definition create (s : state) (t : string) (f : feature)
    (internal : list string) : result * state :=
  if writable s then
    (res_feature (mkFeature (VInt (next_id s)) (f_props f)),
     mkState (rows s ++ [mkRow t (next_id s) (f_props f)]) true)
  else (res_error "create failed", s).

Definition update (s : state) (t : string) (id : value) (f : feature)
    (internal : list string) : result * state :=
  match find_row s t id with
  | Some r =>
      if writable s then
        (res_feature (mkFeature (VInt (row_id r)) (f_props f)),
         mkState
           (map (fun r' => if is_row t (row_id r) r'
                           then mkRow t (row_id r) (f_props f) else r')
                (rows s))
           true)
      else (res_error "update failed", s)
  | None => (res_error "Feature not found", s)
  end.

Definition destroy (s : state) (t : string) (id : value) : result * state :=
  match find_row s t id with
  | Some r =>
      if writable s then
        (res_empty,
         mkState (filter (fun r' => negb (is_row t (row_id r) r')) (rows s)) true)
      else (res_error "delete failed", s)
  | None => (res_error "Feature not found", s)
  end.

Definition is_editable (s : state) (t : string) (id : Z) : bool :=
  match find_row s t (VInt id) with Some _ => true | None => false end.

Definition store : RecordStore state :=
  mkRecordStore state show create update destroy is_editable.

(** [int(s)] for a string of decimal digits with an optional sign. *)
Fixpoint digits (s : string) (acc : Z) : option Z :=
  match s with
  | EmptyString => Some acc
  | String c r =>
      let n := Z.of_nat (nat_of_ascii c) - 48 in
      if ((0 <=? n) && (n <=? 9))%bool then digits r (10 * acc + n) else None
  end.

Definition unsigned (s : string) : option Z :=
  match s with
  | EmptyString => None
  | _ => digits s 0
  end.

Definition int_of_string (s : string) : option Z :=
  match s with
  | String "-" r => option_map Z.opp (unsigned r)
  | String "+" r => unsigned r
  | _ => unsigned s
  end.

End TableStore.

(** ** Concrete requests *)

Module Scenario.
Import TableStore.

Definition alice : value := VStr "alice".

(** A parent record 7 with one child record 1 whose photo is the
    attachment [slug]. *)
Definition family (slug : string) (wr : bool) : state :=
  mkState
    [mkRow "parents" 7 [("name", VStr "p")];
     mkRow "children" 1
       [("parent_id", VInt 7); ("photo", VStr ("attachment://" ++ slug))]]
    wr.

Definition start (s : state) (disk : list string) : world state :=
  mkWorld s disk [].

Definition child_edit (status : string) (fields : record) : record :=
  ([("id", VInt 1); ("__status__", VStr status);
    ("children__parent_id", VInt 7)] ++ fields)%list.

Definition children_batch (records : list record) : payload :=
  [("children", mkRelData (Some "parent_id") (Some records))].

(** The update of the child's photo from [old1] to the uploaded [new1]. *)
Definition photo_update : payload :=
  children_batch
    [child_edit "changed" [("children__photo", VStr "attachment://old1")]].

Definition photo_upload : dict filedata :=
  [("file:children__photo__0", mkFile true (Some "new1"))].

(** A delete whose payload names a property the stored record lacks,
    followed by a create. *)
Definition delete_with_unknown_key : payload :=
  children_batch
    [child_edit "deleted" [("children__note", VStr "x")];
     [("__status__", VStr "new"); ("children__name", VStr "b")]].

(** A delete that carries no photo property, and one that does. *)
Definition delete_without_photo : payload :=
  children_batch [child_edit "deleted" []].

Definition delete_with_photo : record :=
  child_edit "deleted" [("children__photo", VStr "attachment://x1")].

Definition archived_record : payload :=
  children_batch [child_edit "archived" []].

(** A table no dataset declares as a child of [parents]. *)
Definition strangers_batch : payload :=
  [("strangers",
    mkRelData (Some "owner")
      (Some [[("__status__", VStr "new"); ("strangers__name", VStr "a")]]))].

(** A single record [points/7] whose photo is [old1], in a store that
    refuses writes, and its update by an uploaded [new1]. *)
Definition points (wr : bool) : state :=
  mkState [mkRow "points" 7 [("photo", VStr "attachment://old1")]] wr.

Definition point_edit : feature := mkFeature VNone [("photo", VNone)].

Definition point_upload : dict filedata :=
  [("file:photo", mkFile true (Some "new1"))].

(** A child whose audit field [photo__by] itself holds an attachment, and
    an edit replacing both attachments. *)
Definition audited_family : state :=
  mkState
    [mkRow "children" 1
       [("photo", VStr "attachment://a1");
        ("photo__by", VStr "attachment://a2")]]
    true.

Definition audited_edit : feature :=
  mkFeature (VInt 1)
    [("photo", VStr "attachment://b1");
     ("photo__by", VStr "attachment://b2")].

(** Three uploads, the last of which cannot be saved. *)
Definition failing_uploads : dict filedata :=
  [("file:photo", mkFile true (Some "s1"));
   ("file:plan", mkFile true (Some "s2"));
   ("file:deed", mkFile true None)].

Definition failing_relation_uploads : dict filedata :=
  [("file:children__photo__0", mkFile true (Some "s1"));
   ("file:children__plan__0", mkFile true (Some "s2"));
   ("file:children__deed__0", mkFile true None)].

(** A "new" record with a conflicting foreign key, and a "changed" one. *)
Definition new_with_wrong_fk : record :=
  [("__status__", VStr "new"); ("children__parent_id", VInt 99);
   ("children__name", VStr "a")].

Definition changed_with_wrong_fk : record :=
  [("id", VInt 1); ("__status__", VStr "changed");
   ("children__parent_id", VInt 99)].

End Scenario.

(** ** Vocabulary of the properties *)

(** The disk after [remove_attachment] has been called on each of [slugs]. *)
Definition remove_slugs (slugs disk : list string) : list string :=
  fold_left (fun d s => disk_remove s d) slugs disk.

(** The slug [cleanup_attachments] passes to the Attachment Store for the
    reference [v]. *)
Definition passed_slug (v : value) : string :=
  match v with
  | VStr s => PyStr.lstrip "attachment://" s
  | _ => EmptyString
  end.

(** The call that saves one uploaded file, and the slugs a list of uploads
    is saved under. *)
Definition save_event (kf : string * filedata) : event :=
  EvSave (fst kf) (fd_slug (snd kf)).

Definition is_save (e : event) : bool :=
  match e with EvSave _ _ => true | _ => false end.

Definition saved_slugs (files : dict filedata) : list string :=
  flat_map (fun kf => match slug_truthy (fd_slug (snd kf)) with
                      | Some s => [s]
                      | None => []
                      end) files.

(** [saved_attachments[key] = slug] for one upload whose save succeeded. *)
Definition record_saved (saved : dict string) (kf : string * filedata)
  : dict string :=
  match slug_truthy (fd_slug (snd kf)) with
  | Some s => dict_set (fst kf) s saved
  | None => saved
  end.

Definition save_ok (kf : string * filedata) : Prop :=
  slug_truthy (fd_slug (snd kf)) <> None.

(** The save of the upload [key] failed and the request was rolled back:
    the uploads before it were saved in the order of the request, the failing
    save followed, then every slug saved so far was removed, none of them is
    on disk, and the Record Store was not called. *)
Definition rolled_back {S : Type} (files : dict filedata) (key : string)
    (w w' : world S) : Prop :=
  exists pre fd post,
    files = (pre ++ (key, fd) :: post)%list
    /\ slug_truthy (fd_slug fd) = None
    /\ Forall save_ok pre
    /\ w_log w'
       = (w_log w ++ map save_event pre ++ [EvSave key (fd_slug fd)]
            ++ map EvRemove (saved_slugs pre))%list
    /\ (forall s, In s (saved_slugs pre) -> disk_has s (w_disk w') = false)
    /\ w_store w' = w_store w.

(** A computation that never ends by [api.abort]. *)
Definition never_aborts {S A : Type} (m : M S A) : Prop :=
  forall w c msg w', m w <> (Abort c msg, w').

(** What the response holds for one relation record. *)

(** [rel_data.get("records", [])] *)
Definition records_of (rd : rel_data) : list record :=
  match rd_records rd with Some l => l | None => [] end.

Definition slot_records (o : option record) : list record :=
  match o with Some r => [r] | None => [] end.

Section Echo.
Context {S : Type}.
Variable RS : RecordStore S.
Variable user : value.
Variable sfx : option string.
Variable id : Z.
Variable t fk : string.
(** [internal_fields], as the save loop left it. *)
Variable internal : list string.

(** The record after "Set foreign key for new records". *)
Definition with_fk (r : record) : record :=
  force_fk id ((t ++ "__") ++ fk) r.

(** The entry built from the record (lines 733-737). *)
Definition record_entry (r : record) : feature :=
  mkFeature (match dict_get "id" r with Some v => v | None => VNone end)
            (entry_properties (t ++ "__") r).

(** The status is a string other than the recognised ones. *)
Definition ignored_status (r : record) : Prop :=
  exists s,
    dict_get "__status__" r = Some (VStr s)
    /\ s <> "new" /\ s <> "changed"
    /\ PyStr.startswith "deleted" s = false.

Definition fk_passes (r : record) : Prop :=
  py_eq (fk_of ((t ++ "__") ++ fk) r) (VInt id) = true.

(** [written r w res internal' w']: reached in the world [w], the record
    [r] has the write its status asks for made; [res] is the answer of the
    Record Store to that very call, [internal'] the internal fields of the
    table as they are when the answer is reported, and [w'] the world after
    the write and the cleanup that follows it. *)
Inductive written (r : record) (w : world S)
  : result -> list string -> world S -> Prop :=
| written_new res w' :
    dict_get "__status__" r = Some (VStr "new") ->
    create RS t (record_entry r) (table_internal (t ++ "__") internal) w
    = (Ok res, w') ->
    written r w res (table_internal (t ++ "__") internal) w'
| written_changed rid d w1 res w2 w' :
    dict_get "__status__" r = Some (VStr "changed") ->
    dict_get "id" r = Some rid ->
    attachments_diff RS user sfx t rid (record_entry r)
      (table_internal (t ++ "__") internal) false w = (Ok d, w1) ->
    update RS t rid (mkFeature rid (df_props d)) (df_internal d) w1
    = (Ok res, w2) ->
    cleanup_attachments
      (if has_error res then newattachments d else oldattachments d) w2
    = (Ok tt, w') ->
    written r w res (df_internal d) w'
| written_deleted s rid d w1 w2 res w3 w' :
    dict_get "__status__" r = Some (VStr s) ->
    PyStr.startswith "deleted" s = true ->
    dict_get "id" r = Some rid ->
    attachments_diff RS user sfx t rid (record_entry r)
      (table_internal (t ++ "__") internal) true w = (Ok d, w1) ->
    match suffix_truthy sfx with
    | Some _ =>
        exists audit,
          update RS t rid (mkFeature rid (df_props d)) (df_internal d) w1
          = (Ok audit, w2)
    | None => w2 = w1
    end ->
    destroy RS t rid w2 = (Ok res, w3) ->
    cleanup_attachments
      (if has_error res then newattachments d else oldattachments d) w3
    = (Ok tt, w') ->
    written r w res (df_internal d) w'.

(** [echo_of r w o w']: reached in the world [w], the input record [r]
    contributes [o] to the records of its table in the response and leaves
    the world [w']. *)
Inductive echo_of (r : record) (w : world S)
  : option record -> world S -> Prop :=
| echo_rejected :
    py_eq (fk_of ((t ++ "__") ++ fk) (with_fk r)) (VInt id) = false ->
    echo_of r w
      (Some (dict_set "__error__" (VStr "FK validation failed") (with_fk r))) w
| echo_unchanged :
    fk_passes (with_fk r) ->
    dict_get "__status__" (with_fk r) = None ->
    echo_of r w (Some (with_fk r)) w
| echo_ignored :
    fk_passes (with_fk r) ->
    ignored_status (with_fk r) ->
    echo_of r w None w
| echo_error res internal' w' err :
    fk_passes (with_fk r) ->
    written (with_fk r) w res internal' w' ->
    r_error res = Some err ->
    echo_of r w
      (Some (dict_set "error_details" (or_empty_dict (r_error_details res))
               (dict_set "error" err (with_fk r)))) w'
| echo_committed res internal' w' f :
    fk_passes (with_fk r) ->
    written (with_fk r) w res internal' w' ->
    r_error res = None ->
    r_feature res = Some f ->
    echo_of r w (Some (committed_record t f internal')) w'
| echo_nothing res internal' w' :
    fk_passes (with_fk r) ->
    written (with_fk r) w res internal' w' ->
    r_error res = None ->
    r_feature res = None ->
    echo_of r w None w'.

(** The records of one table, in order, each reached in the world the
    record before it left. *)
Inductive records_echo : list record -> world S -> list record -> world S -> Prop :=
| records_echo_nil w : records_echo [] w [] w
| records_echo_cons r rs w o w1 out w2 :
    echo_of r w o w1 ->
    records_echo rs w1 out w2 ->
    records_echo (r :: rs) w (slot_records o ++ out)%list w2.

End Echo.

(** The tables of the batch, in order: one entry of the response for each,
    with the table's [fk] and the contributions of its records. *)
Inductive tables_echo {S : Type} (RS : RecordStore S) (user : value)
    (sfx : option string) (id : Z) (internal : list string)
  : payload -> world S -> dict rel_out -> world S -> Prop :=
| tables_echo_nil w : tables_echo RS user sfx id internal [] w [] w
| tables_echo_fk t rd fk rest w recs w1 outs w2 :
    rd_fk rd = Some fk ->
    records_echo RS user sfx id t fk internal (records_of rd) w recs w1 ->
    tables_echo RS user sfx id internal rest w1 outs w2 ->
    tables_echo RS user sfx id internal ((t, rd) :: rest) w
      ((t, mkRelOut (Some fk) recs) :: outs) w2
| tables_echo_no_fk t rd rest w outs w2 :
    rd_fk rd = None ->
    records_of rd = [] ->
    tables_echo RS user sfx id internal rest w outs w2 ->
    tables_echo RS user sfx id internal ((t, rd) :: rest) w
      ((t, mkRelOut None []) :: outs) w2.

(** The two payloads have the same tables, in the same order, with the
    same [fk] and as many records. *)
Definition same_shape (p p1 : payload) : Prop :=
  Forall2 (fun a b => fst a = fst b
                      /\ rd_fk (snd a) = rd_fk (snd b)
                      /\ length (records_of (snd a))
                         = length (records_of (snd b)))
          p p1.

(** ** The read handlers: [Relations.get] and [KeyValues.get] *)

(** [s.split(c)] for a separator [c] of one character; [cur] is the piece
    under construction. *)
Fixpoint split_char_aux (c : ascii) (s cur : string) : list string :=
  match s with
  | EmptyString => [cur]
  | String d r =>
      if Ascii.eqb d c then cur :: split_char_aux c r EmptyString
      else split_char_aux c r (cur ++ String d EmptyString)
  end.

Definition split_char (c : ascii) (s : string) : list string :=
  split_char_aux c s EmptyString.

(** ['%d' % z] *)
Definition decimal (z : Z) : string := NilZero.string_of_int (Z.to_int z).

Definition dquote : string := String "034"%char EmptyString.

(** ['[["%s", "=", %d]]' % (fk_field_name, id)] *)
Definition fk_filter (fk_field_name : string) (id : Z) : string :=
  "[[" ++ dquote ++ fk_field_name ++ dquote ++ ", " ++ dquote ++ "="
       ++ dquote ++ ", " ++ decimal id ++ "]]".

(** [{(table + "__" + k): v for k, v in feature['properties'].items()}],
    then [record["id"] = feature["id"]] (lines 649-650). *)
Definition relation_record (table : string) (f : feature) : record :=
  dict_set "id" (f_id f)
    (fold_left (fun d kv => dict_set ((table ++ "__") ++ fst kv) (snd kv) d)
       (f_props f) []).

(** The sort keys Python can order: numbers ([bool] included) among
    themselves, strings among themselves. *)
Definition number_key (v : value) : option Z :=
  match v with
  | VInt z => Some z
  | VBool b => Some (if b then 1 else 0)
  | _ => None
  end.

Definition text_key (v : value) : option string :=
  match v with
  | VStr s => Some s
  | _ => None
  end.

(** [x] goes before the first element that is not smaller. *)
Fixpoint insert_sorted {K A : Type} (le : K -> K -> bool) (x : K * A)
    (l : list (K * A)) : list (K * A) :=
  match l with
  | [] => [x]
  | y :: r =>
      if le (fst x) (fst y) then x :: y :: r else y :: insert_sorted le x r
  end.

(** The stable sort of keyed elements. *)
Definition stable_sort {K A : Type} (le : K -> K -> bool) (l : list (K * A))
  : list (K * A) :=
  fold_right (insert_sorted le) [] l.

(** Pairs every element with its key; [None] when a key is missing. *)
Fixpoint keyed {K A : Type} (key : A -> option K) (l : list A)
  : option (list (K * A)) :=
  match l with
  | [] => Some []
  | x :: r =>
      match key x, keyed key r with
      | Some k, Some kr => Some ((k, x) :: kr)
      | _, _ => None
      end
  end.

(** [records.sort(key=lambda r: r["id"])]: the keys are computed first
    ([KeyError] when a record has no id); a list of fewer than two records
    is left alone; otherwise the sort is the stable one when the keys can be
    ordered and raises [TypeError] when they cannot. *)
Definition sort_by_id (records : list record) : outcome (list record) :=
  match keyed (dict_get "id") records with
  | None => Raise KeyError
  | Some ids =>
      if (length records <=? 1)%nat then Ok records
      else
        match keyed (fun kr => number_key (fst kr)) ids with
        | Some l => Ok (map (fun x => snd (snd x)) (stable_sort Z.leb l))
        | None =>
            match keyed (fun kr => text_key (fst kr)) ids with
            | Some l => Ok (map (fun x => snd (snd x)) (stable_sort String.leb l))
            | None => Raise TypeError
            end
        end
  end.

Section ReadHandlers.
Context {S : Type}.
(** [data_service.index(user, table, None, None, filter)]; the answer is
    the features of ['feature_collection'], [None] when the result has no
    such key. *)
Variable ds_index : S -> string -> option string -> option (list feature) * S.
(** Python's [str.strip()]. *)
Variable py_strip : string -> string.
(** The message with which [get_relations_parser.parse_args()] refuses a
    request that lacks the required argument [tables]; it is the parser
    library's. *)
Variable missing_tables : value.

(** The store and the [index] calls made so far, as (table, filter). *)
Record reads : Type := mkReads {
  rw_store : S;
  rw_calls : list (string * option string)
}.

Definition index (table : string) (filter : option string) (w : reads)
  : option (list feature) * reads :=
  let (res, s) := ds_index (rw_store w) table filter in
  (res, mkReads s (rw_calls w ++ [(table, filter)])).

(** The body of [for relation in relations.split(",")] of [Relations.get]
    (lines 639-652); [ret] is the dictionary built so far. *)
Definition relation_entry (id : Z) (relation : string) (ret : dict rel_out)
    (w : reads) : outcome (dict rel_out) * reads :=
  match split_char ":" relation with
  | [table; fk_field_name] =>
      let (res, w) := index table (Some (fk_filter fk_field_name id)) w in
      match res with
      | Some features =>
          match sort_by_id (map (relation_record table) features) with
          | Ok records =>
              (Ok (dict_set table (mkRelOut (Some fk_field_name) records) ret), w)
          | Abort c m => (Abort c m, w)
          | Raise e => (Raise e, w)
          end
      | None => (Ok (dict_set table (mkRelOut (Some fk_field_name) []) ret), w)
      end
  | _ => (Ok ret, w)
  end.

Fixpoint relation_entries (id : Z) (relations : list string)
    (ret : dict rel_out) (w : reads) : outcome (dict rel_out) * reads :=
  match relations with
  | [] => (Ok ret, w)
  | relation :: rest =>
      match relation_entry id relation ret w with
      | (Ok ret, w) => relation_entries id rest ret w
      | other => other
      end
  end.

(** [Relations.get]; [tables] is the query argument of that name, [None]
    when the request has none: the argument is declared [required=True]
    (line 267), so [parse_args] (line 635) aborts with 400. The value of a
    present argument is a string, and [args['tables'] or ""] is that
    string. *)
Definition relations_get (id : Z) (tables : option string) (w : reads)
  : outcome (dict rel_out) * reads :=
  match tables with
  | None => (Abort 400 missing_tables, w)
  | Some s => relation_entries id (split_char "," s) [] w
  end.

(** The record of one feature in [KeyValues.get] (line 824). *)
Definition keyvalue_record (key_field_name value_field_name : string)
    (f : feature) : outcome record :=
  match (if String.eqb key_field_name "id" then Some (f_id f)
         else dict_get key_field_name (f_props f)) with
  | None => Raise KeyError
  | Some k =>
      match dict_get value_field_name (f_props f) with
      | None => Raise KeyError
      | Some (VStr s) => Ok [("key", k); ("value", VStr (py_strip s))]
      | Some _ => Raise AttributeError
      end
  end.

Fixpoint keyvalue_records (key_field_name value_field_name : string)
    (features : list feature) : outcome (list record) :=
  match features with
  | [] => Ok []
  | f :: rest =>
      match keyvalue_record key_field_name value_field_name f with
      | Ok r =>
          match keyvalue_records key_field_name value_field_name rest with
          | Ok rs => Ok (r :: rs)
          | other => other
          end
      | Abort c m => Abort c m
      | Raise e => Raise e
      end
  end.

(** The body of [for keyval in keyvals.split(",")] of [KeyValues.get]
    (lines 814-825). *)
Definition keyvalue_entry (keyval : string) (ret : dict (list record))
    (w : reads) : outcome (dict (list record)) * reads :=
  match split_char ":" keyval with
  | [table; key_field_name; value_field_name] =>
      let (res, w) := index table None w in
      match res with
      | Some features =>
          match keyvalue_records key_field_name value_field_name features with
          | Ok records => (Ok (dict_set table records ret), w)
          | Abort c m => (Abort c m, w)
          | Raise e => (Raise e, w)
          end
      | None => (Ok (dict_set table [] ret), w)
      end
  | _ => (Ok ret, w)
  end.

Fixpoint keyvalue_entries (keyvals : list string) (ret : dict (list record))
    (w : reads) : outcome (dict (list record)) * reads :=
  match keyvals with
  | [] => (Ok ret, w)
  | keyval :: rest =>
      match keyvalue_entry keyval ret w with
      | (Ok ret, w) => keyvalue_entries rest ret w
      | other => other
      end
  end.

(** [KeyValues.get]; the same parser refuses a request without [tables]
    (line 807). *)
Definition keyvalues_get (tables : option string) (w : reads)
  : outcome (dict (list record)) * reads :=
  match tables with
  | None => (Abort 400 missing_tables, w)
  | Some s => keyvalue_entries (split_char "," s) [] w
  end.

End ReadHandlers.
Arguments reads S : clear implicits.

(** ** A concrete store for the read handlers *)

Module Listing.
Import TableStore.

(** The filter [[["k", "=", z]]] holds of a row whose property [k] is the
    integer [z]; no filter holds of every row. *)
Definition matches (filter : option string) (r : row) : bool :=
  match filter with
  | None => true
  | Some text =>
      existsb (fun kv => match snd kv with
                         | VInt z => String.eqb text (fk_filter (fst kv) z)
                         | _ => false
                         end)
              (row_props r)
  end.

Definition index (s : state) (t : string) (filter : option string)
  : option (list feature) * state :=
  (Some (map (fun r => mkFeature (VInt (row_id r)) (row_props r))
           (List.filter
              (fun r => (String.eqb t (row_table r) && matches filter r)%bool)
              (rows s))),
   s).

(** [str.strip()] for blanks. *)
Fixpoint lstrip_blanks (s : string) : string :=
  match s with
  | String c r => if Ascii.eqb c " " then lstrip_blanks r else s
  | EmptyString => EmptyString
  end.

Fixpoint rstrip_blanks (s : string) : string :=
  match s with
  | EmptyString => EmptyString
  | String c r =>
      match rstrip_blanks r with
      | EmptyString => if Ascii.eqb c " " then EmptyString
                       else String c EmptyString
      | r' => String c r'
      end
  end.

Definition strip (s : string) : string := rstrip_blanks (lstrip_blanks s).

(** Three children of the parent 7, stored out of order, one child of the
    parent 8, and a table of units. *)
Definition register : state :=
  mkState
    [mkRow "children" 3 [("parent_id", VInt 7); ("name", VStr "c")];
     mkRow "children" 1 [("parent_id", VInt 7); ("name", VStr "a")];
     mkRow "children" 4 [("parent_id", VInt 8); ("name", VStr "d")];
     mkRow "children" 2 [("parent_id", VInt 7); ("name", VStr "b")];
     mkRow "units" 1 [("code", VStr "m"); ("label", VStr " metre ")];
     mkRow "units" 2 [("code", VStr "s"); ("label", VStr "second")]]
    true.

Definition fresh : reads state := mkReads register [].

(** The message of a refused request, as far as the runs need one. *)
Definition refusal : value := VStr "Input payload validation failed".

End Listing.

(** ** Further vocabulary *)

(** Every underscore of [s] is followed by a character that is no
    underscore: [s] holds no ["__"] and does not end in ["_"]. *)
Fixpoint splittable (s : string) : bool :=
  match s with
  | EmptyString => true
  | String c r =>
      if Ascii.eqb c "_" then
        match r with
        | EmptyString => false
        | String d _ => (negb (Ascii.eqb d "_") && splittable r)%bool
        end
      else splittable r
  end.

(** [payload[table]["records"][n]] *)
Definition payload_record (p : payload) (table : string) (n : nat)
  : option record :=
  match dict_get table p with
  | Some rd =>
      match rd_records rd with
      | Some recs => nth_error recs n
      | None => None
      end
  | None => None
  end.

(** The disk after the files of [files] that can be saved have been. *)
Definition add_saved (files : dict filedata) (disk : list string)
  : list string :=
  fold_left (fun d kf => match fd_slug (snd kf) with
                         | Some s => disk_add s d
                         | None => d
                         end) files disk.

(** [s] is empty or begins with a character outside the set [chars]. *)
Definition begins_outside (chars s : string) : bool :=
  match s with
  | EmptyString => true
  | String c _ => negb (PyStr.mem_char c chars)
  end.

(** The ids of two records are integers in ascending order. *)
Definition id_le (a b : record) : Prop :=
  exists x y,
    dict_get "id" a = Some (VInt x) /\ dict_get "id" b = Some (VInt y) /\ x <= y.

(** A record of the response that carries an error: the mark of a failed
    foreign-key test, or the error of the Record Store. *)
Definition marked (r : record) : Prop :=
  dict_get "__error__" r = Some (VStr "FK validation failed")
  \/ exists err, dict_get "error" r = Some err.

(** What the loop of [attachments_diff] keeps true of its variables: the
    old references are stored values, the new ones incoming values (or the
    user, which the loop writes into the incoming properties), and all of
    them are references. *)
Definition diff_sound (user : value) (prev_props props0 : dict value)
    (st : diff_state) : Prop :=
  (forall v, In v (oldattachments st) ->
             is_attachment v = true
             /\ exists k, In k (dict_keys props0)
                          /\ dict_get k prev_props = Some v)
  /\ (forall v, In v (newattachments st) ->
                is_attachment v = true
                /\ (In v (dict_values props0) \/ v = user))
  /\ (forall v, In v (dict_values (df_props st)) ->
                In v (dict_values props0) \/ v = user).

(** * Properties *)

(** ** Strings, values and dictionaries *)

Lemma startswith_app (p s : string) : PyStr.startswith p (p ++ s) = true.
Proof.
  unfold PyStr.startswith.
  induction p as [|c p IH]; simpl.
  - destruct s; reflexivity.
  - destruct (ascii_dec c c) as [_|n]; [exact IH | now elim n].
Qed.

Lemma drop_app (p s : string) : PyStr.drop (String.length p) (p ++ s) = s.
Proof. induction p as [|c p IH]; simpl; [reflexivity | exact IH]. Qed.

Lemma startswith_split (p k : string) :
  PyStr.startswith p k = true -> k = p ++ PyStr.drop (String.length p) k.
Proof.
  unfold PyStr.startswith. revert k.
  induction p as [|c p IH]; intros k H.
  - reflexivity.
  - destruct k as [|d k]; simpl in H; [discriminate H|].
    destruct (ascii_dec c d) as [->|]; [|discriminate H].
    simpl. f_equal. now apply IH.
Qed.

(** Stripping the character set of ["attachment://"] from a reference goes
    on into the slug. *)
Lemma lstrip_reference (slug : string) :
  PyStr.lstrip "attachment://" ("attachment://" ++ slug)
  = PyStr.lstrip "attachment://" slug.
Proof. reflexivity. Qed.

Lemma items_incl_refl (d : list (string * string)) : items_incl d d = true.
Proof.
  unfold items_incl. apply forallb_forall. intros kv Hin.
  apply existsb_exists. exists kv. split; [exact Hin|].
  unfold pair_eqb. now rewrite !String.eqb_refl.
Qed.

Lemma py_eq_refl (v : value) : py_eq v v = true.
Proof.
  destruct v as [|b|z|s|d]; simpl.
  - reflexivity.
  - now destruct b.
  - apply Z.eqb_refl.
  - apply String.eqb_refl.
  - now rewrite items_incl_refl.
Qed.

Section DictFacts.
Context {A : Type}.
Implicit Types (d : dict A) (k : string) (v : A).

Lemma dict_get_set_same k v d : dict_get k (dict_set k v d) = Some v.
Proof.
  induction d as [|[k' v'] d IH]; simpl.
  - now rewrite String.eqb_refl.
  - destruct (String.eqb k k') eqn:E; simpl.
    + now rewrite String.eqb_refl.
    + now rewrite E.
Qed.

Lemma dict_get_set_other k k' v d :
  k <> k' -> dict_get k (dict_set k' v d) = dict_get k d.
Proof.
  intros Hne. induction d as [|[k0 v0] d IH]; simpl.
  - apply String.eqb_neq in Hne. now rewrite Hne.
  - destruct (String.eqb k' k0) eqn:E; simpl.
    + apply String.eqb_eq in E. subst k0.
      apply String.eqb_neq in Hne. now rewrite Hne.
    + now rewrite IH.
Qed.

Lemma dict_get_none_keys k d :
  dict_get k d = None <-> ~ In k (dict_keys d).
Proof.
  induction d as [|[k' v'] d IH]; simpl.
  - tauto.
  - destruct (String.eqb k k') eqn:E.
    + apply String.eqb_eq in E. subst. split; [discriminate | tauto].
    + apply String.eqb_neq in E. rewrite IH. split.
      * intros H [H1|H1]; [now apply E | now apply H].
      * tauto.
Qed.

Lemma dict_get_some_keys k v d : dict_get k d = Some v -> In k (dict_keys d).
Proof.
  intros H. destruct (in_dec string_dec k (dict_keys d)) as [Hin|Hn];
    [exact Hin|].
  apply dict_get_none_keys in Hn. congruence.
Qed.

Lemma dict_keys_get k d : In k (dict_keys d) -> exists v, dict_get k d = Some v.
Proof.
  intros Hin. destruct (dict_get k d) as [v|] eqn:E; [now exists v|].
  apply dict_get_none_keys in E. contradiction.
Qed.

Lemma dict_set_fresh k v d :
  ~ In k (dict_keys d) -> dict_set k v d = (d ++ [(k, v)])%list.
Proof.
  induction d as [|[k' v'] d IH]; simpl; intros Hn; [reflexivity|].
  destruct (String.eqb k k') eqn:E.
  - apply String.eqb_eq in E. subst. tauto.
  - f_equal. apply IH. tauto.
Qed.

Lemma dict_set_keys_incl k k' v d :
  In k (dict_keys d) -> In k (dict_keys (dict_set k' v d)).
Proof.
  intros Hin. apply dict_keys_get in Hin as [v0 Hv0].
  destruct (string_dec k k') as [->|Hne].
  - eapply dict_get_some_keys. apply dict_get_set_same.
  - eapply dict_get_some_keys. rewrite dict_get_set_other; eauto.
Qed.

End DictFacts.

(** ** The files on disk *)

Lemma disk_has_remove_same (slug : string) (disk : list string) :
  disk_has slug (disk_remove slug disk) = false.
Proof.
  unfold disk_has, disk_remove.
  induction disk as [|s disk IH]; simpl; [reflexivity|].
  destruct (String.eqb slug s) eqn:E; simpl; [exact IH|].
  now rewrite E.
Qed.

Lemma disk_has_remove_false (slug other : string) (disk : list string) :
  disk_has slug disk = false -> disk_has slug (disk_remove other disk) = false.
Proof.
  unfold disk_has, disk_remove.
  induction disk as [|s disk IH]; simpl; [reflexivity|].
  intros H. apply orb_false_iff in H as [H1 H2].
  destruct (String.eqb other s); simpl; [now apply IH|].
  rewrite H1. now apply IH.
Qed.

Lemma remove_slugs_false (slug : string) (slugs disk : list string) :
  disk_has slug disk = false -> disk_has slug (remove_slugs slugs disk) = false.
Proof.
  revert disk. induction slugs as [|s slugs IH]; simpl; intros disk H;
    [exact H|].
  apply IH. now apply disk_has_remove_false.
Qed.

Lemma remove_slugs_gone (slug : string) (slugs disk : list string) :
  In slug slugs -> disk_has slug (remove_slugs slugs disk) = false.
Proof.
  revert disk. induction slugs as [|s slugs IH]; simpl; intros disk Hin;
    [contradiction|].
  destruct Hin as [->|Hin].
  - apply remove_slugs_false, disk_has_remove_same.
  - now apply IH.
Qed.

(** ** Runs of the handlers on concrete requests *)

Section Runs.
Import TableStore Scenario.

(** C8 (the code departs from the claim): the slug handed to the
    Attachment Store is the reference with every leading character of the
    set [{a,t,c,h,m,e,n,:,/}] stripped, which eats into the slug itself:
    for [attachment://new1] the store is asked to remove [w1]. *)
Theorem cleanup_passes_altered_slug :
  forall (S : Type) (slug : string) (w : world S),
    cleanup_attachments [VStr ("attachment://" ++ slug)] w
    = (Ok tt,
       mkWorld (w_store w)
               (disk_remove (PyStr.lstrip "attachment://" slug) (w_disk w))
               (w_log w ++ [EvRemove (PyStr.lstrip "attachment://" slug)]))
    /\ PyStr.lstrip "attachment://" "new1" = "w1".
Proof. intros S slug w. split; reflexivity. Qed.

(** C1 (the code departs from the claim): the single-record update removes
    the superseded file before the Record Store write; when the write
    fails, the stored record still names [old1] but its file is gone. *)
Theorem edit_failure_loses_old_attachment :
  let run :=
    edit_feature_multipart store alice None "points" 7 (Some point_edit)
      point_upload (start (points false) ["old1"]) in
  fst run = Abort 404 (VStr "update failed")
  /\ fst (TableStore.show (w_store (snd run)) "points" (VInt 7))
     = Some (res_feature
               (mkFeature (VInt 7) [("photo", VStr "attachment://old1")]))
  /\ disk_has "old1" (w_disk (snd run)) = false
  /\ w_log (snd run)
     = [EvSave "file:photo" (Some "new1"); EvShow "points" (VInt 7);
        EvRemove "old1";
        EvUpdate "points" (VInt 7)
          (mkFeature VNone [("photo", VStr "attachment://new1")]) [];
        EvRemove "new1"].
Proof. vm_compute. repeat split; reflexivity. Qed.

(** C4 (the code departs from the claim): in the scenario of the
    specification, the failed update of [children__photo] from [old1] to
    [new1] is answered with the error and [success = false], but the file
    removed is [w1]: [new1] stays on disk. *)
Theorem changed_failure_leaves_new_attachment :
  let run :=
    relations_post store alice None int_of_string "parents" 7
      (Some photo_update) photo_upload
      (start (family "old1" false) ["old1"]) in
  fst run
  = Ok ([("children",
          mkRelOut (Some "parent_id")
            [[("id", VInt 1); ("__status__", VStr "changed");
              ("children__parent_id", VInt 7);
              ("children__photo", VStr "attachment://new1");
              ("error", VStr "update failed");
              ("error_details", VDict [])]])],
        false)
  /\ disk_has "new1" (w_disk (snd run)) = true
  /\ disk_has "old1" (w_disk (snd run)) = true
  /\ filter (fun e => negb (is_store_call e)) (w_log (snd run))
     = [EvSave "file:children__photo__0" (Some "new1"); EvRemove "w1"].
Proof. vm_compute. repeat split; reflexivity. Qed.

(** C10 (the code departs from the claim): a "deleted" record whose
    payload names a property the stored record lacks makes the diff raise
    [KeyError]; the request ends there and the record after it is not
    processed. *)
Theorem deleted_unknown_key_raises :
  let run :=
    relations_post store alice None int_of_string "parents" 7
      (Some delete_with_unknown_key) []
      (start (family "old1" true) ["old1"]) in
  fst run = Raise KeyError
  /\ w_log (snd run) = [EvShow "children" (VInt 1)]
  /\ fst (attachments_diff store alice None "children" (VInt 1)
            (mkFeature (VInt 1) [("parent_id", VInt 7); ("note", VStr "x")])
            [] true (start (family "old1" true) ["old1"]))
     = Raise KeyError.
Proof. vm_compute. repeat split; reflexivity. Qed.

(** C2, as stated, fails: a record whose [__status__] is none of the
    recognised ones is left out of the response. *)
Lemma unknown_status_is_dropped :
  fst (relations_post store alice None int_of_string "parents" 7
         (Some archived_record) [] (start (family "old1" true) ["old1"]))
  = Ok ([("children", mkRelOut (Some "parent_id") [])], true).
Proof. vm_compute. reflexivity. Qed.

(** C3, as stated, fails: a table that no one declared a child of the
    dataset is processed like any other; its record reaches the Record
    Store and the request succeeds. *)
Lemma undeclared_table_is_processed :
  let run :=
    relations_post store alice None int_of_string "parents" 7
      (Some strangers_batch) [] (start (family "old1" true) ["old1"]) in
  (exists out, fst run = Ok (out, true))
  /\ w_log (snd run)
     = [EvCreate "strangers"
          (mkFeature VNone [("name", VStr "a"); ("owner", VInt 7)]) []].
Proof. vm_compute. split; [eexists|]; reflexivity. Qed.

(** C5 (the code departs from the claim): a delete that the Record Store
    refuses is cleaned up on the "new" side of the diff, but with
    [record_deleted] set that side holds the references the payload
    carries, committed ones included. The payload of the delete carries the
    stored photo [attachment://x1]; the delete fails, the record is
    answered with the error and [success = false], it is still stored with
    its photo [attachment://x1], and the file [x1] has been removed. *)
Theorem failed_delete_removes_committed_attachment :
  let run :=
    relations_post store alice None int_of_string "parents" 7
      (Some (children_batch [delete_with_photo])) []
      (start (family "x1" false) ["x1"]) in
  fst run
  = Ok ([("children",
          mkRelOut (Some "parent_id")
            [[("id", VInt 1); ("__status__", VStr "deleted");
              ("children__parent_id", VInt 7);
              ("children__photo", VStr "attachment://x1");
              ("error", VStr "delete failed");
              ("error_details", VDict [])]])],
        false)
  /\ fst (TableStore.show (w_store (snd run)) "children" (VInt 1))
     = Some (res_feature
               (mkFeature (VInt 1)
                  [("parent_id", VInt 7); ("photo", VStr "attachment://x1")]))
  /\ w_log (snd run)
     = [EvShow "children" (VInt 1); EvDestroy "children" (VInt 1);
        EvRemove "x1"]
  /\ disk_has "x1" (w_disk (snd run)) = false.
Proof. vm_compute. repeat split; reflexivity. Qed.

(** The diff looks at the properties the payload carries only: the stored
    record's photo is [attachment://x1], the payload of the delete carries
    no photo property; the delete succeeds and [x1] stays on disk. *)
Lemma delete_keeps_unlisted_attachment :
  let run :=
    relations_post store alice None int_of_string "parents" 7
      (Some delete_without_photo) [] (start (family "x1" true) ["x1"]) in
  fst run = Ok ([("children", mkRelOut (Some "parent_id") [])], true)
  /\ w_log (snd run) = [EvShow "children" (VInt 1); EvDestroy "children" (VInt 1)]
  /\ disk_has "x1" (w_disk (snd run)) = true.
Proof. vm_compute. repeat split; reflexivity. Qed.

(** C9, as stated, fails: with the audit suffix [by] configured, the field
    [photo__by] is replaced from [attachment://a2] to [attachment://b2],
    yet [attachment://b2] is not among the new references: handling
    [photo] has overwritten the incoming [photo__by] with the user. *)
Lemma audit_field_hides_new_reference :
  exists d w,
    attachments_diff store alice (Some "by") "children" (VInt 1)
      audited_edit [] false (start audited_family []) = (Ok d, w)
    /\ dict_get "photo__by" (f_props audited_edit)
       = Some (VStr "attachment://b2")
    /\ fst (TableStore.show audited_family "children" (VInt 1))
       = Some (res_feature
                 (mkFeature (VInt 1)
                    [("photo", VStr "attachment://a1");
                     ("photo__by", VStr "attachment://a2")]))
    /\ ~ In (VStr "attachment://b2") (newattachments d).
Proof.
  eexists. eexists. split; [vm_compute; reflexivity|].
  split; [reflexivity|]. split; [reflexivity|].
  simpl. intros [H|[]]. discriminate H.
Qed.

End Runs.

(** ** The monad *)

Section MonadFacts.
Context {S : Type}.

Lemma bind_ok_inv {A B} (m : M S A) (k : A -> M S B) (w w' : world S) (b : B) :
  bind m k w = (Ok b, w') ->
  exists a w1, m w = (Ok a, w1) /\ k a w1 = (Ok b, w').
Proof.
  unfold bind. destruct (m w) as [[a|c msg|e] w1]; intros H.
  - now exists a, w1.
  - discriminate H.
  - discriminate H.
Qed.

Lemma bind_ok {A B} (m : M S A) (k : A -> M S B) (w w1 : world S) (a : A) :
  m w = (Ok a, w1) -> bind m k w = k a w1.
Proof. unfold bind. now intros ->. Qed.

Lemma bind_abort {A B} (m : M S A) (k : A -> M S B) (w w1 : world S) c msg :
  m w = (Abort c msg, w1) -> bind m k w = (Abort c msg, w1).
Proof. unfold bind. now intros ->. Qed.

Lemma bind_raise {A B} (m : M S A) (k : A -> M S B) (w w1 : world S) e :
  m w = (Raise e, w1) -> bind m k w = (Raise e, w1).
Proof. unfold bind. now intros ->. Qed.

End MonadFacts.

(** ** The loop of [Relations.post] *)

Section BatchFacts.
Context {S : Type}.
Variable RS : RecordStore S.
Variable user : value.
Variable sfx : option string.

(** The loop over the records only appends to the output and only raises
    the error flag. *)
Lemma process_records_grows id t fk internal records :
  forall out h w out' h' w',
    process_records RS user sfx id t fk internal records out h w
    = (Ok (out', h'), w') ->
    (exists extra, out' = (out ++ extra)%list) /\ (h = true -> h' = true).
Proof.
  induction records as [|r records IH]; intros out h w out' h' w' H.
  - injection H as <- <- <-. split; [exists []; now rewrite app_nil_r | auto].
  - cbn [process_records] in H.
    apply bind_ok_inv in H as ([o e] & w1 & _ & H).
    apply IH in H as [[extra ->] Hh]. split.
    + destruct o as [o|]; cbn [fst].
      * exists (o :: extra). now rewrite <- app_assoc.
      * now exists extra.
    + intros ->. apply Hh. cbn [snd]. apply orb_true_r.
Qed.

Lemma process_tables_flag id internal tables :
  forall out h w out' h' w',
    process_tables RS user sfx id internal tables out h w
    = (Ok (out', h'), w') ->
    h = true -> h' = true.
Proof.
  induction tables as [|[t rd] tables IH]; intros out h w out' h' w' H Hh.
  - injection H as <- <- <-. exact Hh.
  - cbn [process_tables] in H.
    apply bind_ok_inv in H as ([o e] & w1 & H1 & H).
    apply IH in H; [exact H|].
    apply process_records_grows in H1 as [_ H1]. cbn [snd]. auto.
Qed.

(** A record that fails the foreign-key test is reported with the mark and
    nothing else happens. *)
Lemma process_record_rejected id t fk internal r (w : world S) :
  py_eq (status_of r) (VStr "new") = false ->
  py_eq (fk_of ((t ++ "__") ++ fk) r) (VInt id) = false ->
  process_record RS user sfx id t (Some fk) internal r w
  = (Ok (Some (dict_set "__error__" (VStr "FK validation failed") r), true), w).
Proof.
  intros Hs Hfk. unfold process_record, force_fk. rewrite Hs, Hfk. reflexivity.
Qed.

Lemma rejected_in_records id t fk internal r records :
  py_eq (status_of r) (VStr "new") = false ->
  py_eq (fk_of ((t ++ "__") ++ fk) r) (VInt id) = false ->
  In r records ->
  forall out h w out' h' w',
    process_records RS user sfx id t (Some fk) internal records out h w
    = (Ok (out', h'), w') ->
    In (dict_set "__error__" (VStr "FK validation failed") r) out'
    /\ h' = true.
Proof.
  intros Hs Hfk. induction records as [|r0 records IH]; intros Hin;
    [contradiction|].
  intros out h w out' h' w' H. cbn [process_records] in H.
  destruct Hin as [->|Hin].
  - erewrite bind_ok in H by (now apply process_record_rejected).
    cbn [fst snd] in H.
    apply process_records_grows in H as [[extra ->] Hh]. split.
    + apply in_or_app. left. apply in_or_app. right. now left.
    + now apply Hh.
  - apply bind_ok_inv in H as (o & w1 & _ & H). eapply IH; eauto.
Qed.

Lemma rejected_in_tables id t fk internal r records rd tables :
  py_eq (status_of r) (VStr "new") = false ->
  py_eq (fk_of ((t ++ "__") ++ fk) r) (VInt id) = false ->
  In r records -> rd_fk rd = Some fk -> rd_records rd = Some records ->
  In (t, rd) tables ->
  forall out h w out' h' w',
    process_tables RS user sfx id internal tables out h w
    = (Ok (out', h'), w') ->
    h' = true.
Proof.
  intros Hs Hfk Hin Hrfk Hrec.
  induction tables as [|[t0 rd0] tables IH]; intros Ht; [contradiction|].
  intros out h w out' h' w' H. cbn [process_tables] in H.
  apply bind_ok_inv in H as ([o e] & w1 & H1 & H).
  destruct Ht as [Heq|Ht].
  - injection Heq as -> ->. rewrite Hrfk, Hrec in H1.
    eapply rejected_in_records in H1 as [_ ->]; eauto.
    eapply process_tables_flag; eauto.
  - eapply IH; eauto.
Qed.

End BatchFacts.

(** ** The canonical record built from a relation record *)

Lemma dict_set_keys_nodup {A} (k : string) (v : A) (d : dict A) :
  NoDup (dict_keys d) -> NoDup (dict_keys (dict_set k v d)).
Proof.
  induction d as [|[k' v'] d IH]; simpl; intros H.
  - constructor; [intros [] | constructor].
  - inversion H as [|? ? Hn Hd]; subst.
    destruct (String.eqb k k') eqn:E; simpl.
    + apply String.eqb_eq in E. subst. now constructor.
    + constructor; [|now apply IH].
      intros Hin. apply Hn.
      destruct (in_dec string_dec k (dict_keys d)) as [Hk|Hk].
      * apply dict_keys_get in Hin as [x Hx].
        apply String.eqb_neq in E.
        rewrite dict_get_set_other in Hx by congruence.
        now apply dict_get_some_keys in Hx.
      * rewrite (dict_set_fresh k v d Hk) in Hin.
        unfold dict_keys in Hin. rewrite map_app in Hin.
        apply in_app_or in Hin as [Hin|[Hin|[]]]; [exact Hin|].
        simpl in Hin. apply String.eqb_neq in E. congruence.
Qed.

Section EntryFacts.
Variable p : string.

Lemma entry_fold_other (k : string) (r : record) :
  forall acc,
    ~ In (p ++ k) (dict_keys r) ->
    dict_get k (fold_left (entry_step p) r acc) = dict_get k acc.
Proof.
  induction r as [|[k0 v0] r IH]; intros acc Hn; [reflexivity|].
  simpl in Hn. simpl. rewrite IH by tauto.
  unfold entry_step; simpl. destruct (PyStr.startswith p k0) eqn:E; [|reflexivity].
  apply dict_get_set_other. intros ->.
  apply startswith_split in E. tauto.
Qed.

Lemma entry_fold_get (k : string) (v : value) (r : record) :
  forall acc,
    NoDup (dict_keys r) ->
    dict_get (p ++ k) r = Some v ->
    dict_get k (fold_left (entry_step p) r acc) = Some v.
Proof.
  induction r as [|[k0 v0] r IH]; intros acc Hnd Hget; [discriminate Hget|].
  simpl in Hnd. inversion Hnd as [|? ? Hn Hd]; subst.
  simpl in Hget. simpl.
  destruct (String.eqb (p ++ k) k0) eqn:E.
  - apply String.eqb_eq in E. subst k0. injection Hget as ->.
    rewrite entry_fold_other by exact Hn.
    unfold entry_step; simpl. rewrite startswith_app, drop_app.
    apply dict_get_set_same.
  - now apply IH.
Qed.

(** A property [p ++ k] of the relation record is the property [k] of the
    canonical record. *)
Lemma entry_properties_get (k : string) (v : value) (r : record) :
  NoDup (dict_keys r) ->
  dict_get (p ++ k) r = Some v ->
  dict_get k (entry_properties p r) = Some v.
Proof. intros Hnd Hget. now apply entry_fold_get. Qed.

End EntryFacts.

(** ** Foreign keys *)

Section ForeignKey.
Context {S : Type}.
Variable RS : RecordStore S.
Variable user : value.
Variable sfx : option string.

Lemma status_new_inv (r : record) :
  py_eq (status_of r) (VStr "new") = true ->
  dict_get "__status__" r = Some (VStr "new").
Proof.
  unfold status_of. destruct (dict_get "__status__" r) as [v|]; simpl.
  - destruct v as [|b|z|s|d]; try discriminate.
    intros H. apply String.eqb_eq in H. now subst.
  - discriminate.
Qed.

(** C6: a record marked "new" has its foreign key set to the parent id
    before the test, so it passes the test and goes on to be applied (to
    the Record Store's create, with the parent id as its foreign key);
    every other record whose foreign key differs from the parent id is
    answered with the mark [__error__] on the otherwise unchanged record,
    raises the error flag of the batch, so that [success] is false, and
    leaves the world as it was: nothing is sent to the Record Store. *)
Theorem foreign_key_forced_or_validated :
  forall (id : Z) (t fk : string) (internal : list string) (r : record)
         (w : world S),
    let fk_key := (t ++ "__") ++ fk in
    let marked := dict_set "__error__" (VStr "FK validation failed") r in
    (py_eq (status_of r) (VStr "new") = true ->
       let forced := dict_set fk_key (VInt id) r in
       fk_of fk_key forced = VInt id
       /\ process_record RS user sfx id t (Some fk) internal r w
          = apply_edit RS user sfx t internal forced w
       /\ (NoDup (dict_keys r) -> fk_key <> "__status__" ->
           exists entry,
             dict_get fk (f_props entry) = Some (VInt id)
             /\ process_record RS user sfx id t (Some fk) internal r w
                = (res <- create RS t entry (table_internal (t ++ "__") internal) ;;
                   ret (report t forced (table_internal (t ++ "__") internal) res))
                    w))
    /\
    (py_eq (status_of r) (VStr "new") = false ->
     py_eq (fk_of fk_key r) (VInt id) = false ->
       process_record RS user sfx id t (Some fk) internal r w
       = (Ok (Some marked, true), w)
       /\ (forall records out h w0 out' h' w',
             In r records ->
             process_records RS user sfx id t (Some fk) internal records out h w0
             = (Ok (out', h'), w') ->
             In marked out' /\ h' = true)
       /\ (forall py_int dataset p rd records w0 out success w',
             In (t, rd) p -> rd_fk rd = Some fk ->
             rd_records rd = Some records -> In r records ->
             relations_post RS user sfx py_int dataset id (Some p) [] w0
             = (Ok (out, success), w') ->
             success = false)).
Proof.
  intros id t fk internal r w fk_key marked. split.
  - intros Hnew forced.
    assert (Hfk : fk_of fk_key forced = VInt id).
    { unfold fk_of, forced. now rewrite dict_get_set_same. }
    assert (Hrun : process_record RS user sfx id t (Some fk) internal r w
                   = apply_edit RS user sfx t internal forced w).
    { unfold process_record, force_fk. rewrite Hnew. fold fk_key. fold forced.
      rewrite Hfk. simpl. now rewrite Z.eqb_refl. }
    split; [exact Hfk|]. split; [exact Hrun|].
    intros Hnd Hne.
    exists (mkFeature (match dict_get "id" forced with
                       | Some v => v
                       | None => VNone
                       end)
                      (entry_properties (t ++ "__") forced)).
    split.
    + cbn [f_props]. apply entry_properties_get.
      * now apply dict_set_keys_nodup.
      * apply dict_get_set_same.
    + rewrite Hrun. unfold apply_edit.
      apply status_new_inv in Hnew.
      assert (Hst : dict_get "__status__" forced = Some (VStr "new")).
      { unfold forced. rewrite dict_get_set_other by congruence. exact Hnew. }
      rewrite Hst. reflexivity.
  - intros Hs Hfk. split; [now apply process_record_rejected|]. split.
    + intros records out h w0 out' h' w' Hin H.
      eapply rejected_in_records; eauto.
    + intros py_int dataset p rd records w0 out success w' Hp Hrfk Hrec Hin H.
      unfold relations_post in H.
      apply bind_ok_inv in H as (editable & w1 & _ & H).
      destruct (negb editable); [discriminate H|].
      cbn [validate_attachments save_attachments] in H.
      apply bind_ok_inv in H as (u & w2 & _ & H).
      apply bind_ok_inv in H as (saved & w3 & Hsaved & H).
      injection Hsaved as <- <-.
      apply bind_ok_inv in H as ([o h] & w4 & H1 & H).
      injection H as <- <- <-. cbn [snd].
      eapply rejected_in_tables in H1; eauto. now rewrite H1.
Qed.

End ForeignKey.

(** ** Saving the uploaded files *)

Section SaveFacts.
Context {S : Type}.

Lemma remove_all_run (slugs : list string) (w : world S) :
  remove_all slugs w
  = (Ok tt,
     mkWorld (w_store w) (remove_slugs slugs (w_disk w))
             (w_log w ++ map EvRemove slugs)).
Proof.
  revert w. induction slugs as [|s slugs IH]; intros w.
  - simpl. unfold ret. rewrite app_nil_r. now destruct w.
  - cbn [remove_all]. unfold bind at 1. cbn [remove_attachment].
    rewrite IH. cbn. now rewrite <- app_assoc.
Qed.

Lemma validate_attachments_run (files : dict filedata) (w : world S) :
  validate_attachments files w = (Ok tt, w)
  \/ exists key,
       validate_attachments files w
       = (Abort 404 (VStr ("Attachment validation failed: " ++ key)), w).
Proof.
  induction files as [|[key fd] files IH]; simpl.
  - now left.
  - destruct (validate_attachment fd); [exact IH|].
    right. now exists key.
Qed.

Lemma saved_values (files : dict filedata) :
  forall saved,
    NoDup (dict_keys files) ->
    (forall k, In k (dict_keys files) -> ~ In k (dict_keys saved)) ->
    dict_values (fold_left record_saved files saved)
    = (dict_values saved ++ saved_slugs files)%list.
Proof.
  induction files as [|[k fd] files IH]; intros saved Hnd Hdis.
  - simpl. now rewrite app_nil_r.
  - simpl in Hnd. inversion Hnd as [|? ? Hn Hd]; subst.
    cbn [fold_left saved_slugs flat_map].
    unfold record_saved at 2. cbn [fst snd].
    destruct (slug_truthy (fd_slug fd)) as [s|].
    + rewrite dict_set_fresh by (apply Hdis; now left).
      rewrite IH.
      * unfold dict_values. rewrite map_app. simpl.
        now rewrite <- app_assoc.
      * exact Hd.
      * intros k' Hk' Hin. unfold dict_keys in Hin. rewrite map_app in Hin.
        apply in_app_or in Hin as [Hin|[Hin|[]]].
        -- apply (Hdis k'); [now right | exact Hin].
        -- simpl in Hin. subst k'. contradiction.
    + simpl. apply IH; [exact Hd|].
      intros k' Hk'. apply Hdis. now right.
Qed.

Section Loop.
Context {St : Type}.
Variable bind_ref : string -> string -> St -> outcome St.
Hypothesis bind_ref_no_abort :
  forall k s st c m, bind_ref k s st <> Abort c m.

(** What a run of the save loop leaves behind, by the way it ends. *)
Lemma save_attachments_run (files : dict filedata) :
  forall saved st (w : world S) o w',
    save_attachments bind_ref files saved st w = (o, w') ->
    w_store w' = w_store w
    /\ match o with
       | Ok _ =>
           Forall save_ok files
           /\ w_log w' = (w_log w ++ map save_event files)%list
       | Raise _ =>
           exists pre post,
             files = (pre ++ post)%list /\ Forall save_ok pre
             /\ w_log w' = (w_log w ++ map save_event pre)%list
       | Abort c m =>
           exists pre key fd post,
             files = (pre ++ (key, fd) :: post)%list
             /\ Forall save_ok pre
             /\ slug_truthy (fd_slug fd) = None
             /\ c = 404
             /\ m = VStr ("Failed to save attachment: " ++ key)
             /\ w_log w'
                = (w_log w ++ map save_event pre ++ [EvSave key (fd_slug fd)]
                     ++ map EvRemove
                          (dict_values (fold_left record_saved pre saved)))%list
             /\ w_disk w'
                = remove_slugs
                    (dict_values (fold_left record_saved pre saved))
                    (match fd_slug fd with
                     | Some s => disk_add s
                     | None => fun d => d
                     end
                       (fold_left
                          (fun d kf => match fd_slug (snd kf) with
                                       | Some s => disk_add s d
                                       | None => d
                                       end) pre (w_disk w)))
       end.
Proof.
  induction files as [|[key fd] files IH]; intros saved st w o w' H.
  - injection H as <- <-. split; [reflexivity|]. split; [constructor|].
    simpl. now rewrite app_nil_r.
  - cbn [save_attachments] in H. unfold bind at 1 in H.
    cbn [save_attachment] in H.
    destruct (slug_truthy (fd_slug fd)) as [slug|] eqn:Hslug.
    + unfold bind at 1, lift in H.
      assert (Hok : save_ok (key, fd)).
      { unfold save_ok. cbn [snd]. congruence. }
      destruct (bind_ref key slug st) as [st1|c m|e] eqn:Hb.
      * apply IH in H as [Hst H]. split; [exact Hst|].
        destruct o as [a|c m|e].
        -- destruct H as [Hall Hlog]. split; [now constructor|].
           rewrite Hlog. cbn. now rewrite <- app_assoc.
        -- destruct H as (pre & key' & fd' & post & -> & Hall & Hf & -> & -> & Hlog & Hdisk).
           exists ((key, fd) :: pre), key', fd', post.
           split; [reflexivity|]. split; [now constructor|].
           split; [exact Hf|]. split; [reflexivity|]. split; [reflexivity|].
           cbn [fold_left]. unfold record_saved at 2 4. cbn [fst snd].
           rewrite Hslug. split.
           ++ rewrite Hlog. cbn. now rewrite <- app_assoc.
           ++ rewrite Hdisk. reflexivity.
        -- destruct H as (pre & post & -> & Hall & Hlog).
           exists ((key, fd) :: pre), post.
           split; [reflexivity|]. split; [now constructor|].
           rewrite Hlog. cbn. now rewrite <- app_assoc.
      * now elim (bind_ref_no_abort key slug st c m).
      * injection H as <- <-. split; [reflexivity|].
        exists [(key, fd)], files. split; [reflexivity|].
        split; [now constructor|]. reflexivity.
    + unfold bind at 1 in H. rewrite remove_all_run in H.
      injection H as <- <-. split; [reflexivity|].
      exists [], key, fd, files.
      split; [reflexivity|]. split; [constructor|].
      split; [exact Hslug|]. split; [reflexivity|]. split; [reflexivity|].
      cbn. split.
      -- now rewrite <- app_assoc.
      -- destruct (fd_slug fd); reflexivity.
Qed.

End Loop.

End SaveFacts.

Section SaveFailure.
Context {S : Type}.
Variable RS : RecordStore S.
Variable user : value.
Variable sfx : option string.
Variable py_int : string -> option Z.

Lemma log_unchanged (w : world S) (evs : list event) :
  w_log w = (w_log w ++ evs)%list -> evs = [].
Proof.
  intros H. rewrite <- (app_nil_r (w_log w)) in H at 1.
  now apply app_inv_head in H.
Qed.

Lemma failed_save_not_ok (pre : dict filedata) key fd :
  Forall save_ok pre -> slug_truthy (fd_slug fd) = None ->
  ~ In (EvSave key (fd_slug fd)) (map save_event pre).
Proof.
  intros Hall Hf Hin. apply in_map_iff in Hin as ([k' fd'] & Heq & Hin).
  rewrite Forall_forall in Hall. apply Hall in Hin.
  unfold save_event in Heq. cbn [fst snd] in Heq. injection Heq as _ Heq.
  unfold save_ok in Hin. cbn [snd] in Hin. congruence.
Qed.

(** The part the three handlers share: validation, then the save loop. *)
Lemma failed_save_front {St A : Type}
    (bind_ref : string -> string -> St -> outcome St)
    (rest : dict string * St -> M S A) (files : dict filedata) (st : St)
    (key : string) (fd : filedata) (w w' : world S) (o : outcome A)
    (evs : list event) :
  (forall k s st c m, bind_ref k s st <> Abort c m) ->
  NoDup (dict_keys files) ->
  In (key, fd) files ->
  slug_truthy (fd_slug fd) = None ->
  (validate_attachments files ;;;
   saved <- save_attachments bind_ref files [] st ;; rest saved) w = (o, w') ->
  w_log w' = (w_log w ++ evs)%list ->
  In (EvSave key (fd_slug fd)) evs ->
  o = Abort 404 (VStr ("Failed to save attachment: " ++ key))
  /\ rolled_back files key w w'.
Proof.
  intros Hna Hnd Hin Hf Hrun Hlog Hev.
  destruct (validate_attachments_run files w) as [Hv|[k Hv]].
  - rewrite (bind_ok _ _ _ _ _ Hv) in Hrun. unfold bind in Hrun.
    destruct (save_attachments bind_ref files [] st w) as [o1 w1] eqn:Hsave.
    apply (save_attachments_run bind_ref Hna) in Hsave as [Hst Hsave].
    destruct o1 as [a|c m|e].
    + destruct Hsave as [Hall _]. rewrite Forall_forall in Hall.
      apply Hall in Hin. unfold save_ok in Hin. cbn [snd] in Hin. contradiction.
    + injection Hrun as <- <-.
      destruct Hsave as (pre & key' & fd' & post & Hfiles & Hall & Hf' & -> & -> & Hlog' & Hdisk).
      assert (Hvals : dict_values (fold_left record_saved pre []) = saved_slugs pre).
      { rewrite saved_values; [reflexivity| |intros ? ? []].
        rewrite Hfiles in Hnd. unfold dict_keys in Hnd. rewrite map_app in Hnd.
        now apply NoDup_app_remove_r in Hnd. }
      rewrite Hvals in Hlog', Hdisk.
      rewrite Hlog' in Hlog. apply app_inv_head in Hlog. subst evs.
      apply in_app_or in Hev as [Hev|Hev];
        [now apply failed_save_not_ok in Hev|].
      apply in_app_or in Hev as [[Hev|[]]|Hev].
      * injection Hev as -> Hslug.
        split; [reflexivity|]. exists pre, fd', post.
        repeat split; try assumption.
        intros s Hs. rewrite Hdisk. now apply remove_slugs_gone.
      * apply in_map_iff in Hev as (x & Hx & _). discriminate Hx.
    + injection Hrun as <- <-.
      destruct Hsave as (pre & post & Hfiles & Hall & Hlog').
      rewrite Hlog' in Hlog. apply app_inv_head in Hlog. subst evs.
      now apply failed_save_not_ok in Hev.
  - rewrite (bind_abort _ _ _ _ _ _ Hv) in Hrun. injection Hrun as <- <-.
    apply log_unchanged in Hlog. subst evs. contradiction.
Qed.

Lemma set_record_field_no_abort p table index k v c m :
  set_record_field py_int p table index k v <> Abort c m.
Proof.
  unfold set_record_field.
  destruct (dict_get table p) as [rd|]; [|discriminate].
  destruct (rd_records rd) as [recs|]; [|discriminate].
  destruct (py_int index) as [i|]; [|discriminate].
  destruct (py_index recs i) as [n|]; [|discriminate].
  destruct (nth_error recs n); discriminate.
Qed.

Lemma bind_relation_upload_no_abort k s st c m :
  bind_relation_upload user sfx py_int k s st <> Abort c m.
Proof.
  unfold bind_relation_upload. destruct st as [p internal].
  destruct (nth_error _ 0); [|discriminate].
  destruct (nth_error _ 1); [|discriminate].
  destruct (nth_error _ 2); [|discriminate].
  match goal with
  | |- context [set_record_field py_int ?a ?b ?c ?d ?e] =>
      pose proof (set_record_field_no_abort a b c d e) as H1;
      destruct (set_record_field py_int a b c d e) as [p1|c1 m1|e1]
  end; [| now elim (H1 c1 m1) | discriminate].
  destruct (suffix_truthy sfx); [|discriminate].
  match goal with
  | |- context [set_record_field py_int ?a ?b ?c ?d ?e] =>
      pose proof (set_record_field_no_abort a b c d e) as H2;
      destruct (set_record_field py_int a b c d e) as [p2|c2 m2|e2]
  end; [discriminate | now elim (H2 c2 m2) | discriminate].
Qed.

Lemma bind_feature_upload_no_abort k s st c m :
  bind_feature_upload user sfx k s st <> Abort c m.
Proof.
  unfold bind_feature_upload. destruct st as [feat internal].
  destruct (suffix_truthy sfx); discriminate.
Qed.

Lemma filter_is_save_saves (files : dict filedata) :
  filter is_save (map save_event files) = map save_event files.
Proof.
  induction files as [|kf files IH]; [reflexivity|].
  simpl. now rewrite IH.
Qed.

Lemma filter_is_save_removes (slugs : list string) :
  filter is_save (map EvRemove slugs) = [].
Proof. induction slugs as [|x slugs IH]; [reflexivity|exact IH]. Qed.

(** However the save loop ends, its calls to [save_attachment] are those of
    the first files of the request, one per file, in the order of the
    request. *)
Lemma saves_in_order {St : Type}
    (bind_ref : string -> string -> St -> outcome St)
    (files : dict filedata) (saved : dict string) (st : St)
    (w w' : world S) (o : outcome (dict string * St)) (evs : list event) :
  (forall k s st c m, bind_ref k s st <> Abort c m) ->
  save_attachments bind_ref files saved st w = (o, w') ->
  w_log w' = (w_log w ++ evs)%list ->
  exists n, filter is_save evs = map save_event (firstn n files).
Proof.
  intros Hna H Hlog.
  apply (save_attachments_run bind_ref Hna) in H as [_ H].
  destruct o as [a|c m|e].
  - destruct H as [_ Hlog']. rewrite Hlog' in Hlog.
    apply app_inv_head in Hlog. subst evs.
    exists (length files). now rewrite firstn_all, filter_is_save_saves.
  - destruct H as (pre & key & fd & post & -> & _ & _ & _ & _ & Hlog' & _).
    rewrite Hlog' in Hlog. apply app_inv_head in Hlog. subst evs.
    exists (length pre + 1)%nat.
    rewrite firstn_app_2. cbn [firstn].
    rewrite !filter_app, filter_is_save_saves, filter_is_save_removes.
    rewrite map_app. reflexivity.
  - destruct H as (pre & post & -> & _ & Hlog').
    rewrite Hlog' in Hlog. apply app_inv_head in Hlog. subst evs.
    exists (length pre + 0)%nat.
    rewrite firstn_app_2. cbn [firstn].
    now rewrite app_nil_r, filter_is_save_saves.
Qed.

(** C7: the save loops of the multipart handlers call [save_attachment] on
    the files one at a time in the order of the request. In each of the
    three handlers, when the save of an uploaded file fails, the request
    ends with the error naming that file; the files before it had been
    saved, every slug saved in the call has been removed again and is not
    on disk, and the log holds nothing but these saves and removals: the
    Record Store is not called. *)
Theorem failed_save_rolls_back :
  forall (files : dict filedata),
    NoDup (dict_keys files) ->
    (forall p (w w' : world S) o evs,
        save_attachments (bind_relation_upload user sfx py_int) files []
          (p, []) w = (o, w') ->
        w_log w' = (w_log w ++ evs)%list ->
        exists n, filter is_save evs = map save_event (firstn n files))
    /\ (forall feat (w w' : world S) o evs,
        save_attachments (bind_feature_upload user sfx) files []
          (feat, []) w = (o, w') ->
        w_log w' = (w_log w ++ evs)%list ->
        exists n, filter is_save evs = map save_event (firstn n files))
    /\
    forall (key : string) (fd : filedata),
    In (key, fd) files ->
    slug_truthy (fd_slug fd) = None ->
    (forall dataset id values (w w' : world S) o evs,
        relations_post RS user sfx py_int dataset id values files w = (o, w') ->
        w_log w' = (w_log w ++ evs)%list ->
        In (EvSave key (fd_slug fd)) evs ->
        o = Abort 404 (VStr ("Failed to save attachment: " ++ key))
        /\ rolled_back files key w w'
        /\ forallb (fun e => negb (is_store_call e)) evs = true)
    /\ (forall dataset feat (w w' : world S) o evs,
        create_feature_multipart RS user sfx dataset feat files w = (o, w') ->
        w_log w' = (w_log w ++ evs)%list ->
        In (EvSave key (fd_slug fd)) evs ->
        o = Abort 404 (VStr ("Failed to save attachment: " ++ key))
        /\ rolled_back files key w w'
        /\ forallb (fun e => negb (is_store_call e)) evs = true)
    /\ (forall dataset id feat (w w' : world S) o evs,
        edit_feature_multipart RS user sfx dataset id feat files w = (o, w') ->
        w_log w' = (w_log w ++ evs)%list ->
        In (EvSave key (fd_slug fd)) evs ->
        o = Abort 404 (VStr ("Failed to save attachment: " ++ key))
        /\ rolled_back files key w w'
        /\ forallb (fun e => negb (is_store_call e)) evs = true).
Proof.
  intros files Hnd.
  split; [|split].
  { intros p w w' o evs Hrun Hlog.
    exact (saves_in_order _ files [] (p, []) w w' o evs
             bind_relation_upload_no_abort Hrun Hlog). }
  { intros feat w w' o evs Hrun Hlog.
    exact (saves_in_order _ files [] (feat, []) w w' o evs
             bind_feature_upload_no_abort Hrun Hlog). }
  intros key fd Hin Hf.
  assert (Hquiet : forall (w w' : world S) evs,
             rolled_back files key w w' ->
             w_log w' = (w_log w ++ evs)%list ->
             forallb (fun e => negb (is_store_call e)) evs = true).
  { intros w w' evs (pre & fd' & post & _ & _ & _ & Hlog' & _) Hlog.
    rewrite Hlog' in Hlog. apply app_inv_head in Hlog. subst evs.
    rewrite !forallb_app. rewrite !andb_true_iff. repeat split.
    - apply forallb_forall. intros e He.
      apply in_map_iff in He as (x & <- & _). reflexivity.
    - apply forallb_forall. intros e He.
      apply in_map_iff in He as (x & <- & _). reflexivity. }
  split; [|split].
  - intros dataset id values w w' o evs Hrun Hlog Hev.
    assert (H : o = Abort 404 (VStr ("Failed to save attachment: " ++ key))
                /\ rolled_back files key w w').
    { unfold relations_post in Hrun. destruct values as [p|].
      - unfold bind at 1, is_editable in Hrun.
        destruct (negb _).
        + injection Hrun as <- <-. apply log_unchanged in Hlog. subst evs.
          contradiction.
        + eapply (failed_save_front _ _ files _ key fd w w' o evs);
            [apply bind_relation_upload_no_abort | exact Hnd | exact Hin
            | exact Hf | exact Hrun | exact Hlog | exact Hev].
      - injection Hrun as <- <-. apply log_unchanged in Hlog. subst evs.
        contradiction. }
    destruct H as [Ho Hrb]. eauto.
  - intros dataset feat w w' o evs Hrun Hlog Hev.
    assert (H : o = Abort 404 (VStr ("Failed to save attachment: " ++ key))
                /\ rolled_back files key w w').
    { unfold create_feature_multipart in Hrun. destruct feat as [feat|].
      - eapply (failed_save_front _ _ files _ key fd w w' o evs);
          [apply bind_feature_upload_no_abort | exact Hnd | exact Hin
          | exact Hf | exact Hrun | exact Hlog | exact Hev].
      - injection Hrun as <- <-. apply log_unchanged in Hlog. subst evs.
        contradiction. }
    destruct H as [Ho Hrb]. eauto.
  - intros dataset id feat w w' o evs Hrun Hlog Hev.
    assert (H : o = Abort 404 (VStr ("Failed to save attachment: " ++ key))
                /\ rolled_back files key w w').
    { unfold edit_feature_multipart in Hrun. destruct feat as [feat|].
      - eapply (failed_save_front _ _ files _ key fd w w' o evs);
          [apply bind_feature_upload_no_abort | exact Hnd | exact Hin
          | exact Hf | exact Hrun | exact Hlog | exact Hev].
      - injection Hrun as <- <-. apply log_unchanged in Hlog. subst evs.
        contradiction. }
    destruct H as [Ho Hrb]. eauto.
Qed.

End SaveFailure.

(** ** The attachment diff *)

Ltac break_in H :=
  repeat match type of H with
         | context [match ?x with _ => _ end] =>
             let E := fresh "E" in destruct x eqn:E; try discriminate H
         | context [if ?x then _ else _] =>
             let E := fresh "E" in destruct x eqn:E; try discriminate H
         end.

Lemma append_not_self (k x : string) : x <> EmptyString -> k <> k ++ x.
Proof.
  intros Hx. induction k as [|c k IH]; simpl.
  - congruence.
  - intros H. injection H as H. now apply IH.
Qed.

Lemma audit_field_differs (k s : string) : k <> k ++ "__" ++ s.
Proof. apply append_not_self. discriminate. Qed.

Section DiffFacts.
Variable user : value.
Variable sfx : option string.
Variable prev_props : dict value.

(** One step of the loop only adds to the two lists and to the keys of the
    incoming properties. *)
Lemma diff_key_grows rd k st st1 :
  diff_key user sfx prev_props rd k st = Ok st1 ->
  incl (oldattachments st) (oldattachments st1)
  /\ incl (newattachments st) (newattachments st1)
  /\ (forall k', In k' (dict_keys (df_props st)) ->
                 In k' (dict_keys (df_props st1))).
Proof.
  unfold diff_key. intros H. break_in H;
    try (injection H as <-); cbn;
    repeat split;
    try apply incl_refl; try (apply incl_appl, incl_refl);
    try (intros k' Hk'; try apply dict_set_keys_incl; exact Hk').
Qed.

(** A step changes the incoming properties at the audit field of its key
    at most. *)
Lemma diff_key_frame rd k st st1 f :
  diff_key user sfx prev_props rd k st = Ok st1 ->
  (forall s, suffix_truthy sfx = Some s -> f <> k ++ "__" ++ s) ->
  dict_get f (df_props st1) = dict_get f (df_props st).
Proof.
  unfold diff_key. intros H Hf. break_in H;
    try (injection H as <-); cbn; try reflexivity;
    apply dict_get_set_other; now apply Hf.
Qed.

(** With [record_deleted] unset a step cannot raise. *)
Lemma diff_key_total k st :
  In k (dict_keys (df_props st)) ->
  exists st1, diff_key user sfx prev_props false k st = Ok st1.
Proof.
  intros Hk. apply dict_keys_get in Hk as [fv Hfv].
  unfold diff_key, diff_test. rewrite Hfv.
  destruct (dict_get k prev_props) as [pv|] eqn:Hpv; [|eauto].
  rewrite orb_false_r. destruct (negb (py_eq fv pv)); [|eauto].
  destruct (is_attachment pv).
  - destruct (suffix_truthy sfx) as [s|]; cbn [df_props].
    + rewrite dict_get_set_other by apply audit_field_differs.
      rewrite Hfv. destruct (is_attachment fv); eauto.
    + rewrite Hfv. destruct (is_attachment fv); eauto.
  - rewrite Hfv. destruct (is_attachment fv); eauto.
Qed.

Lemma diff_keys_grows rd keys :
  forall st st1,
    diff_keys user sfx prev_props rd keys st = Ok st1 ->
    incl (oldattachments st) (oldattachments st1)
    /\ incl (newattachments st) (newattachments st1).
Proof.
  induction keys as [|k keys IH]; intros st st1 H.
  - injection H as <-. split; apply incl_refl.
  - cbn [diff_keys] in H.
    destruct (diff_key user sfx prev_props rd k st) as [st0| |] eqn:E;
      try discriminate H.
    apply diff_key_grows in E as (Ho & Hn & _).
    apply IH in H as [Ho' Hn'].
    split; eapply incl_tran; eauto.
Qed.

Lemma diff_keys_total keys :
  forall st,
    (forall k, In k keys -> In k (dict_keys (df_props st))) ->
    exists st1, diff_keys user sfx prev_props false keys st = Ok st1.
Proof.
  induction keys as [|k keys IH]; intros st Hk; [now exists st|].
  cbn [diff_keys].
  destruct (diff_key_total k st) as [st0 E]; [apply Hk; now left|].
  rewrite E. apply IH. intros k' Hk'.
  apply diff_key_grows in E as (_ & _ & Hkeys). apply Hkeys, Hk. now right.
Qed.

(** A record compared with itself: nothing is collected, nothing is
    changed. *)
Lemma diff_keys_same keys st :
  df_props st = prev_props ->
  (forall k, In k keys -> In k (dict_keys prev_props)) ->
  diff_keys user sfx prev_props false keys st = Ok st.
Proof.
  intros Hst. induction keys as [|k keys IH]; intros Hk; [reflexivity|].
  cbn [diff_keys]. unfold diff_key, diff_test. rewrite Hst.
  destruct (dict_keys_get k prev_props) as [pv Hpv]; [apply Hk; now left|].
  rewrite Hpv, py_eq_refl. cbn. apply IH. intros k' Hk'. apply Hk. now right.
Qed.

(** The step at a field whose reference was replaced collects both. *)
Lemma diff_key_replaced k st a b :
  dict_get k prev_props = Some (VStr a) ->
  dict_get k (df_props st) = Some (VStr b) ->
  is_attachment (VStr a) = true -> is_attachment (VStr b) = true ->
  a <> b ->
  exists st1,
    diff_key user sfx prev_props false k st = Ok st1
    /\ In (VStr a) (oldattachments st1)
    /\ In (VStr b) (newattachments st1).
Proof.
  intros Hp Hf Ha Hb Hne.
  unfold diff_key, diff_test. rewrite Hp, Hf.
  assert (Hneq : py_eq (VStr b) (VStr a) = false).
  { simpl. apply String.eqb_neq. congruence. }
  rewrite Hneq. cbn [negb orb]. rewrite Ha.
  destruct (suffix_truthy sfx) as [s|]; cbn [df_props].
  - rewrite dict_get_set_other by apply audit_field_differs.
    rewrite Hf, Hb. eexists. split; [reflexivity|].
    cbn. split; apply in_or_app; right; now left.
  - rewrite Hf, Hb. eexists. split; [reflexivity|].
    cbn. split; apply in_or_app; right; now left.
Qed.

Lemma diff_keys_replaced f a b keys :
  dict_get f prev_props = Some (VStr a) ->
  is_attachment (VStr a) = true -> is_attachment (VStr b) = true ->
  a <> b ->
  (forall k s, In k keys -> suffix_truthy sfx = Some s -> f <> k ++ "__" ++ s) ->
  In f keys ->
  forall st,
    (forall k, In k keys -> In k (dict_keys (df_props st))) ->
    dict_get f (df_props st) = Some (VStr b) ->
    exists st1,
      diff_keys user sfx prev_props false keys st = Ok st1
      /\ In (VStr a) (oldattachments st1)
      /\ In (VStr b) (newattachments st1).
Proof.
  intros Hp Ha Hb Hne.
  induction keys as [|k keys IH]; intros Hcol Hin st Hkeys Hf;
    [contradiction|].
  cbn [diff_keys].
  destruct (string_dec k f) as [->|Hkf].
  - destruct (diff_key_replaced f st a b Hp Hf Ha Hb Hne)
      as (st0 & E & Ho & Hn).
    rewrite E.
    destruct (diff_keys_total keys st0) as [st1 E1].
    { intros k' Hk'. apply diff_key_grows in E as (_ & _ & Hg).
      apply Hg, Hkeys. now right. }
    exists st1. split; [exact E1|].
    apply diff_keys_grows in E1 as [Ho1 Hn1]. split; auto.
  - destruct Hin as [Hin|Hin]; [congruence|].
    destruct (diff_key_total k st) as [st0 E]; [apply Hkeys; now left|].
    rewrite E. apply IH.
    + intros k' s Hk'. apply Hcol. now right.
    + exact Hin.
    + intros k' Hk'. apply diff_key_grows in E as (_ & _ & Hg).
      apply Hg, Hkeys. now right.
    + rewrite (diff_key_frame false k st st0 f E); [exact Hf|].
      intros s Hs. eapply Hcol; eauto. now left.
Qed.

End DiffFacts.

(** ** Calls to the two stores *)

Section StoreCalls.
Context {S : Type}.
Variable RS : RecordStore S.

Lemma show_run t id (w : world S) :
  show RS t id w
  = (Ok (fst (rs_show RS (w_store w) t id)),
     mkWorld (snd (rs_show RS (w_store w) t id)) (w_disk w)
             (w_log w ++ [EvShow t id])).
Proof. unfold show. now destruct (rs_show RS (w_store w) t id). Qed.

Lemma create_run t f i (w : world S) :
  create RS t f i w
  = (Ok (fst (rs_create RS (w_store w) t f i)),
     mkWorld (snd (rs_create RS (w_store w) t f i)) (w_disk w)
             (w_log w ++ [EvCreate t f i])).
Proof. unfold create. now destruct (rs_create RS (w_store w) t f i). Qed.

Lemma update_run t id f i (w : world S) :
  update RS t id f i w
  = (Ok (fst (rs_update RS (w_store w) t id f i)),
     mkWorld (snd (rs_update RS (w_store w) t id f i)) (w_disk w)
             (w_log w ++ [EvUpdate t id f i])).
Proof. unfold update. now destruct (rs_update RS (w_store w) t id f i). Qed.

Lemma destroy_run t id (w : world S) :
  destroy RS t id w
  = (Ok (fst (rs_destroy RS (w_store w) t id)),
     mkWorld (snd (rs_destroy RS (w_store w) t id)) (w_disk w)
             (w_log w ++ [EvDestroy t id])).
Proof. unfold destroy. now destruct (rs_destroy RS (w_store w) t id). Qed.

(** A cleanup that ends normally has asked the Attachment Store to remove
    the passed slug of each reference, in order. *)
Lemma cleanup_attachments_run (refs : list value) :
  forall (w w' : world S),
    cleanup_attachments refs w = (Ok tt, w') ->
    w' = mkWorld (w_store w)
                 (remove_slugs (map passed_slug refs) (w_disk w))
                 (w_log w ++ map EvRemove (map passed_slug refs)).
Proof.
  induction refs as [|v refs IH]; intros w w' H.
  - injection H as <-. cbn. rewrite app_nil_r. now destruct w.
  - destruct v as [|b|z|s|d]; try discriminate H.
    cbn [cleanup_attachments] in H. unfold bind at 1 in H.
    cbn [remove_attachment] in H. apply IH in H. rewrite H. cbn.
    now rewrite <- app_assoc.
Qed.

End StoreCalls.

Section DiffTheorem.
Context {S : Type}.
Variable RS : RecordStore S.
Variable user : value.
Variable sfx : option string.

(** C9, amended: the diff of a stored record against an identical incoming
    record is empty on both sides; and when a field's reference is
    replaced from [a] to [b], the old references contain [a] and the new
    ones contain [b], provided the field is not the audit field
    [<k>__<suffix>] of a property [k] of the incoming record (no proviso
    when no audit suffix is configured). *)
Theorem diff_same_empty_replaced_both :
  forall (t : string) (rid : value) (feat : feature)
         (internal : list string) (w : world S) (prev : result)
         (pf : feature) (s' : S),
    rs_show RS (w_store w) t rid = (Some prev, s') ->
    r_feature prev = Some pf ->
    (f_props pf = f_props feat ->
       attachments_diff RS user sfx t rid feat internal false w
       = (Ok (mkDiff [] [] (f_props feat) internal),
          mkWorld s' (w_disk w) (w_log w ++ [EvShow t rid])))
    /\ (forall f a b,
          dict_get f (f_props pf) = Some (VStr a) ->
          dict_get f (f_props feat) = Some (VStr b) ->
          is_attachment (VStr a) = true ->
          is_attachment (VStr b) = true ->
          a <> b ->
          (forall k s, In k (dict_keys (f_props feat)) ->
                       suffix_truthy sfx = Some s -> f <> k ++ "__" ++ s) ->
          exists d,
            attachments_diff RS user sfx t rid feat internal false w
            = (Ok d, mkWorld s' (w_disk w) (w_log w ++ [EvShow t rid]))
            /\ In (VStr a) (oldattachments d)
            /\ In (VStr b) (newattachments d)).
Proof.
  intros t rid feat internal w prev pf s' Hshow Hpf.
  assert (Hrun : forall o,
             diff_keys user sfx (f_props pf) false (dict_keys (f_props feat))
               (mkDiff [] [] (f_props feat) internal) = o ->
             attachments_diff RS user sfx t rid feat internal false w
             = (o, mkWorld s' (w_disk w) (w_log w ++ [EvShow t rid]))).
  { intros o <-. unfold attachments_diff.
    rewrite (bind_ok _ _ _ _ _ (show_run RS t rid w)).
    rewrite Hshow. cbn [fst snd]. rewrite Hpf. reflexivity. }
  split.
  - intros Hsame. apply Hrun. apply diff_keys_same.
    + now rewrite Hsame.
    + intros k Hk. now rewrite Hsame.
  - intros f a b Hp Hf Ha Hb Hne Hcol.
    destruct (diff_keys_replaced user sfx (f_props pf) f a b
                (dict_keys (f_props feat)) Hp Ha Hb Hne Hcol
                (dict_get_some_keys _ _ _ Hf)
                (mkDiff [] [] (f_props feat) internal))
      as (d & Hd & Ho & Hn); [auto | exact Hf |].
    exists d. split; [now apply Hrun | now split].
Qed.

End DiffTheorem.


(** ** Equality with a string *)

Lemma py_eq_str_inv (v : value) (x : string) :
  py_eq v (VStr x) = true -> v = VStr x.
Proof.
  destruct v as [|b|z|s|d]; simpl; try discriminate.
  intros H. apply String.eqb_eq in H. now subst.
Qed.


(** ** Client errors *)

Create HintDb no_abort.

Section NoAbort.
Context {S : Type}.

Lemma never_aborts_ret {A} (a : A) : never_aborts (ret (S := S) a).
Proof. intros w c msg w' H. discriminate H. Qed.

Lemma never_aborts_raise {A} (e : exn) : never_aborts (raise (S := S) (A := A) e).
Proof. intros w c msg w' H. discriminate H. Qed.

Lemma never_aborts_bind {A B} (m : M S A) (k : A -> M S B) :
  never_aborts m -> (forall a, never_aborts (k a)) -> never_aborts (bind m k).
Proof.
  intros Hm Hk w c msg w' H. unfold bind in H.
  destruct (m w) as [[a|c1 m1|e] w1] eqn:E.
  - now apply Hk in H.
  - now apply Hm in E.
  - discriminate H.
Qed.

Lemma never_aborts_lift {A} (o : outcome A) :
  (forall c msg, o <> Abort c msg) -> never_aborts (lift (S := S) o).
Proof.
  intros Ho w c msg w' H. unfold lift in H. injection H as H _.
  now apply Ho in H.
Qed.

Lemma never_aborts_remove slug : never_aborts (remove_attachment (S := S) slug).
Proof. intros w c msg w' H. discriminate H. Qed.

Variable RS : RecordStore S.
Variable user : value.
Variable sfx : option string.

Lemma never_aborts_show t id : never_aborts (show RS t id).
Proof. intros w c msg w' H. rewrite show_run in H. discriminate H. Qed.

Lemma never_aborts_create t f i : never_aborts (create RS t f i).
Proof. intros w c msg w' H. rewrite create_run in H. discriminate H. Qed.

Lemma never_aborts_update t id f i : never_aborts (update RS t id f i).
Proof. intros w c msg w' H. rewrite update_run in H. discriminate H. Qed.

Lemma never_aborts_destroy t id : never_aborts (destroy RS t id).
Proof. intros w c msg w' H. rewrite destroy_run in H. discriminate H. Qed.

Lemma never_aborts_cleanup refs : never_aborts (cleanup_attachments (S := S) refs).
Proof.
  induction refs as [|v refs IH]; [apply never_aborts_ret|].
  destruct v; try apply never_aborts_raise.
  cbn [cleanup_attachments]. apply never_aborts_bind.
  - apply never_aborts_remove.
  - intros _. exact IH.
Qed.

Lemma diff_test_no_abort prev props rd k c msg :
  diff_test prev props rd k <> Abort c msg.
Proof.
  unfold diff_test. destruct (dict_get k prev); [|discriminate].
  destruct (dict_get k props); discriminate.
Qed.

Lemma diff_key_no_abort prev rd k st c msg :
  diff_key user sfx prev rd k st <> Abort c msg.
Proof.
  unfold diff_key.
  destruct (diff_test prev (df_props st) rd k) as [[|]|c1 m1|e] eqn:E.
  - destruct (dict_get k prev); [|discriminate].
    match goal with
    | |- context [dict_get k (df_props ?x)] =>
        destruct (dict_get k (df_props x)) as [fv|]; [|discriminate]
    end.
    destruct (is_attachment fv); discriminate.
  - discriminate.
  - now apply diff_test_no_abort in E.
  - discriminate.
Qed.

Lemma diff_keys_no_abort prev rd keys :
  forall st c msg, diff_keys user sfx prev rd keys st <> Abort c msg.
Proof.
  induction keys as [|k keys IH]; intros st c msg; [discriminate|].
  cbn [diff_keys].
  destruct (diff_key user sfx prev rd k st) as [st1|c1 m1|e] eqn:E.
  - apply IH.
  - now apply diff_key_no_abort in E.
  - discriminate.
Qed.

Lemma never_aborts_diff t rid feat internal rd :
  never_aborts (attachments_diff RS user sfx t rid feat internal rd).
Proof.
  unfold attachments_diff. apply never_aborts_bind.
  - apply never_aborts_show.
  - intros [prev|]; [|apply never_aborts_ret].
    destruct (r_feature prev); [|apply never_aborts_raise].
    apply never_aborts_lift. intros c msg. apply diff_keys_no_abort.
Qed.

#[local] Hint Resolve never_aborts_ret never_aborts_raise never_aborts_show
  never_aborts_create never_aborts_update never_aborts_destroy
  never_aborts_cleanup never_aborts_diff : no_abort.

Ltac no_abort :=
  repeat first
    [ solve [auto with no_abort]
    | apply never_aborts_bind; [|intros ?]
    | match goal with
      | |- never_aborts (match ?x with _ => _ end) => destruct x
      | |- never_aborts (if ?x then _ else _) => destruct x
      end ].

Lemma never_aborts_apply_edit t internal r :
  never_aborts (apply_edit RS user sfx t internal r).
Proof. unfold apply_edit. cbv zeta. no_abort. Qed.

Lemma never_aborts_process_record id t fk internal r :
  never_aborts (process_record RS user sfx id t fk internal r).
Proof.
  unfold process_record. destruct fk as [fk|]; [|apply never_aborts_raise].
  destruct (negb _); [apply never_aborts_ret|apply never_aborts_apply_edit].
Qed.

Lemma never_aborts_process_records id t fk internal records :
  forall out h,
    never_aborts (process_records RS user sfx id t fk internal records out h).
Proof.
  induction records as [|r records IH]; intros out h;
    [apply never_aborts_ret|].
  cbn [process_records]. apply never_aborts_bind.
  - apply never_aborts_process_record.
  - intros a. apply IH.
Qed.

Lemma never_aborts_process_tables id internal tables :
  forall out h,
    never_aborts (process_tables RS user sfx id internal tables out h).
Proof.
  induction tables as [|[t rd] tables IH]; intros out h;
    [apply never_aborts_ret|].
  cbn [process_tables]. apply never_aborts_bind.
  - apply never_aborts_process_records.
  - intros a. apply IH.
Qed.

End NoAbort.

Section TableNames.
Context {S : Type}.
Variable RS : RecordStore S.
Variable user : value.
Variable sfx : option string.
Variable py_int : string -> option Z.

(** C3, amended: the handler holds no notion of the child tables declared
    for a dataset. Whatever the name of a table of the batch, a record of
    it marked "new" is sent to the Record Store's create under that name
    and answered from the store's answer; the loop over the batch never
    ends in a client error; and the only client errors of the request are
    the malformed payload, the parent that is not editable and the
    attachment that cannot be validated or saved. *)
Theorem table_names_are_not_checked :
  forall (id : Z) (internal : list string),
    (forall (t fk : string) (r : record) (w : world S),
        dict_get "__status__" r = Some (VStr "new") ->
        (t ++ "__") ++ fk <> "__status__" ->
        let r' := dict_set ((t ++ "__") ++ fk) (VInt id) r in
        let entry :=
          mkFeature (match dict_get "id" r' with Some v => v | None => VNone end)
                    (entry_properties (t ++ "__") r') in
        let tif := table_internal (t ++ "__") internal in
        process_record RS user sfx id t (Some fk) internal r w
        = (Ok (report t r' tif (fst (rs_create RS (w_store w) t entry tif))),
           mkWorld (snd (rs_create RS (w_store w) t entry tif)) (w_disk w)
                   (w_log w ++ [EvCreate t entry tif])))
    /\ (forall tables out h,
        never_aborts (process_tables RS user sfx id internal tables out h))
    /\ (forall dataset values files (w w' : world S) c msg,
        relations_post RS user sfx py_int dataset id values files w
        = (Abort c msg, w') ->
        (values = None /\ c = 400)
        \/ (c = 404
            /\ (msg = VStr "Dataset or feature not found or permission error"
                \/ (exists key,
                      msg = VStr ("Attachment validation failed: " ++ key))
                \/ (exists key,
                      msg = VStr ("Failed to save attachment: " ++ key))))).
Proof.
  intros id internal. split; [|split].
  - intros t fk r w Hst Hne r' entry tif.
    unfold process_record, force_fk, status_of. rewrite Hst.
    cbn [py_eq]. rewrite String.eqb_refl. fold r'.
    unfold fk_of. unfold r' at 1. rewrite dict_get_set_same.
    cbn [py_eq]. rewrite Z.eqb_refl. cbn [negb].
    unfold apply_edit.
    assert (Hst' : dict_get "__status__" r' = Some (VStr "new")).
    { unfold r'. rewrite dict_get_set_other by congruence. exact Hst. }
    rewrite Hst'. cbn [py_eq]. rewrite String.eqb_refl.
    fold entry tif.
    rewrite (bind_ok _ _ _ _ _ (create_run RS t entry tif w)).
    reflexivity.
  - intros tables out h. apply never_aborts_process_tables.
  - intros dataset values files w w' c msg H.
    unfold relations_post in H. destruct values as [p|].
    + right. unfold bind at 1, is_editable in H.
      destruct (negb _).
      * injection H as <- <- _. split; [reflexivity|]. now left.
      * destruct (validate_attachments_run files w) as [Hv|[k Hv]].
        -- rewrite (bind_ok _ _ _ _ _ Hv) in H. unfold bind at 1 in H.
           destruct (save_attachments _ files [] (p, []) w)
             as [[[saved [p1 internal1]]|c1 m1|e] w1] eqn:Hsave.
           ++ exfalso. revert H.
              apply never_aborts_bind.
              ** apply never_aborts_process_tables.
              ** intros a. apply never_aborts_ret.
           ++ injection H as <- <- _.
              apply (save_attachments_run _
                       (bind_relation_upload_no_abort user sfx py_int))
                in Hsave as [_ Hsave].
              destruct Hsave as (pre & key & fd & post & _ & _ & _ & -> & -> & _).
              split; [reflexivity|]. right. right. now exists key.
           ++ discriminate H.
        -- rewrite (bind_abort _ _ _ _ _ _ Hv) in H.
           injection H as <- <- _. split; [reflexivity|].
           right. left. now exists k.
    + left. injection H as <- _ _. now split.
Qed.

End TableNames.

(** ** Changed records *)

Section ChangedRecords.
Context {S : Type}.
Variable RS : RecordStore S.
Variable user : value.
Variable sfx : option string.

Lemma attachments_diff_world t rid feat internal rd (w w1 : world S) o :
  attachments_diff RS user sfx t rid feat internal rd w = (o, w1) ->
  w1 = mkWorld (snd (rs_show RS (w_store w) t rid)) (w_disk w)
               (w_log w ++ [EvShow t rid]).
Proof.
  unfold attachments_diff. rewrite (bind_ok _ _ _ _ _ (show_run RS t rid w)).
  destruct (fst (rs_show RS (w_store w) t rid)) as [prev|].
  - destruct (r_feature prev).
    + unfold lift. now intros [= _ <-].
    + unfold raise. now intros [= _ <-].
  - unfold ret. now intros [= _ <-].
Qed.

(** The branch for "changed" records, when it runs to the end: the diff
    against the stored record, the update, then the cleanup of the new
    references if the update failed and of the old ones if it succeeded.
    What the cleanup removes from disk is the passed slug of each
    reference. *)
Lemma changed_record_cleanup :
  forall (id : Z) (t fk : string) (internal : list string) (r : record)
         (w w' : world S) (rid : value) (o : option record * bool),
    dict_get "__status__" r = Some (VStr "changed") ->
    py_eq (fk_of ((t ++ "__") ++ fk) r) (VInt id) = true ->
    dict_get "id" r = Some rid ->
    process_record RS user sfx id t (Some fk) internal r w = (Ok o, w') ->
    let entry := mkFeature rid (entry_properties (t ++ "__") r) in
    let tif := table_internal (t ++ "__") internal in
    exists d w1 res,
      attachments_diff RS user sfx t rid entry tif false w = (Ok d, w1)
      /\ res = fst (rs_update RS (w_store w1) t rid
                      (mkFeature rid (df_props d)) (df_internal d))
      /\ w_log w'
         = (w_log w
              ++ [EvShow t rid;
                  EvUpdate t rid (mkFeature rid (df_props d)) (df_internal d)]
              ++ map EvRemove
                   (map passed_slug
                      (if has_error res then newattachments d
                       else oldattachments d)))%list
      /\ w_disk w'
         = remove_slugs
             (map passed_slug
                (if has_error res then newattachments d else oldattachments d))
             (w_disk w)
      /\ o = report t r (df_internal d) res.
Proof.
  intros id t fk internal r w w' rid o Hst Hfk Hid Hrun entry tif.
  unfold process_record, force_fk, status_of in Hrun.
  rewrite Hst in Hrun. cbn [py_eq String.eqb Ascii.eqb Bool.eqb] in Hrun.
  rewrite Hfk in Hrun. cbn [negb] in Hrun. unfold apply_edit in Hrun.
  rewrite Hst, Hid in Hrun. cbn [py_eq String.eqb Ascii.eqb Bool.eqb] in Hrun.
  fold entry tif in Hrun. cbn [f_id] in Hrun.
  apply bind_ok_inv in Hrun as (d & w1 & Hdiff & Hrun).
  apply bind_ok_inv in Hrun as (res & w2 & Hupdate & Hrun).
  apply bind_ok_inv in Hrun as (u & w3 & Hclean & Hrun).
  injection Hrun as <- <-. destruct u.
  exists d, w1, res.
  rewrite update_run in Hupdate. injection Hupdate as Hres <-.
  apply cleanup_attachments_run in Hclean. subst w3.
  pose proof (attachments_diff_world _ _ _ _ _ _ _ _ Hdiff) as Hw1.
  cbn [w_log w_disk w_store].
  split; [exact Hdiff|]. split; [now rewrite Hres|].
  rewrite Hw1. cbn [w_log w_disk w_store].
  split; [now rewrite <- !app_assoc|]. now split.
Qed.

End ChangedRecords.

(** ** The theorems at concrete requests *)

Section Witnesses.
Import Scenario.

Local Abbreviation store := TableStore.store.
Local Abbreviation int_of_string := TableStore.int_of_string.

(** [foreign_key_forced_or_validated] at a "new" record and at a "changed"
    record, both with the foreign key 99 under the parent 7. *)
Lemma foreign_key_forced_or_validated_witness :
  (exists entry,
      dict_get "parent_id" (f_props entry) = Some (VInt 7)
      /\ process_record store alice None 7 "children" (Some "parent_id") []
           new_with_wrong_fk (start (family "old1" true) [])
         = (res <- create store "children" entry [] ;;
            ret (report "children"
                   (dict_set "children__parent_id" (VInt 7) new_with_wrong_fk)
                   [] res))
             (start (family "old1" true) []))
  /\ process_record store alice None 7 "children" (Some "parent_id") []
       changed_with_wrong_fk (start (family "old1" true) [])
     = (Ok (Some (dict_set "__error__" (VStr "FK validation failed")
                    changed_with_wrong_fk), true),
        start (family "old1" true) []).
Proof.
  split.
  - destruct (foreign_key_forced_or_validated store alice None 7 "children"
                "parent_id" [] new_with_wrong_fk
                (start (family "old1" true) [])) as [Hnew _].
    destruct (Hnew eq_refl) as (_ & _ & H). apply H.
    + repeat constructor; simpl; intuition discriminate.
    + discriminate.
  - destruct (foreign_key_forced_or_validated store alice None 7 "children"
                "parent_id" [] changed_with_wrong_fk
                (start (family "old1" true) [])) as [_ Hrej].
    destruct (Hrej eq_refl eq_refl) as [H _]. exact H.
Defined.

(** [failed_save_rolls_back] at three uploads of which the third cannot be
    saved, in the single-record create. *)
Lemma failed_save_rolls_back_witness :
  let run :=
    create_feature_multipart store alice None "points" (Some point_edit)
      failing_uploads (start (points true) []) in
  fst run = Abort 404 (VStr "Failed to save attachment: file:deed")
  /\ rolled_back failing_uploads "file:deed" (start (points true) []) (snd run).
Proof.
  intros run.
  destruct (failed_save_rolls_back store alice None int_of_string
              failing_uploads) as (_ & _ & H).
  - repeat constructor; simpl; intuition discriminate.
  - destruct (H "file:deed" (mkFile true None)) as (_ & Hc & _).
    + simpl. right. right. now left.
    + reflexivity.
    + destruct (Hc "points" (Some point_edit) (start (points true) [])
                (snd run) (fst run)
                [EvSave "file:photo" (Some "s1"); EvSave "file:plan" (Some "s2");
                 EvSave "file:deed" None; EvRemove "s1"; EvRemove "s2"])
        as (Ho & Hrb & _).
      * vm_compute. reflexivity.
      * vm_compute. reflexivity.
      * simpl. right. right. now left.
      * now split.
Defined.

(** [diff_same_empty_replaced_both] at the child record 1, with the audit
    suffix [by] configured: against itself, and against an edit that
    replaces the photo [old1] by [new1]. *)
Lemma diff_same_empty_replaced_both_witness :
  let w := start (family "old1" true) [] in
  let stored :=
    mkFeature (VInt 1)
      [("parent_id", VInt 7); ("photo", VStr "attachment://old1")] in
  let edited :=
    mkFeature (VInt 1)
      [("parent_id", VInt 7); ("photo", VStr "attachment://new1")] in
  attachments_diff store alice (Some "by") "children" (VInt 1) stored [] false w
  = (Ok (mkDiff [] [] (f_props stored) []),
     mkWorld (family "old1" true) [] [EvShow "children" (VInt 1)])
  /\ exists d,
       attachments_diff store alice (Some "by") "children" (VInt 1) edited []
         false w
       = (Ok d, mkWorld (family "old1" true) [] [EvShow "children" (VInt 1)])
       /\ In (VStr "attachment://old1") (oldattachments d)
       /\ In (VStr "attachment://new1") (newattachments d).
Proof.
  intros w stored edited. split.
  - destruct (diff_same_empty_replaced_both store alice (Some "by") "children"
                (VInt 1) stored [] w (res_feature stored) stored
                (family "old1" true) eq_refl eq_refl) as [H _].
    exact (H eq_refl).
  - destruct (diff_same_empty_replaced_both store alice (Some "by") "children"
                (VInt 1) edited [] w (res_feature stored) stored
                (family "old1" true) eq_refl eq_refl) as [_ H].
    apply (H "photo" "attachment://old1" "attachment://new1");
      try reflexivity; try discriminate.
    intros k s [<-|[<-|[]]] Hs; injection Hs as <-; discriminate.
Defined.

(** [table_names_are_not_checked] at a "new" record of the table
    [strangers]. *)
Lemma table_names_are_not_checked_witness :
  process_record store alice None 7 "strangers" (Some "owner") []
    [("__status__", VStr "new"); ("strangers__name", VStr "a")]
    (start (family "old1" true) [])
  = (Ok (Some [("strangers__name", VStr "a"); ("strangers__owner", VInt 7);
               ("id", VInt 8)], false),
     mkWorld
       (TableStore.mkState
          (TableStore.rows (family "old1" true)
             ++ [TableStore.mkRow "strangers" 8
                   [("name", VStr "a"); ("owner", VInt 7)]])
          true)
       []
       [EvCreate "strangers"
          (mkFeature VNone [("name", VStr "a"); ("owner", VInt 7)]) []]).
Proof.
  destruct (table_names_are_not_checked store alice None int_of_string 7 [])
    as (H & _ & _).
  rewrite (H "strangers" "owner"
             [("__status__", VStr "new"); ("strangers__name", VStr "a")]
             (start (family "old1" true) []) eq_refl).
  - vm_compute. reflexivity.
  - discriminate.
Defined.

End Witnesses.

(** * Further properties *)

(** ** Prefixes removed with [lstrip] *)

Lemma lstrip_length (chars s : string) :
  (String.length (PyStr.lstrip chars s) <= String.length s)%nat.
Proof.
  induction s as [|c s IH]; simpl; [lia|].
  destruct (PyStr.mem_char c chars); simpl; lia.
Qed.

Lemma lstrip_outside (chars s : string) :
  begins_outside chars s = true -> PyStr.lstrip chars s = s.
Proof.
  destruct s as [|c s]; simpl; [reflexivity|].
  now destruct (PyStr.mem_char c chars).
Qed.

Lemma lstrip_exact_iff (chars s : string) :
  PyStr.lstrip chars s = s <-> begins_outside chars s = true.
Proof.
  split; [|apply lstrip_outside].
  destruct s as [|c s]; simpl; [reflexivity|].
  destruct (PyStr.mem_char c chars); [|reflexivity].
  intros H. pose proof (lstrip_length chars s) as Hl.
  rewrite H in Hl. simpl in Hl. lia.
Qed.

Lemma disk_has_remove_other (slug other : string) (disk : list string) :
  slug <> other ->
  disk_has slug (disk_remove other disk) = disk_has slug disk.
Proof.
  intros Hne. unfold disk_has, disk_remove.
  induction disk as [|s disk IH]; simpl; [reflexivity|].
  destruct (String.eqb other s) eqn:E; simpl.
  - apply String.eqb_eq in E. subst s.
    apply String.eqb_neq in Hne. now rewrite Hne, IH.
  - now rewrite IH.
Qed.

(** X1: the slug that the cleanup hands to the Attachment Store for the
    reference [attachment://<slug>] is [<slug>] itself exactly when the slug
    is empty or begins with a character other than [a t c h m e n : /]; for
    such a slug the cleanup removes its file and no other. *)
Theorem cleanup_exact_for_safe_slugs :
  forall (slug : string),
    (passed_slug (VStr ("attachment://" ++ slug)) = slug
     <-> begins_outside "attachment://" slug = true)
    /\ forall (S : Type) (w : world S),
        begins_outside "attachment://" slug = true ->
        exists w',
          cleanup_attachments [VStr ("attachment://" ++ slug)] w = (Ok tt, w')
          /\ disk_has slug (w_disk w') = false
          /\ (forall other, other <> slug ->
                disk_has other (w_disk w') = disk_has other (w_disk w))
          /\ w_store w' = w_store w.
Proof.
  intros slug. split.
  - change (passed_slug (VStr ("attachment://" ++ slug)))
      with (PyStr.lstrip "attachment://" slug).
    apply lstrip_exact_iff.
  - intros S w Hsafe.
    eexists. split; [reflexivity|]. cbn [w_disk w_store].
    change (PyStr.lstrip "attachment://" ("attachment://" ++ slug))
      with (PyStr.lstrip "attachment://" slug).
    rewrite (lstrip_outside _ _ Hsafe).
    split; [apply disk_has_remove_same|]. split; [|reflexivity].
    intros other Hne. now apply disk_has_remove_other.
Qed.

(** ** The keys of the uploads *)

Lemma append_nil_r (s : string) : s ++ EmptyString = s.
Proof. induction s as [|c s IH]; simpl; [reflexivity | now rewrite IH]. Qed.

Lemma append_assoc (a b c : string) : (a ++ b) ++ c = a ++ b ++ c.
Proof. induction a as [|x a IH]; simpl; [reflexivity | now rewrite IH]. Qed.

Lemma splittable_tail (c : ascii) (s : string) :
  splittable (String c s) = true -> splittable s = true.
Proof.
  simpl. destruct (Ascii.eqb c "_"); [|auto].
  destruct s as [|d s]; [discriminate|].
  intros H. now apply andb_true_iff in H as [_ H].
Qed.

(** A splittable piece followed by the separator is split off whole. *)
Lemma split_dunder_piece (t rest : string) :
  forall cur,
    splittable t = true ->
    PyStr.split_dunder_aux (t ++ "__" ++ rest) cur
    = (cur ++ t) :: PyStr.split_dunder_aux rest EmptyString.
Proof.
  induction t as [|c t IH]; intros cur Ht.
  - simpl. now rewrite append_nil_r.
  - pose proof (splittable_tail c t Ht) as Ht'.
    change (String c t ++ "__" ++ rest) with (String c (t ++ "__" ++ rest)).
    cbn [PyStr.split_dunder_aux].
    destruct (t ++ "__" ++ rest) as [|d r] eqn:E.
    { destruct t; discriminate E. }
    assert (Hno : (Ascii.eqb c "_" && Ascii.eqb d "_")%bool = false).
    { destruct (Ascii.eqb c "_") eqn:Ec; [|reflexivity].
      simpl in Ht. rewrite Ec in Ht.
      destruct t as [|d' t]; [discriminate Ht|].
      simpl in E. injection E as -> _.
      apply andb_true_iff in Ht as [Hd _].
      simpl. now apply negb_true_iff in Hd. }
    rewrite Hno. rewrite IH by exact Ht'.
    rewrite append_assoc. reflexivity.
Qed.

(** A splittable string without separator after it is one piece. *)
Lemma split_dunder_last (t : string) :
  forall cur,
    splittable t = true ->
    PyStr.split_dunder_aux t cur = [cur ++ t].
Proof.
  induction t as [|c t IH]; intros cur Ht.
  - simpl. now rewrite append_nil_r.
  - pose proof (splittable_tail c t Ht) as Ht'.
    cbn [PyStr.split_dunder_aux].
    destruct t as [|d t].
    + reflexivity.
    + assert (Hno : (Ascii.eqb c "_" && Ascii.eqb d "_")%bool = false).
      { destruct (Ascii.eqb c "_") eqn:Ec; [|reflexivity].
        simpl in Ht. rewrite Ec in Ht.
        apply andb_true_iff in Ht as [Hd _].
        simpl. now apply negb_true_iff in Hd. }
      rewrite Hno. rewrite IH by exact Ht'.
      rewrite append_assoc. reflexivity.
Qed.

Lemma lstrip_before_dunder (chars t rest : string) :
  PyStr.mem_char "_" chars = false ->
  PyStr.lstrip chars (t ++ "__" ++ rest) = PyStr.lstrip chars t ++ "__" ++ rest.
Proof.
  intros Hu. induction t as [|c t IH].
  - simpl. now rewrite Hu.
  - simpl. destruct (PyStr.mem_char c chars); [exact IH | reflexivity].
Qed.

Lemma lstrip_splittable (chars t : string) :
  splittable t = true -> splittable (PyStr.lstrip chars t) = true.
Proof.
  induction t as [|c t IH]; intros Ht; [reflexivity|].
  cbn [PyStr.lstrip]. destruct (PyStr.mem_char c chars); [|exact Ht].
  apply IH. eapply splittable_tail; eauto.
Qed.

(** The three parts that [Relations.post] reads off an upload key. *)
Lemma upload_key_parts (t f i : string) :
  splittable t = true -> splittable f = true -> splittable i = true ->
  PyStr.split_dunder (PyStr.lstrip "file:" ("file:" ++ t ++ "__" ++ f ++ "__" ++ i))
  = [PyStr.lstrip "file:" t; f; i].
Proof.
  intros Ht Hf Hi.
  change (PyStr.lstrip "file:" ("file:" ++ t ++ "__" ++ f ++ "__" ++ i))
    with (PyStr.lstrip "file:" (t ++ "__" ++ f ++ "__" ++ i)).
  rewrite lstrip_before_dunder by reflexivity.
  unfold PyStr.split_dunder.
  rewrite split_dunder_piece by now apply lstrip_splittable.
  rewrite split_dunder_piece by exact Hf.
  rewrite split_dunder_last by exact Hi.
  reflexivity.
Qed.

(** X2: the upload key [file:<t>__<f>__<i>] (each part without double
    underscore and not ending in an underscore) is read as field [f] and
    index [i] of the table named [<t>] with its leading characters among
    [f i l e :] stripped; the table read is [<t>] itself exactly when [<t>]
    is empty or begins with another character. *)
Theorem upload_key_names_stripped_table :
  forall (t f i : string),
    splittable t = true -> splittable f = true -> splittable i = true ->
    PyStr.split_dunder
      (PyStr.lstrip "file:" ("file:" ++ t ++ "__" ++ f ++ "__" ++ i))
    = [PyStr.lstrip "file:" t; f; i]
    /\ (PyStr.lstrip "file:" t = t <-> begins_outside "file:" t = true).
Proof.
  intros t f i Ht Hf Hi. split.
  - now apply upload_key_parts.
  - apply lstrip_exact_iff.
Qed.

(** ** Binding an upload into the payload *)

Lemma list_set_length {A} (n : nat) (x : A) (l : list A) :
  length (list_set n x l) = length l.
Proof.
  revert n. induction l as [|y l IH]; intros n; [now destruct n|].
  destruct n; simpl; [reflexivity | now rewrite IH].
Qed.

Lemma nth_error_list_set_same {A} (n : nat) (x y : A) (l : list A) :
  nth_error l n = Some y -> nth_error (list_set n x l) n = Some x.
Proof.
  revert n. induction l as [|z l IH]; intros n H.
  - destruct n; discriminate H.
  - destruct n; simpl; [reflexivity | now apply IH].
Qed.

Lemma nth_error_list_set_other {A} (n m : nat) (x : A) (l : list A) :
  n <> m -> nth_error (list_set n x l) m = nth_error l m.
Proof.
  revert n m. induction l as [|z l IH]; intros n m Hne; [now destruct n|].
  destruct n, m; simpl; try reflexivity; [congruence|].
  apply IH. congruence.
Qed.

Lemma py_index_bound {A} (l : list A) (z : Z) (n : nat) :
  py_index l z = Some n ->
  (n < length l)%nat
  /\ Z.of_nat n = (if z <? 0 then z + Z.of_nat (length l) else z).
Proof.
  unfold py_index.
  destruct ((0 <=? _) && (_ <? _))%bool eqn:E; [|discriminate].
  apply andb_true_iff in E as [E1 E2].
  apply Z.leb_le in E1. apply Z.ltb_lt in E2.
  intros [= <-]. split; [lia|]. now rewrite Z2Nat.id.
Qed.

Lemma py_index_list_set {A} (n : nat) (x : A) (l : list A) (z : Z) :
  py_index (list_set n x l) z = py_index l z.
Proof. unfold py_index. now rewrite list_set_length. Qed.

Section BindFacts.
Variable py_int : string -> option Z.

Lemma set_record_field_ok p table index k v rd recs z n :
  dict_get table p = Some rd ->
  rd_records rd = Some recs ->
  py_int index = Some z ->
  py_index recs z = Some n ->
  exists r,
    nth_error recs n = Some r
    /\ set_record_field py_int p table index k v
       = Ok (dict_set table
               (mkRelData (rd_fk rd) (Some (list_set n (dict_set k v r) recs)))
               p).
Proof.
  intros Hp Hr Hi Hn. unfold set_record_field. rewrite Hp, Hr, Hi, Hn.
  destruct (py_index_bound _ _ _ Hn) as [Hlt _].
  destruct (nth_error recs n) as [r|] eqn:E.
  - now exists r.
  - apply nth_error_None in E. lia.
Qed.

Lemma payload_record_set p table rd rd' :
  dict_get table p = Some rd ->
  forall t2 n2,
    payload_record (dict_set table rd' p) t2 n2
    = if String.eqb t2 table
      then match rd_records rd' with
           | Some recs => nth_error recs n2
           | None => None
           end
      else payload_record p t2 n2.
Proof.
  intros Hp t2 n2. unfold payload_record.
  destruct (String.eqb t2 table) eqn:E.
  - apply String.eqb_eq in E. subst. now rewrite dict_get_set_same.
  - apply String.eqb_neq in E. now rewrite dict_get_set_other.
Qed.

Lemma dict_set_keys_existing {A} (k : string) (v v0 : A) (d : dict A) :
  dict_get k d = Some v0 -> dict_keys (dict_set k v d) = dict_keys d.
Proof.
  induction d as [|[k' v'] d IH]; simpl; [discriminate|].
  destruct (String.eqb k k') eqn:E; simpl.
  - apply String.eqb_eq in E. now subst.
  - intros H. now rewrite IH.
Qed.

Variable user : value.
Variable sfx : option string.

(** X3: an upload whose key names an existing record is bound into it: the
    property [<table>__<field>] of that record becomes the reference to the
    saved slug, with an audit suffix configured its audit property becomes
    the user and is registered as internal, and every other property,
    record and table of the payload is as before. The index may be negative
    and then counts from the end of the records. *)
Theorem upload_binds_reference :
  forall (t f i slug : string) (p : payload) (internal : list string)
         (rd : rel_data) (recs : list record) (z : Z) (n : nat),
    splittable t = true -> splittable f = true -> splittable i = true ->
    let table := PyStr.lstrip "file:" t in
    let field_key := table ++ "__" ++ f in
    dict_get table p = Some rd ->
    rd_records rd = Some recs ->
    py_int i = Some z ->
    py_index recs z = Some n ->
    exists p' internal' r r',
      bind_relation_upload user sfx py_int
        ("file:" ++ t ++ "__" ++ f ++ "__" ++ i) slug (p, internal)
      = Ok (p', internal')
      /\ nth_error recs n = Some r
      /\ Z.of_nat n = (if z <? 0 then z + Z.of_nat (length recs) else z)
      /\ payload_record p' table n = Some r'
      /\ dict_get field_key r' = Some (VStr ("attachment://" ++ slug))
      /\ match suffix_truthy sfx with
         | Some s =>
             dict_get (field_key ++ "__" ++ s) r' = Some user
             /\ internal' = (internal ++ [(field_key ++ "__" ++ s)%string])%list
             /\ forall k, k <> field_key -> k <> field_key ++ "__" ++ s ->
                          dict_get k r' = dict_get k r
         | None =>
             internal' = internal
             /\ forall k, k <> field_key -> dict_get k r' = dict_get k r
         end
      /\ (forall t2 n2, t2 <> table \/ n2 <> n ->
                        payload_record p' t2 n2 = payload_record p t2 n2)
      /\ dict_keys p' = dict_keys p.
Proof.
  intros t f i slug p internal rd recs z n Ht Hf Hi table field_key
         Hp Hr Hz Hn.
  destruct (py_index_bound _ _ _ Hn) as [_ Hpos].
  unfold bind_relation_upload.
  rewrite (upload_key_parts t f i Ht Hf Hi). cbn [nth_error].
  fold table. fold field_key.
  destruct (set_record_field_ok p table i field_key
              (VStr ("attachment://" ++ slug)) rd recs z n Hp Hr Hz Hn)
    as (r & Hnth & ->).
  set (r1 := dict_set field_key (VStr ("attachment://" ++ slug)) r).
  set (rd1 := mkRelData (rd_fk rd) (Some (list_set n r1 recs))).
  assert (Hframe1 : forall t2 n2, t2 <> table \/ n2 <> n ->
            payload_record (dict_set table rd1 p) t2 n2 = payload_record p t2 n2).
  { intros t2 n2 Hne. rewrite (payload_record_set p table rd rd1 Hp).
    destruct (String.eqb t2 table) eqn:E; [|reflexivity].
    apply String.eqb_eq in E. subst t2.
    destruct Hne as [Hne|Hne]; [congruence|].
    unfold payload_record. rewrite Hp, Hr. cbn [rd1 rd_records].
    apply nth_error_list_set_other. congruence. }
  destruct (suffix_truthy sfx) as [s|] eqn:Hs.
  - assert (Hassoc : table ++ "__" ++ f ++ "__" ++ s = field_key ++ "__" ++ s).
    { unfold field_key. now rewrite !append_assoc. }
    rewrite Hassoc.
    destruct (set_record_field_ok (dict_set table rd1 p) table i
                (field_key ++ "__" ++ s) user rd1 (list_set n r1 recs) z n)
      as (r1' & Hnth1 & ->).
    + apply dict_get_set_same.
    + reflexivity.
    + exact Hz.
    + now rewrite py_index_list_set.
    + assert (Hr1 : Some r1' = Some r1).
      { rewrite <- Hnth1. eapply nth_error_list_set_same; eauto. }
      injection Hr1 as ->. clear Hnth1.
      set (r2 := dict_set (field_key ++ "__" ++ s) user r1).
      exists (dict_set table
                (mkRelData (rd_fk rd1) (Some (list_set n r2 (list_set n r1 recs))))
                (dict_set table rd1 p)),
             (internal ++ [(field_key ++ "__" ++ s)%string])%list, r, r2.
      split; [reflexivity|]. split; [exact Hnth|]. split; [exact Hpos|]. split.
      { unfold payload_record. rewrite dict_get_set_same. cbn [rd_records].
        eapply nth_error_list_set_same.
        eapply nth_error_list_set_same; eauto. }
      split.
      { unfold r2. rewrite dict_get_set_other by apply audit_field_differs.
        apply dict_get_set_same. }
      split.
      { split; [apply dict_get_set_same|]. split; [reflexivity|].
        intros k Hk1 Hk2. unfold r2, r1.
        now rewrite !dict_get_set_other by assumption. }
      split.
      { intros t2 n2 Hne.
        rewrite (payload_record_set (dict_set table rd1 p) table rd1 _
                   (dict_get_set_same _ _ _)).
        destruct (String.eqb t2 table) eqn:E.
        - apply String.eqb_eq in E. subst t2.
          destruct Hne as [Hne|Hne]; [congruence|].
          cbn [rd_records].
          rewrite nth_error_list_set_other by congruence.
          rewrite <- (Hframe1 table n2) by now right.
          unfold payload_record. now rewrite dict_get_set_same.
        - apply Hframe1. apply String.eqb_neq in E. now left. }
      rewrite (dict_set_keys_existing table _ rd1) by apply dict_get_set_same.
      eapply dict_set_keys_existing; eauto.
  - exists (dict_set table rd1 p), internal, r, r1.
    split; [reflexivity|]. split; [exact Hnth|]. split; [exact Hpos|]. split.
    { unfold payload_record. rewrite dict_get_set_same. cbn [rd1 rd_records].
      eapply nth_error_list_set_same; eauto. }
    split; [apply dict_get_set_same|]. split.
    { split; [reflexivity|]. intros k Hk. unfold r1.
      now rewrite dict_get_set_other. }
    split; [exact Hframe1|].
    eapply dict_set_keys_existing; eauto.
Qed.

End BindFacts.

(** ** The multipart handlers around the save loop *)

Lemma disk_has_add_same (slug : string) (disk : list string) :
  disk_has slug (disk_add slug disk) = true.
Proof.
  unfold disk_add. destruct (disk_has slug disk) eqn:E; [exact E|].
  unfold disk_has. simpl. now rewrite String.eqb_refl.
Qed.

Lemma disk_has_add_keeps (slug other : string) (disk : list string) :
  disk_has slug disk = true -> disk_has slug (disk_add other disk) = true.
Proof.
  intros H. unfold disk_add. destruct (disk_has other disk); [exact H|].
  unfold disk_has in *. simpl. rewrite H. apply orb_true_r.
Qed.

Lemma add_saved_keeps (slug : string) (files : dict filedata) :
  forall disk,
    disk_has slug disk = true -> disk_has slug (add_saved files disk) = true.
Proof.
  induction files as [|[k fd] files IH]; intros disk H; [exact H|].
  unfold add_saved in *. cbn [fold_left snd]. apply IH.
  destruct (fd_slug fd); [now apply disk_has_add_keeps | exact H].
Qed.

Lemma add_saved_has (slug : string) (files : dict filedata) :
  forall disk,
    In slug (saved_slugs files) ->
    disk_has slug (add_saved files disk) = true.
Proof.
  induction files as [|[k fd] files IH]; intros disk Hin; [contradiction|].
  cbn [saved_slugs flat_map snd] in Hin.
  unfold add_saved. cbn [fold_left snd]. fold (add_saved files).
  apply in_app_or in Hin as [Hin|Hin].
  - apply add_saved_keeps.
    unfold slug_truthy in Hin. destruct (fd_slug fd) as [s|]; [|contradiction].
    destruct (PyStr.nonempty s); [|contradiction].
    destruct Hin as [->|[]]. apply disk_has_add_same.
  - now apply IH.
Qed.

Section SaveWorld.
Context {S St : Type}.
Variable bind_ref : string -> string -> St -> outcome St.

(** The world the save loop leaves when it completes and when a binding
    raises: in both cases nothing was removed. *)
Lemma save_attachments_world (files : dict filedata) :
  forall saved st (w : world S) o w',
    save_attachments bind_ref files saved st w = (o, w') ->
    w_store w' = w_store w
    /\ match o with
       | Ok (saved', _) =>
           saved' = fold_left record_saved files saved
           /\ Forall save_ok files
           /\ w_disk w' = add_saved files (w_disk w)
           /\ w_log w' = (w_log w ++ map save_event files)%list
       | Raise _ =>
           exists pre post,
             files = (pre ++ post)%list /\ pre <> []
             /\ Forall save_ok pre
             /\ w_disk w' = add_saved pre (w_disk w)
             /\ w_log w' = (w_log w ++ map save_event pre)%list
       | Abort _ _ => True
       end.
Proof.
  induction files as [|[key fd] files IH]; intros saved st w o w' H.
  - injection H as <- <-. split; [reflexivity|].
    split; [reflexivity|]. split; [constructor|]. split; [reflexivity|].
    simpl. now rewrite app_nil_r.
  - cbn [save_attachments] in H. unfold bind at 1 in H.
    cbn [save_attachment] in H.
    destruct (slug_truthy (fd_slug fd)) as [slug|] eqn:Hslug.
    + assert (Hok : save_ok (key, fd)).
      { unfold save_ok. cbn [snd]. congruence. }
      assert (Hs : fd_slug fd = Some slug).
      { unfold slug_truthy in Hslug. destruct (fd_slug fd) as [s|]; [|discriminate].
        destruct (PyStr.nonempty s); now inversion Hslug. }
      unfold bind at 1, lift in H.
      destruct (bind_ref key slug st) as [st1|c m|e] eqn:Hb.
      * apply IH in H as [Hst H]. split; [exact Hst|].
        destruct o as [[saved' st']|c m|e]; [| exact I |].
        -- destruct H as (-> & Hall & Hdisk & Hlog).
           assert (Hrs : record_saved saved (key, fd) = dict_set key slug saved).
           { unfold record_saved. cbn [fst snd]. now rewrite Hslug. }
           cbn [fold_left]. rewrite Hrs.
           split; [reflexivity|]. split; [now constructor|].
           split.
           ++ rewrite Hdisk. cbn [w_disk]. unfold add_saved. cbn [fold_left snd].
              now rewrite Hs.
           ++ rewrite Hlog. cbn. now rewrite <- app_assoc.
        -- destruct H as (pre & post & -> & _ & Hall & Hdisk & Hlog).
           exists ((key, fd) :: pre), post.
           split; [reflexivity|]. split; [discriminate|].
           split; [now constructor|]. split.
           ++ rewrite Hdisk. cbn [w_disk]. unfold add_saved. cbn [fold_left snd].
              now rewrite Hs.
           ++ rewrite Hlog. cbn. now rewrite <- app_assoc.
      * injection H as <- <-. split; [reflexivity | exact I].
      * injection H as <- <-. split; [reflexivity|].
        exists [(key, fd)], files. split; [reflexivity|]. split; [discriminate|].
        split; [now constructor|]. cbn. split; [now rewrite Hs | reflexivity].
    + unfold bind at 1 in H. rewrite remove_all_run in H.
      injection H as <- <-. split; [reflexivity | exact I].
Qed.

End SaveWorld.

Lemma validate_all_valid {S : Type} (files : dict filedata) (w : world S) :
  Forall (fun kf => fd_valid (snd kf) = true) files ->
  validate_attachments files w = (Ok tt, w).
Proof.
  induction 1 as [|[k fd] files Hv _ IH]; [reflexivity|].
  cbn [validate_attachments]. unfold validate_attachment.
  cbn [snd] in Hv. now rewrite Hv.
Qed.

Lemma validate_first_invalid {S : Type} (pre post : dict filedata)
    (key : string) (fd : filedata) (w : world S) :
  Forall (fun kf => fd_valid (snd kf) = true) pre ->
  fd_valid fd = false ->
  validate_attachments (pre ++ (key, fd) :: post)%list w
  = (Abort 404 (VStr ("Attachment validation failed: " ++ key)), w).
Proof.
  intros Hpre Hfd. induction Hpre as [|[k f] pre Hv _ IH].
  - cbn. unfold validate_attachment. now rewrite Hfd.
  - cbn [app validate_attachments]. unfold validate_attachment.
    cbn [snd] in Hv. now rewrite Hv.
Qed.

Lemma saved_slugs_source (slug : string) (files : dict filedata) :
  In slug (saved_slugs files) ->
  exists key fd, In (key, fd) files /\ fd_slug fd = Some slug.
Proof.
  induction files as [|[k fd] files IH]; [contradiction|].
  cbn [saved_slugs flat_map snd]. intros Hin.
  apply in_app_or in Hin as [Hin|Hin].
  - unfold slug_truthy in Hin. destruct (fd_slug fd) as [s|] eqn:E; [|contradiction].
    destruct (PyStr.nonempty s); [|contradiction].
    destruct Hin as [->|[]]. exists k, fd. split; [now left | exact E].
  - destruct (IH Hin) as (key & fd' & H1 & H2).
    exists key, fd'. split; [now right | exact H2].
Qed.

Section Gates.
Context {S : Type}.
Variable RS : RecordStore S.
Variable user : value.
Variable sfx : option string.
Variable py_int : string -> option Z.

(** X4: when binding an upload of a relation batch raises (its key names
    no record of the payload), the request ends with that exception right
    there: the files saved so far, the unbound one included, are not removed
    and stay on disk, and the Record Store has not been called. *)
Theorem bind_failure_leaves_saved_files :
  forall (dataset : string) (id : Z) (p : payload) (files : dict filedata)
         (w w1 : world S) (e : exn),
    rs_is_editable RS (w_store w) dataset id = true ->
    Forall (fun kf => fd_valid (snd kf) = true) files ->
    save_attachments (bind_relation_upload user sfx py_int) files [] (p, []) w
    = (Raise e, w1) ->
    relations_post RS user sfx py_int dataset id (Some p) files w = (Raise e, w1)
    /\ exists pre post,
         files = (pre ++ post)%list /\ pre <> []
         /\ w_log w1 = (w_log w ++ map save_event pre)%list
         /\ (forall s, In s (saved_slugs pre) -> disk_has s (w_disk w1) = true)
         /\ w_store w1 = w_store w.
Proof.
  intros dataset id p files w w1 e Hed Hvalid Hsave. split.
  - unfold relations_post, bind at 1, is_editable. rewrite Hed. cbn [negb].
    rewrite (bind_ok _ _ _ _ _ (validate_all_valid files w Hvalid)).
    now rewrite (bind_raise _ _ _ _ _ Hsave).
  - apply save_attachments_world in Hsave as [Hst Hsave].
    destruct Hsave as (pre & post & Hfiles & Hne & _ & Hdisk & Hlog).
    exists pre, post. repeat split; try assumption.
    intros s Hs. rewrite Hdisk. now apply add_saved_has.
Qed.

(** X5: a request that is refused before the save loop has no effect. In
    the three multipart handlers the first upload that fails validation
    ends the request with its key in the message before any file is saved;
    a relation batch whose payload is no object, or whose parent is not
    editable, is refused likewise. The world is unchanged in each case. *)
Theorem refused_request_has_no_effect :
  forall (dataset : string) (id : Z) (w : world S),
    (forall files, relations_post RS user sfx py_int dataset id None files w
                   = (Abort 400 (VStr "JSON is not an object"), w))
    /\ (forall p files,
          rs_is_editable RS (w_store w) dataset id = false ->
          relations_post RS user sfx py_int dataset id (Some p) files w
          = (Abort 404 (VStr "Dataset or feature not found or permission error"),
             w))
    /\ forall pre key fd post,
         Forall (fun kf => fd_valid (snd kf) = true) pre ->
         fd_valid fd = false ->
         let files := (pre ++ (key, fd) :: post)%list in
         let message := VStr ("Attachment validation failed: " ++ key) in
         (forall p,
             rs_is_editable RS (w_store w) dataset id = true ->
             relations_post RS user sfx py_int dataset id (Some p) files w
             = (Abort 404 message, w))
         /\ (forall feat,
             create_feature_multipart RS user sfx dataset (Some feat) files w
             = (Abort 404 message, w))
         /\ (forall feat,
             edit_feature_multipart RS user sfx dataset id (Some feat) files w
             = (Abort 404 message, w)).
Proof.
  intros dataset id w. split; [reflexivity|]. split.
  - intros p files Hed. unfold relations_post, bind at 1, is_editable.
    now rewrite Hed.
  - intros pre key fd post Hpre Hfd files message.
    pose proof (validate_first_invalid pre post key fd w Hpre Hfd) as Hv.
    fold files in Hv. split; [|split].
    + intros p Hed. unfold relations_post, bind at 1, is_editable.
      rewrite Hed. cbn [negb]. now rewrite (bind_abort _ _ _ _ _ _ Hv).
    + intros feat. unfold create_feature_multipart.
      now rewrite (bind_abort _ _ _ _ _ _ Hv).
    + intros feat. unfold edit_feature_multipart.
      now rewrite (bind_abort _ _ _ _ _ _ Hv).
Qed.

End Gates.

(** ** The answer of the single-record handlers *)

Lemma error_code_nonzero (res : result) : error_code res <> 0.
Proof.
  unfold error_code. destruct (r_error_code res) as [c|]; [|discriminate].
  destruct (Z.eqb c 0) eqn:E; [discriminate|]. now apply Z.eqb_neq in E.
Qed.

Lemma name_mem_add_same (k : string) (l : list string) :
  name_mem k (name_add k l) = true.
Proof.
  unfold name_add. destruct (name_mem k l) eqn:E; [exact E|].
  unfold name_mem. rewrite existsb_app. simpl.
  rewrite String.eqb_refl. now rewrite orb_true_r.
Qed.

Lemma name_mem_add_keeps (k k' : string) (l : list string) :
  name_mem k l = true -> name_mem k (name_add k' l) = true.
Proof.
  intros H. unfold name_add. destruct (name_mem k' l); [exact H|].
  unfold name_mem in *. rewrite existsb_app. now rewrite H.
Qed.

(** No internal field is left in the stripped properties. *)
Lemma strip_internal_hides (internal : list string) (props : dict value)
    (k : string) :
  name_mem k internal = true ->
  dict_get k (strip_internal internal props) = None.
Proof.
  intros Hk. unfold strip_internal.
  assert (H : forall acc, dict_get k acc = None ->
            dict_get k
              (fold_left
                 (fun d kv => if name_mem (fst kv) internal then d
                              else dict_set (fst kv) (snd kv) d) props acc)
            = None).
  { induction props as [|[k0 v0] props IH]; intros acc Hacc; [exact Hacc|].
    cbn [fold_left fst snd]. apply IH.
    destruct (name_mem k0 internal) eqn:E; [exact Hacc|].
    rewrite dict_get_set_other; [exact Hacc|]. intros ->. congruence. }
  now apply H.
Qed.

Section WriteAnswer.
Context {S : Type}.
Variable RS : RecordStore S.
Variable user : value.
Variable sfx : option string.

Lemma finish_write_abort saved internal res (w w' : world S) c m :
  finish_write saved internal res w = (Abort c m, w') ->
  r_error res = Some m /\ c = error_code res
  /\ w' = mkWorld (w_store w) (remove_slugs (dict_values saved) (w_disk w))
                  (w_log w ++ map EvRemove (dict_values saved)).
Proof.
  unfold finish_write. destruct (r_error res) as [err|].
  - rewrite (bind_ok _ _ _ _ _ (remove_all_run _ w)).
    unfold abort. intros [= <- <- <-]. now repeat split.
  - destruct (r_feature res); discriminate.
Qed.

Lemma finish_write_ok saved internal res (w w' : world S) f :
  finish_write saved internal res w = (Ok f, w') ->
  w' = w /\ r_error res = None
  /\ exists f0, r_feature res = Some f0
                /\ f = mkFeature (f_id f0) (strip_internal internal (f_props f0)).
Proof.
  unfold finish_write. destruct (r_error res) as [err|].
  - rewrite (bind_ok _ _ _ _ _ (remove_all_run _ w)). discriminate.
  - destruct (r_feature res) as [f0|]; [|discriminate].
    unfold ret. intros [= <- <-]. repeat split. now exists f0.
Qed.

Lemma bind_feature_upload_ok key slug feat internal :
  exists feat' internal',
    bind_feature_upload user sfx key slug (feat, internal) = Ok (feat', internal')
    /\ (forall k, name_mem k internal = true -> name_mem k internal' = true)
    /\ (forall s, suffix_truthy sfx = Some s ->
                  name_mem (PyStr.lstrip "file:" key ++ "__" ++ s) internal' = true).
Proof.
  unfold bind_feature_upload. destruct (suffix_truthy sfx) as [s|].
  - eexists. eexists. split; [reflexivity|]. split.
    + intros k Hk. now apply name_mem_add_keeps.
    + intros s' [= <-]. apply name_mem_add_same.
  - eexists. eexists. split; [reflexivity|]. split; [auto | discriminate].
Qed.

(** The save loop of the single-record handlers registers the audit field
    of every upload as internal. *)
Lemma save_features_internal (files : dict filedata) :
  forall saved feat internal (w w' : world S) saved' feat' internal',
    save_attachments (bind_feature_upload user sfx) files saved
      (feat, internal) w = (Ok (saved', (feat', internal')), w') ->
    (forall k, name_mem k internal = true -> name_mem k internal' = true)
    /\ (forall key s, In key (dict_keys files) ->
                      suffix_truthy sfx = Some s ->
                      name_mem (PyStr.lstrip "file:" key ++ "__" ++ s) internal'
                      = true).
Proof.
  induction files as [|[key fd] files IH];
    intros saved feat internal w w' saved' feat' internal' H.
  - injection H as _ _ <- _. split; [auto | intros ? ? []].
  - cbn [save_attachments] in H. unfold bind at 1 in H.
    cbn [save_attachment] in H.
    destruct (slug_truthy (fd_slug fd)) as [slug|].
    + destruct (bind_feature_upload_ok key slug feat internal)
        as (feat1 & internal1 & Hb & Hkeep & Haudit).
      unfold bind at 1, lift in H. rewrite Hb in H.
      apply IH in H as [Hkeep' Haudit']. split.
      * intros k Hk. apply Hkeep', Hkeep, Hk.
      * intros key' s [<-|Hin] Hs.
        -- apply Hkeep'. now apply Haudit.
        -- now apply Haudit'.
    + unfold bind at 1 in H. rewrite remove_all_run in H. discriminate H.
Qed.

(** Binding an upload into a feature cannot fail, so the save loop of the
    single-record handlers never raises. *)
Lemma save_features_never_raise (files : dict filedata) :
  forall saved st (w w' : world S) e,
    save_attachments (bind_feature_upload user sfx) files saved st w
    <> (Raise e, w').
Proof.
  induction files as [|[key fd] files IH]; intros saved st w w' e H;
    [discriminate H|].
  cbn [save_attachments] in H. unfold bind at 1 in H.
  cbn [save_attachment] in H.
  destruct (slug_truthy (fd_slug fd)) as [slug|].
  - destruct st as [feat internal].
    destruct (bind_feature_upload_ok key slug feat internal)
      as (f1 & i1 & Hb & _).
    unfold bind at 1, lift in H. rewrite Hb in H. now apply IH in H.
  - unfold bind at 1 in H. rewrite remove_all_run in H. discriminate H.
Qed.

Lemma edit_key_internal prev key props internal (w w' : world S) props' internal' :
  edit_key user sfx prev key (props, internal) w = (Ok (props', internal'), w') ->
  forall k, name_mem k internal = true -> name_mem k internal' = true.
Proof.
  unfold edit_key. intros H k Hk.
  destruct (dict_get key prev) as [pv|]; [|now injection H as _ <- _].
  destruct (truthy pv && is_attachment pv)%bool; [|now injection H as _ <- _].
  destruct (dict_get key props) as [fv|]; [|discriminate H].
  destruct (negb (py_eq fv pv)); [|now injection H as _ <- _].
  destruct pv as [| | |s|]; try discriminate H.
  unfold bind at 1 in H. cbn [remove_attachment] in H.
  destruct (suffix_truthy sfx).
  - injection H as _ <- _. now apply name_mem_add_keeps.
  - now injection H as _ <- _.
Qed.

Lemma edit_keys_internal prev keys :
  forall props internal (w w' : world S) props' internal',
    edit_keys user sfx prev keys (props, internal) w
    = (Ok (props', internal'), w') ->
    forall k, name_mem k internal = true -> name_mem k internal' = true.
Proof.
  induction keys as [|key keys IH]; intros props internal w w' props' internal' H.
  - now injection H as _ <- _.
  - cbn [edit_keys] in H.
    apply bind_ok_inv in H as ([props1 internal1] & w1 & H1 & H).
    intros k Hk. eapply IH; eauto. eapply edit_key_internal; eauto.
Qed.

Lemma never_aborts_edit_key prev key st :
  never_aborts (edit_key (S := S) user sfx prev key st).
Proof.
  unfold edit_key. destruct st as [props internal].
  destruct (dict_get key prev) as [pv|]; [|apply never_aborts_ret].
  destruct (truthy pv && is_attachment pv)%bool; [|apply never_aborts_ret].
  destruct (dict_get key props) as [fv|]; [|apply never_aborts_raise].
  destruct (negb (py_eq fv pv)); [|apply never_aborts_ret].
  destruct pv; try apply never_aborts_raise.
  apply never_aborts_bind; [apply never_aborts_remove|].
  intros _. destruct (suffix_truthy sfx); apply never_aborts_ret.
Qed.

Lemma never_aborts_edit_keys prev keys :
  forall st, never_aborts (edit_keys (S := S) user sfx prev keys st).
Proof.
  induction keys as [|key keys IH]; intros st; [apply never_aborts_ret|].
  cbn [edit_keys]. apply never_aborts_bind.
  - apply never_aborts_edit_key.
  - intros a. apply IH.
Qed.

(** The stored-record part of [EditFeatureMultipart.put] never ends in a
    client error. *)
Lemma never_aborts_edit_diff (prev : option result) feat internal :
  never_aborts
    (match prev with
     | None => ret (S := S) (f_props feat, internal)
     | Some prev =>
         match r_feature prev with
         | None => raise KeyError
         | Some prev_feature =>
             edit_keys user sfx (f_props prev_feature)
               (dict_keys (f_props feat)) (f_props feat, internal)
         end
     end).
Proof.
  destruct prev as [prev|]; [|apply never_aborts_ret].
  destruct (r_feature prev); [apply never_aborts_edit_keys|apply never_aborts_raise].
Qed.

(** X6: when the Record Store refuses the write of a single-record
    multipart create or update whose uploads were all saved, the request
    ends with the store's error under a non-zero status code, and every
    slug saved in the call has been removed: none of the uploads is left on
    disk. For the create the calls are exactly the saves, the create and
    the removals. *)
Theorem refused_write_removes_uploads :
  forall (dataset : string) (id : Z) (feat : feature) (files : dict filedata)
         (w w' : world S) (c : Z) (m : value),
    NoDup (dict_keys files) ->
    Forall (fun kf => fd_valid (snd kf) = true) files ->
    Forall save_ok files ->
    (create_feature_multipart RS user sfx dataset (Some feat) files w
     = (Abort c m, w') ->
     (forall s, In s (saved_slugs files) -> disk_has s (w_disk w') = false)
     /\ c <> 0
     /\ exists feat' internal',
          r_error (fst (rs_create RS (w_store w) dataset feat' internal'))
          = Some m
          /\ w_log w'
             = (w_log w ++ map save_event files
                  ++ [EvCreate dataset feat' internal']
                  ++ map EvRemove (saved_slugs files))%list)
    /\ (edit_feature_multipart RS user sfx dataset id (Some feat) files w
        = (Abort c m, w') ->
        (forall s, In s (saved_slugs files) -> disk_has s (w_disk w') = false)
        /\ c <> 0).
Proof.
  intros dataset id feat files w w' c m Hnd Hvalid Hok.
  assert (Hvals : dict_values (fold_left record_saved files []) = saved_slugs files).
  { rewrite saved_values; [reflexivity | exact Hnd | intros ? ? []]. }
  assert (Hsave : forall o w1,
             save_attachments (bind_feature_upload user sfx) files []
               (feat, []) w = (o, w1) ->
             exists st,
               o = Ok (fold_left record_saved files [], st)
               /\ w_store w1 = w_store w
               /\ w_log w1 = (w_log w ++ map save_event files)%list).
  { intros o w1 H.
    pose proof (save_attachments_run _ (bind_feature_upload_no_abort user sfx)
                  _ _ _ _ _ _ H) as [_ Hrun].
    pose proof (save_attachments_world _ _ _ _ _ _ _ H) as [Hst Hworld].
    destruct o as [[saved' st']|c1 m1|e].
    - destruct Hworld as (-> & _ & _ & Hlog). exists st'.
      repeat split; assumption.
    - destruct Hrun as (pre & key & fd & post & Hfiles & _ & Hf & _).
      rewrite Forall_forall in Hok.
      assert (Hin : In (key, fd) files) by (rewrite Hfiles; apply in_elt).
      apply Hok in Hin. unfold save_ok in Hin. cbn [snd] in Hin. contradiction.
    - exfalso. now apply save_features_never_raise in H. }
  split.
  - intros H. unfold create_feature_multipart in H.
    rewrite (bind_ok _ _ _ _ _ (validate_all_valid files w Hvalid)) in H.
    unfold bind at 1 in H.
    destruct (save_attachments _ files [] (feat, []) w) as [o w1] eqn:E.
    destruct (Hsave o w1 eq_refl) as ([feat' internal'] & -> & Hst & Hlog).
    rewrite (bind_ok _ _ _ _ _ (create_run RS dataset feat' internal' w1)) in H.
    apply finish_write_abort in H as (Herr & -> & ->).
    cbn [w_disk w_log w_store]. rewrite Hvals. split.
    { intros s Hs. now apply remove_slugs_gone. }
    split; [apply error_code_nonzero|].
    exists feat', internal'. rewrite <- Hst. split; [exact Herr|].
    rewrite Hlog. now rewrite <- !app_assoc.
  - intros H. unfold edit_feature_multipart in H.
    rewrite (bind_ok _ _ _ _ _ (validate_all_valid files w Hvalid)) in H.
    unfold bind at 1 in H.
    destruct (save_attachments _ files [] (feat, []) w) as [o w1] eqn:E.
    destruct (Hsave o w1 eq_refl) as ([feat' internal'] & -> & Hst & Hlog).
    rewrite (bind_ok _ _ _ _ _ (show_run RS dataset (VInt id) w1)) in H.
    unfold bind at 1 in H.
    match type of H with
    | (match ?m ?w0 with _ => _ end) = _ =>
        destruct (m w0) as [[[props2 internal2]|c2 m2|e2] w2] eqn:E2
    end.
    + rewrite (bind_ok _ _ _ _ _ (update_run RS dataset (VInt id) _ _ w2)) in H.
      apply finish_write_abort in H as (Herr & -> & ->).
      cbn [w_disk]. rewrite Hvals. split.
      * intros s Hs. now apply remove_slugs_gone.
      * apply error_code_nonzero.
    + exfalso. revert E2. apply never_aborts_edit_diff.
    + discriminate H.
Qed.

(** X7: a single-record multipart create that succeeds has saved every
    upload and removed nothing: each saved slug is on disk afterwards, and
    the calls are the saves, in the order of the request, followed by the
    one create. *)
Theorem successful_create_keeps_uploads :
  forall (dataset : string) (feat : option feature) (files : dict filedata)
         (w w' : world S) (f : feature),
    create_feature_multipart RS user sfx dataset feat files w = (Ok f, w') ->
    Forall save_ok files
    /\ (forall s, In s (saved_slugs files) -> disk_has s (w_disk w') = true)
    /\ exists feat' internal',
         w_log w'
         = (w_log w ++ map save_event files
              ++ [EvCreate dataset feat' internal'])%list.
Proof.
  intros dataset feat files w w' f H.
  unfold create_feature_multipart in H.
  destruct feat as [feat|]; [|discriminate H].
  apply bind_ok_inv in H as (u & w0 & Hv & H).
  destruct (validate_attachments_run files w) as [Hv'|[k Hv']];
    rewrite Hv' in Hv; [|discriminate Hv].
  injection Hv as _ <-.
  apply bind_ok_inv in H as ([saved [feat' internal']] & w1 & Hsave & H).
  apply save_attachments_world in Hsave as (Hst & _ & Hall & Hdisk & Hlog).
  apply bind_ok_inv in H as (res & w2 & Hc & H).
  rewrite create_run in Hc. injection Hc as _ <-.
  apply finish_write_ok in H as (-> & _).
  cbn [w_disk w_log]. split; [exact Hall|]. split.
  - intros s Hs. rewrite Hdisk. now apply add_saved_has.
  - exists feat', internal'. rewrite Hlog. now rewrite <- app_assoc.
Qed.

(** X8: the feature answered by a single-record multipart create or update
    holds none of the internal fields passed to the Record Store with the
    write, and with an audit suffix configured the audit field of every
    upload is among them: the audit fields are written but never
    returned. *)
Theorem write_answer_hides_internal_fields :
  forall (dataset : string) (id : Z) (feat : option feature)
         (files : dict filedata) (w w' : world S) (f : feature),
    (create_feature_multipart RS user sfx dataset feat files w = (Ok f, w') ->
     exists feat' internal',
       In (EvCreate dataset feat' internal') (w_log w')
       /\ (forall k, name_mem k internal' = true -> dict_get k (f_props f) = None)
       /\ (forall key s, In key (dict_keys files) ->
                         suffix_truthy sfx = Some s ->
                         name_mem (PyStr.lstrip "file:" key ++ "__" ++ s) internal'
                         = true))
    /\ (edit_feature_multipart RS user sfx dataset id feat files w = (Ok f, w') ->
        exists feat' internal',
          In (EvUpdate dataset (VInt id) feat' internal') (w_log w')
          /\ (forall k, name_mem k internal' = true -> dict_get k (f_props f) = None)
          /\ (forall key s, In key (dict_keys files) ->
                            suffix_truthy sfx = Some s ->
                            name_mem (PyStr.lstrip "file:" key ++ "__" ++ s)
                              internal' = true)).
Proof.
  intros dataset id feat files w w' f. split.
  - intros H. unfold create_feature_multipart in H.
    destruct feat as [feat|]; [|discriminate H].
    apply bind_ok_inv in H as (u & w0 & _ & H).
    apply bind_ok_inv in H as ([saved [feat' internal']] & w1 & Hsave & H).
    apply save_features_internal in Hsave as [_ Haudit].
    apply bind_ok_inv in H as (res & w2 & Hc & H).
    rewrite create_run in Hc. injection Hc as _ <-.
    apply finish_write_ok in H as (-> & _ & f0 & _ & ->).
    exists feat', internal'. cbn [w_log f_props]. split.
    + apply in_or_app. right. now left.
    + split; [|exact Haudit]. intros k Hk. now apply strip_internal_hides.
  - intros H. unfold edit_feature_multipart in H.
    destruct feat as [feat|]; [|discriminate H].
    apply bind_ok_inv in H as (u & w0 & _ & H).
    apply bind_ok_inv in H as ([saved [feat' internal']] & w1 & Hsave & H).
    apply save_features_internal in Hsave as [_ Haudit].
    apply bind_ok_inv in H as (prev & w2 & _ & H).
    apply bind_ok_inv in H as ([props2 internal2] & w3 & Hdiff & H).
    apply bind_ok_inv in H as (res & w4 & Hu & H).
    rewrite update_run in Hu. injection Hu as _ <-.
    apply finish_write_ok in H as (-> & _ & f0 & _ & ->).
    assert (Hmono : forall k, name_mem k internal' = true ->
                              name_mem k internal2 = true).
    { destruct prev as [prev|].
      - destruct (r_feature prev); [|discriminate Hdiff].
        eapply edit_keys_internal; eauto.
      - injection Hdiff as _ <- _. auto. }
    exists (mkFeature (f_id feat') props2), internal2. cbn [w_log f_props]. split.
    + apply in_or_app. right. now left.
    + split.
      * intros k Hk. now apply strip_internal_hides.
      * intros key s Hkey Hs. apply Hmono. now apply Haudit.
Qed.

End WriteAnswer.

(** ** The encoding of child records *)

Lemma append_cancel_l (p a b : string) : p ++ a = p ++ b -> a = b.
Proof.
  induction p as [|c p IH]; simpl; intros H; [exact H|].
  injection H as H. now apply IH.
Qed.

Lemma prefixed_not_id (t k : string) : t ++ "__" ++ k <> "id".
Proof.
  destruct t as [|c t]; [discriminate|].
  destruct t as [|c' t]; [discriminate|].
  destruct t as [|c'' t]; discriminate.
Qed.

Lemma id_not_prefixed (t : string) : PyStr.startswith (t ++ "__") "id" = false.
Proof.
  destruct (PyStr.startswith (t ++ "__") "id") eqn:E; [|reflexivity].
  apply startswith_split in E. rewrite append_assoc in E.
  symmetry in E. now apply prefixed_not_id in E.
Qed.

(** A fold of [dict_set] over entries with distinct fresh keys lists them
    in order. *)
Lemma fold_dict_set_map {A B : Type} (g : string -> string)
    (P : string * B -> bool) (h : B -> A)
    (step : dict A -> string * B -> dict A) :
  (forall d kv, step d kv
                = if P kv then dict_set (g (fst kv)) (h (snd kv)) d else d) ->
  (forall a b, g a = g b -> a = b) ->
  forall (l : list (string * B)) (acc : dict A),
    NoDup (map fst l) ->
    (forall kv, In kv l -> ~ In (g (fst kv)) (dict_keys acc)) ->
    fold_left step l acc
    = (acc ++ map (fun kv => (g (fst kv), h (snd kv))) (filter P l))%list.
Proof.
  intros Hstep Hinj. induction l as [|[k v] l IH]; intros acc Hnd Hfresh.
  - simpl. now rewrite app_nil_r.
  - cbn [map fst] in Hnd. inversion Hnd as [|? ? Hn Hd]; subst.
    cbn [fold_left filter]. rewrite Hstep.
    destruct (P (k, v)) eqn:Ep.
    + cbn [fst snd]. rewrite dict_set_fresh by (apply (Hfresh (k, v)); now left).
      rewrite IH.
      * cbn [map fst snd]. now rewrite <- app_assoc.
      * exact Hd.
      * intros kv Hkv Hin. unfold dict_keys in Hin. rewrite map_app in Hin.
        apply in_app_or in Hin as [Hin|[Hin|[]]].
        -- apply (Hfresh kv); [now right | exact Hin].
        -- cbn [fst] in Hin. apply Hinj in Hin. subst k.
           apply Hn. now apply in_map.
    + apply IH; [exact Hd|]. intros kv Hkv. apply Hfresh. now right.
Qed.

(** Un-prefixing entries that all carry the prefix. *)
Lemma entry_of_prefixed (p : string) (l : dict value) :
  forall acc,
    fold_left (entry_step p) (map (fun kv => (p ++ fst kv, snd kv)) l) acc
    = fold_left (fun d kv => dict_set (fst kv) (snd kv) d) l acc.
Proof.
  induction l as [|[k v] l IH]; intros acc; [reflexivity|].
  cbn [map fold_left fst snd]. rewrite IH. f_equal.
  unfold entry_step. cbn [fst snd]. now rewrite startswith_app, drop_app.
Qed.

Lemma filter_all {A} (l : list A) : filter (fun _ => true) l = l.
Proof. induction l as [|x l IH]; [reflexivity|]. cbn. now rewrite IH. Qed.

Lemma fold_dict_set_self (l : dict value) :
  NoDup (dict_keys l) ->
  fold_left (fun d kv => dict_set (fst kv) (snd kv) d) l [] = l.
Proof.
  intros Hnd.
  rewrite (fold_dict_set_map (fun k => k) (fun _ => true) (fun v => v));
    [| reflexivity | auto | exact Hnd | intros ? ? []].
  cbn [app]. rewrite filter_all. clear Hnd.
  induction l as [|[k v] l IH]; [reflexivity|].
  cbn [map fst snd]. now f_equal.
Qed.

Lemma filter_keys_nodup {A} (P : string * A -> bool) (l : dict A) :
  NoDup (dict_keys l) -> NoDup (dict_keys (filter P l)).
Proof.
  induction l as [|[k v] l IH]; intros Hnd; [constructor|].
  inversion Hnd as [|? ? Hn Hd]; subst. cbn [filter].
  destruct (P (k, v)); [|now apply IH].
  cbn. constructor; [|now apply IH].
  intros Hin. apply Hn. unfold dict_keys in *.
  apply in_map_iff in Hin as (x & Hx & Hin). apply filter_In in Hin as [Hin _].
  rewrite <- Hx. now apply in_map.
Qed.

Lemma committed_fields (rel_table : string) (props : dict value)
    (internal : list string) :
  NoDup (dict_keys props) ->
  fold_left
    (fun d kv =>
       if name_mem (fst kv) internal then d
       else dict_set (rel_table ++ "__" ++ fst kv) (snd kv) d) props []
  = map (fun kv => ((rel_table ++ "__") ++ fst kv, snd kv))
      (filter (fun kv => negb (name_mem (fst kv) internal)) props).
Proof.
  intros Hnd.
  rewrite (fold_dict_set_map (fun k => (rel_table ++ "__") ++ k)
             (fun kv => negb (name_mem (fst kv) internal)) (fun v => v));
    [reflexivity | | | exact Hnd | intros ? ? []].
  - intros d kv. rewrite append_assoc. now destruct (name_mem (fst kv) internal).
  - intros a b. apply append_cancel_l.
Qed.

Lemma strip_internal_filter (internal : list string) (props : dict value) :
  NoDup (dict_keys props) ->
  strip_internal internal props
  = filter (fun kv => negb (name_mem (fst kv) internal)) props.
Proof.
  intros Hnd. unfold strip_internal.
  rewrite (fold_dict_set_map (fun k => k)
             (fun kv => negb (name_mem (fst kv) internal)) (fun v => v));
    [| | auto | exact Hnd | intros ? ? []].
  - cbn [app]. induction (filter _ props) as [|[k v] l IH]; [reflexivity|].
    cbn [map fst snd]. now f_equal.
  - intros d kv. now destruct (name_mem (fst kv) internal).
Qed.

(** X9: the record that the batch answers for a committed feature decodes
    back to what was committed: un-prefixing it as the batch does with an
    incoming record yields the feature's properties without the internal
    fields, in their order; it carries the feature's id under [id] and no
    property of an internal field. *)
Theorem committed_record_round_trip :
  forall (rel_table : string) (f : feature) (internal : list string),
    NoDup (dict_keys (f_props f)) ->
    entry_properties (rel_table ++ "__") (committed_record rel_table f internal)
    = strip_internal internal (f_props f)
    /\ dict_get "id" (committed_record rel_table f internal) = Some (f_id f)
    /\ forall k, name_mem k internal = true ->
                 dict_get ((rel_table ++ "__") ++ k)
                   (committed_record rel_table f internal) = None.
Proof.
  intros rel_table f internal Hnd.
  unfold committed_record. rewrite (committed_fields _ _ _ Hnd).
  set (kept := filter (fun kv => negb (name_mem (fst kv) internal)) (f_props f)).
  set (fields := map (fun kv => ((rel_table ++ "__") ++ fst kv, snd kv)) kept).
  assert (Hfresh : ~ In "id" (dict_keys fields)).
  { unfold fields, dict_keys. rewrite map_map. cbn [fst].
    intros Hin. apply in_map_iff in Hin as (kv & Hkv & _).
    rewrite append_assoc in Hkv. now apply prefixed_not_id in Hkv. }
  split; [|split].
  - rewrite dict_set_fresh by exact Hfresh.
    unfold entry_properties. rewrite fold_left_app. cbn [fold_left].
    unfold entry_step at 1. cbn [fst snd]. rewrite id_not_prefixed.
    unfold fields. rewrite entry_of_prefixed.
    rewrite fold_dict_set_self by now apply filter_keys_nodup.
    now rewrite strip_internal_filter.
  - apply dict_get_set_same.
  - intros k Hk. rewrite dict_get_set_other.
    + apply dict_get_none_keys. unfold fields, dict_keys. rewrite map_map.
      cbn [fst]. intros Hin. apply in_map_iff in Hin as (kv & Hkv & Hin).
      apply append_cancel_l in Hkv. subst k.
      apply filter_In in Hin as [_ Hin]. rewrite Hk in Hin. discriminate Hin.
    + rewrite append_assoc. apply prefixed_not_id.
Qed.

(** X10: the record that [Relations.get] builds for a feature decodes back
    to the feature: un-prefixing it as the batch does with an incoming
    record yields the feature's properties, and [id] is the feature's id
    whatever the feature's properties are named. *)
Theorem relation_record_round_trip :
  forall (table : string) (f : feature),
    NoDup (dict_keys (f_props f)) ->
    entry_properties (table ++ "__") (relation_record table f) = f_props f
    /\ dict_get "id" (relation_record table f) = Some (f_id f)
    /\ forall k v, dict_get k (f_props f) = Some v ->
                   dict_get ((table ++ "__") ++ k) (relation_record table f)
                   = Some v.
Proof.
  intros table f Hnd. unfold relation_record.
  rewrite (fold_dict_set_map (fun k => (table ++ "__") ++ k) (fun _ => true)
             (fun v => v));
    [| reflexivity | intros a b; apply append_cancel_l | exact Hnd
     | intros ? ? []].
  cbn [app].
  rewrite filter_all.
  set (fields := map (fun kv => ((table ++ "__") ++ fst kv, snd kv)) (f_props f)).
  assert (Hfresh : ~ In "id" (dict_keys fields)).
  { unfold fields, dict_keys. rewrite map_map. cbn [fst].
    intros Hin. apply in_map_iff in Hin as (kv & Hkv & _).
    rewrite append_assoc in Hkv. now apply prefixed_not_id in Hkv. }
  split; [|split].
  - rewrite dict_set_fresh by exact Hfresh.
    unfold entry_properties. rewrite fold_left_app. cbn [fold_left].
    unfold entry_step at 1. cbn [fst snd]. rewrite id_not_prefixed.
    unfold fields. rewrite entry_of_prefixed.
    now apply fold_dict_set_self.
  - apply dict_get_set_same.
  - intros k v Hk. rewrite dict_get_set_other
      by (rewrite append_assoc; apply prefixed_not_id).
    unfold fields. clear Hfresh fields Hnd.
    induction (f_props f) as [|[k0 v0] l IH]; [discriminate Hk|].
    cbn [map fst snd dict_get] in *.
    destruct (String.eqb k k0) eqn:E.
    + apply String.eqb_eq in E. subst k0. now rewrite String.eqb_refl.
    + assert (E' : String.eqb ((table ++ "__") ++ k) ((table ++ "__") ++ k0)
                   = false).
      { apply String.eqb_neq. intros H. apply append_cancel_l in H.
        apply String.eqb_neq in E. contradiction. }
      rewrite E'. now apply IH.
Qed.

(** ** [Relations.get] and [KeyValues.get] *)

Lemma split_char_aux_app (c : ascii) (a b : string) :
  forall cur,
    split_char_aux c (a ++ String c b) cur
    = (split_char_aux c a cur ++ split_char c b)%list.
Proof.
  induction a as [|d a IH]; intros cur.
  - simpl. now rewrite Ascii.eqb_refl.
  - simpl. destruct (Ascii.eqb d c); [|apply IH].
    cbn [app]. f_equal. apply IH.
Qed.

Lemma split_char_app (c : ascii) (a b : string) :
  split_char c (a ++ String c b) = (split_char c a ++ split_char c b)%list.
Proof. apply split_char_aux_app. Qed.

Lemma split_char_aux_none (c : ascii) (a : string) :
  forall cur,
    PyStr.mem_char c a = false -> split_char_aux c a cur = [cur ++ a].
Proof.
  induction a as [|d a IH]; intros cur H.
  - simpl. now rewrite append_nil_r.
  - simpl in H. destruct (Ascii.eqb c d) eqn:E; [discriminate H|].
    simpl. rewrite Ascii.eqb_sym, E. rewrite IH by exact H.
    now rewrite append_assoc.
Qed.

Lemma split_char_none (c : ascii) (a : string) :
  PyStr.mem_char c a = false -> split_char c a = [a].
Proof. intros H. unfold split_char. now rewrite split_char_aux_none. Qed.

Section ReadFacts.
Context {S : Type}.
Variable ds_index : S -> string -> option string -> option (list feature) * S.
Variable missing_tables : value.

Lemma relation_entry_skip id bad ret (w : reads S) :
  length (split_char ":" bad) <> 2%nat ->
  relation_entry ds_index id bad ret w = (Ok ret, w).
Proof.
  unfold relation_entry. intros H.
  destruct (split_char ":" bad) as [|a [|b [|c l]]]; try reflexivity.
  now elim H.
Qed.

Lemma relation_entries_app id pre post :
  forall ret (w : reads S),
    relation_entries ds_index id (pre ++ post) ret w
    = match relation_entries ds_index id pre ret w with
      | (Ok ret, w) => relation_entries ds_index id post ret w
      | other => other
      end.
Proof.
  induction pre as [|r pre IH]; intros ret w; [reflexivity|].
  cbn [app relation_entries].
  destruct (relation_entry ds_index id r ret w) as [[ret1|c m|e] w1];
    [apply IH | reflexivity | reflexivity].
Qed.

(** X11: [Relations.get] ignores every entry of the [tables] parameter that
    is not of the form [table:fk] (no colon, or more than one): the answer
    and the calls to the Record Store are those of the parameter without the
    entry. An empty parameter gives the empty answer without any call; a
    request without the parameter is refused with 400, without any call
    either. *)
Theorem malformed_relation_is_skipped :
  forall (id : Z) (bad : string) (w : reads S),
    length (split_char ":" bad) <> 2%nat ->
    (forall pre post ret,
        relation_entries ds_index id (pre ++ bad :: post) ret w
        = relation_entries ds_index id (pre ++ post) ret w)
    /\ (PyStr.mem_char "," bad = false ->
        forall a b,
          relations_get ds_index missing_tables id (Some (a ++ "," ++ bad ++ "," ++ b)) w
          = relations_get ds_index missing_tables id (Some (a ++ "," ++ b)) w)
    /\ relations_get ds_index missing_tables id None w
       = (Abort 400 missing_tables, w)
    /\ relations_get ds_index missing_tables id (Some EmptyString) w = (Ok [], w).
Proof.
  intros id bad w Hbad.
  assert (Hlist : forall pre post ret,
             relation_entries ds_index id (pre ++ bad :: post) ret w
             = relation_entries ds_index id (pre ++ post) ret w).
  { intros pre post ret. rewrite !relation_entries_app.
    destruct (relation_entries ds_index id pre ret w) as [[ret1|c m|e] w1];
      try reflexivity.
    cbn [relation_entries]. now rewrite relation_entry_skip. }
  split; [exact Hlist|]. split; [|split; reflexivity].
  intros Hcomma a b. unfold relations_get.
  change (a ++ "," ++ bad ++ "," ++ b) with (a ++ String "," (bad ++ String "," b)).
  change (a ++ "," ++ b) with (a ++ String "," b).
  rewrite !split_char_app. rewrite (split_char_none _ _ Hcomma).
  apply Hlist.
Qed.

End ReadFacts.

Section SortFacts.
Context {A : Type}.

Lemma insert_sorted_perm (x : Z * A) (l : list (Z * A)) :
  Permutation (x :: l) (insert_sorted Z.leb x l).
Proof.
  induction l as [|y l IH]; [apply Permutation_refl|].
  cbn [insert_sorted]. destruct (Z.leb (fst x) (fst y)).
  - apply Permutation_refl.
  - eapply perm_trans; [apply perm_swap|]. now apply perm_skip.
Qed.

Lemma stable_sort_perm (l : list (Z * A)) :
  Permutation l (stable_sort Z.leb l).
Proof.
  induction l as [|x l IH]; [apply Permutation_refl|].
  cbn [stable_sort fold_right].
  eapply perm_trans; [|apply insert_sorted_perm]. now apply perm_skip.
Qed.

Lemma insert_sorted_sorted (x : Z * A) (l : list (Z * A)) :
  StronglySorted (fun a b => fst a <= fst b) l ->
  StronglySorted (fun a b => fst a <= fst b) (insert_sorted Z.leb x l).
Proof.
  induction 1 as [|y l Hs IH Hall].
  - constructor; constructor.
  - cbn [insert_sorted]. destruct (Z.leb (fst x) (fst y)) eqn:E.
    + apply Z.leb_le in E. constructor; [now constructor|].
      constructor; [exact E|].
      rewrite Forall_forall in *. intros z Hz. specialize (Hall z Hz). lia.
    + apply Z.leb_gt in E. constructor; [exact IH|].
      rewrite Forall_forall in *. intros z Hz.
      apply (Permutation_in _ (Permutation_sym (insert_sorted_perm x l))) in Hz.
      destruct Hz as [<-|Hz]; [lia | now apply Hall].
Qed.

Lemma stable_sort_sorted (l : list (Z * A)) :
  StronglySorted (fun a b => fst a <= fst b) (stable_sort Z.leb l).
Proof.
  induction l as [|x l IH]; [constructor|].
  cbn [stable_sort fold_right]. now apply insert_sorted_sorted.
Qed.

End SortFacts.

Lemma keyed_int_ids (records : list record) :
  (forall r, In r records -> exists z, dict_get "id" r = Some (VInt z)) ->
  exists ids l,
    keyed (dict_get "id") records = Some ids
    /\ keyed (fun kr : value * record => number_key (fst kr)) ids = Some l
    /\ map (fun x => snd (snd x)) l = records
    /\ Forall (fun x => dict_get "id" (snd (snd x)) = Some (VInt (fst x))) l.
Proof.
  induction records as [|r records IH]; intros H.
  - exists [], []. repeat split; constructor.
  - destruct IH as (ids & l & H1 & H2 & H3 & H4).
    { intros r' Hr'. apply H. now right. }
    destruct (H r (or_introl eq_refl)) as [z Hz].
    exists ((VInt z, r) :: ids), ((z, (VInt z, r)) :: l).
    cbn [keyed]. rewrite Hz, H1. cbn [fst number_key]. rewrite H2.
    repeat split.
    + cbn. now rewrite H3.
    + constructor; [exact Hz | exact H4].
Qed.

Lemma sorted_records (l : list (Z * (value * record))) :
  Forall (fun x => dict_get "id" (snd (snd x)) = Some (VInt (fst x))) l ->
  StronglySorted (fun a b => fst a <= fst b) l ->
  StronglySorted id_le (map (fun x => snd (snd x)) l).
Proof.
  intros Hinv Hs. induction Hs as [|x l Hs IH Hall]; [constructor|].
  inversion Hinv as [|? ? Hx Hl]; subst.
  cbn [map]. constructor; [now apply IH|].
  rewrite Forall_forall in *. intros r Hr.
  apply in_map_iff in Hr as (y & <- & Hy).
  exists (fst x), (fst y). split; [exact Hx|]. split; [now apply Hl | now apply Hall].
Qed.

(** The sort of records whose ids are all integers. *)
Lemma sort_by_id_ints (records : list record) :
  (forall r, In r records -> exists z, dict_get "id" r = Some (VInt z)) ->
  exists recs,
    sort_by_id records = Ok recs
    /\ Permutation records recs
    /\ StronglySorted id_le recs.
Proof.
  intros H. destruct (keyed_int_ids records H) as (ids & l & H1 & H2 & H3 & H4).
  unfold sort_by_id. rewrite H1.
  destruct (length records <=? 1)%nat eqn:E.
  - exists records. split; [reflexivity|]. split; [apply Permutation_refl|].
    apply Nat.leb_le in E.
    destruct records as [|r [|r' records]]; [constructor| |simpl in E; lia].
    constructor; constructor.
  - exists (map (fun x => snd (snd x)) (stable_sort Z.leb l)). split.
    { unfold record in *. now rewrite H2. }
    split.
    + rewrite <- H3 at 1. apply Permutation_map. apply stable_sort_perm.
    + apply sorted_records; [|apply stable_sort_sorted].
      eapply Permutation_Forall; [apply stable_sort_perm | exact H4].
Qed.

Section ReadOrder.
Context {S : Type}.
Variable ds_index : S -> string -> option string -> option (list feature) * S.

(** X12: for an entry [table:fk] whose table the Record Store can list,
    [Relations.get] asks for the features whose [fk] equals the parent id
    and, when their ids are integers, answers their records in ascending
    order of id: the records of the features, each exactly once. *)
Theorem relation_records_sorted_by_id :
  forall (id : Z) (relation table fk : string) (ret : dict rel_out)
         (w : reads S) (features : list feature) (s' : S),
    split_char ":" relation = [table; fk] ->
    ds_index (rw_store w) table (Some (fk_filter fk id)) = (Some features, s') ->
    (forall f, In f features -> exists z, f_id f = VInt z) ->
    exists recs,
      relation_entry ds_index id relation ret w
      = (Ok (dict_set table (mkRelOut (Some fk) recs) ret),
         mkReads s' (rw_calls w ++ [(table, Some (fk_filter fk id))]))
      /\ Permutation (map (relation_record table) features) recs
      /\ StronglySorted id_le recs.
Proof.
  intros id relation table fk ret w features s' Hsplit Hidx Hids.
  destruct (sort_by_id_ints (map (relation_record table) features))
    as (recs & Hsort & Hperm & Hsorted).
  { intros r Hr. apply in_map_iff in Hr as (f & <- & Hf).
    destruct (Hids f Hf) as [z Hz]. exists z.
    unfold relation_record. rewrite dict_get_set_same. now rewrite Hz. }
  exists recs. split; [|now split].
  unfold relation_entry. rewrite Hsplit. unfold index. rewrite Hidx.
  now rewrite Hsort.
Qed.

End ReadOrder.

Section KeyValueFacts.
Context {S : Type}.
Variable ds_index : S -> string -> option string -> option (list feature) * S.
Variable py_strip : string -> string.

Lemma keyvalue_record_ok kf vf f s :
  dict_get vf (f_props f) = Some (VStr s) ->
  String.eqb kf "id" = true \/ dict_get kf (f_props f) <> None ->
  exists r,
    keyvalue_record py_strip kf vf f = Ok r
    /\ dict_get "key" r
       = (if String.eqb kf "id" then Some (f_id f) else dict_get kf (f_props f))
    /\ dict_get "value" r = Some (VStr (py_strip s)).
Proof.
  intros Hv Hk. unfold keyvalue_record.
  destruct (String.eqb kf "id") eqn:E.
  - rewrite Hv. eexists. split; [reflexivity|]. now split.
  - destruct Hk as [Hk|Hk]; [discriminate Hk|].
    destruct (dict_get kf (f_props f)) as [k|]; [|now elim Hk].
    rewrite Hv. eexists. split; [reflexivity|]. now split.
Qed.

Lemma keyvalue_record_bad kf vf f :
  (forall s, dict_get vf (f_props f) <> Some (VStr s)) ->
  exists e, keyvalue_record py_strip kf vf f = Raise e.
Proof.
  intros Hv. unfold keyvalue_record.
  destruct (if String.eqb kf "id" then Some (f_id f)
            else dict_get kf (f_props f)); [|eauto].
  destruct (dict_get vf (f_props f)) as [[| | |s|]|]; eauto.
  now elim (Hv s).
Qed.

Lemma keyvalue_record_no_abort kf vf f c m :
  keyvalue_record py_strip kf vf f <> Abort c m.
Proof.
  unfold keyvalue_record.
  destruct (if String.eqb kf "id" then Some (f_id f)
            else dict_get kf (f_props f)); [|discriminate].
  destruct (dict_get vf (f_props f)) as [[| | |s|]|]; discriminate.
Qed.

Lemma keyvalue_records_bad kf vf features f :
  In f features ->
  (forall s, dict_get vf (f_props f) <> Some (VStr s)) ->
  exists e, keyvalue_records py_strip kf vf features = Raise e.
Proof.
  intros Hin Hv. induction features as [|f0 features IH]; [contradiction|].
  cbn [keyvalue_records].
  destruct (keyvalue_record py_strip kf vf f0) as [r|c m|e] eqn:E.
  - destruct Hin as [->|Hin].
    + destruct (keyvalue_record_bad kf vf f Hv) as [e He]. congruence.
    + destruct (IH Hin) as [e ->]. eauto.
  - now apply keyvalue_record_no_abort in E.
  - eauto.
Qed.

(** X13: for an entry [table:key:value], [KeyValues.get] answers one
    record per feature of the table, in the store's order: its key is the
    feature's id when the key field is named [id] (whatever the feature's
    properties), and the named property otherwise; its value is the named
    property, stripped. A single feature whose value property is missing or
    is no string makes the whole request raise; an entry that has not
    exactly three parts is ignored. *)
Theorem keyvalues_one_record_per_feature :
  forall (keyval table kf vf : string) (ret : dict (list record))
         (w : reads S) (features : list feature) (s' : S),
    (split_char ":" keyval = [table; kf; vf] ->
     ds_index (rw_store w) table None = (Some features, s') ->
     ((forall f, In f features ->
          (exists s, dict_get vf (f_props f) = Some (VStr s))
          /\ (String.eqb kf "id" = true \/ dict_get kf (f_props f) <> None)) ->
      exists recs,
        keyvalue_entry ds_index py_strip keyval ret w
        = (Ok (dict_set table recs ret),
           mkReads s' (rw_calls w ++ [(table, None)]))
        /\ Forall2
             (fun f r =>
                dict_get "key" r
                = (if String.eqb kf "id" then Some (f_id f)
                   else dict_get kf (f_props f))
                /\ exists s, dict_get vf (f_props f) = Some (VStr s)
                             /\ dict_get "value" r = Some (VStr (py_strip s)))
             features recs)
     /\ (forall f, In f features ->
           (forall s, dict_get vf (f_props f) <> Some (VStr s)) ->
           exists e,
             keyvalue_entry ds_index py_strip keyval ret w
             = (Raise e, mkReads s' (rw_calls w ++ [(table, None)]))))
    /\ (length (split_char ":" keyval) <> 3%nat ->
        keyvalue_entry ds_index py_strip keyval ret w = (Ok ret, w)).
Proof.
  intros keyval table kf vf ret w features s'. split.
  - intros Hsplit Hidx. split.
    + intros Hall.
      assert (Hrecs : exists recs,
                 keyvalue_records py_strip kf vf features = Ok recs
                 /\ Forall2
                      (fun f r =>
                         dict_get "key" r
                         = (if String.eqb kf "id" then Some (f_id f)
                            else dict_get kf (f_props f))
                         /\ exists s, dict_get vf (f_props f) = Some (VStr s)
                                      /\ dict_get "value" r
                                         = Some (VStr (py_strip s)))
                      features recs).
      { clear Hidx. induction features as [|f features IH].
        - exists []. split; [reflexivity | constructor].
        - destruct IH as (recs & Hrecs & Hall2).
          { intros f' Hf'. apply Hall. now right. }
          destruct (Hall f (or_introl eq_refl)) as [[s Hs] Hk].
          destruct (keyvalue_record_ok kf vf f s Hs Hk) as (r & Hr & Hkey & Hval).
          exists (r :: recs). cbn [keyvalue_records]. rewrite Hr, Hrecs.
          split; [reflexivity|]. constructor; [|exact Hall2].
          split; [exact Hkey|]. now exists s. }
      destruct Hrecs as (recs & Hrecs & Hall2).
      exists recs. split; [|exact Hall2].
      unfold keyvalue_entry. rewrite Hsplit. unfold index. rewrite Hidx.
      now rewrite Hrecs.
    + intros f Hin Hbad.
      destruct (keyvalue_records_bad kf vf features f Hin Hbad) as [e He].
      exists e. unfold keyvalue_entry. rewrite Hsplit. unfold index.
      rewrite Hidx. now rewrite He.
  - intros Hlen. unfold keyvalue_entry.
    destruct (split_char ":" keyval) as [|a [|b [|c [|d l]]]]; try reflexivity.
    now elim Hlen.
Qed.

End KeyValueFacts.

(** ** The [success] flag of [Relations.post] *)

Section SaveInvariant.
Context {S St : Type}.
Variable bind_ref : string -> string -> St -> outcome St.
Variable P : St -> Prop.
Hypothesis bind_ref_keeps :
  forall k s st st', P st -> bind_ref k s st = Ok st' -> P st'.

(** What every binding keeps, the save loop keeps. *)
Lemma save_attachments_keeps (files : dict filedata) :
  forall saved st (w : world S) saved' st' w',
    P st ->
    save_attachments bind_ref files saved st w = (Ok (saved', st'), w') ->
    P st'.
Proof.
  induction files as [|[key fd] files IH]; intros saved st w saved' st' w' HP H.
  - injection H as _ <- _. exact HP.
  - cbn [save_attachments] in H.
    apply bind_ok_inv in H as (slug & w1 & _ & H).
    destruct (slug_truthy slug) as [sl|].
    + apply bind_ok_inv in H as (st1 & w2 & Hb & H).
      unfold lift in Hb. injection Hb as Hb _.
      eapply IH; [|exact H]. eapply bind_ref_keeps; eauto.
    + apply bind_ok_inv in H as (u & w2 & _ & H). discriminate H.
Qed.

End SaveInvariant.

Lemma set_record_field_keys py_int p table index k v p' :
  set_record_field py_int p table index k v = Ok p' ->
  dict_keys p' = dict_keys p.
Proof.
  unfold set_record_field.
  destruct (dict_get table p) as [rd|] eqn:Hp; [|discriminate].
  destruct (rd_records rd) as [recs|]; [|discriminate].
  destruct (py_int index) as [i|]; [|discriminate].
  destruct (py_index recs i) as [n|]; [|discriminate].
  destruct (nth_error recs n) as [r|]; [|discriminate].
  intros H. injection H as <-. eapply dict_set_keys_existing. exact Hp.
Qed.

Lemma bind_relation_upload_keys user sfx py_int key slug p internal p' internal' :
  bind_relation_upload user sfx py_int key slug (p, internal)
  = Ok (p', internal') ->
  dict_keys p' = dict_keys p.
Proof.
  unfold bind_relation_upload.
  destruct (nth_error _ 0) as [table|]; [|discriminate].
  destruct (nth_error _ 1) as [field|]; [|discriminate].
  destruct (nth_error _ 2) as [index|]; [|discriminate].
  destruct (set_record_field py_int p table index _ _) as [p1|c m|e] eqn:E1;
    try discriminate.
  apply set_record_field_keys in E1.
  destruct (suffix_truthy sfx) as [s|].
  - destruct (set_record_field py_int p1 table index _ _) as [p2|c m|e] eqn:E2;
      try discriminate.
    apply set_record_field_keys in E2.
    intros H. injection H as <- _. congruence.
  - intros H. injection H as <- _. exact E1.
Qed.

Section FailureFlag.
Context {S : Type}.
Variable RS : RecordStore S.
Variable user : value.
Variable sfx : option string.

Lemma report_flag t r internal res o :
  report t r internal res = (o, true) -> exists r', o = Some r' /\ marked r'.
Proof.
  unfold report. destruct (r_error res) as [err|].
  - intros H. injection H as <-. eexists. split; [reflexivity|].
    right. exists err.
    rewrite dict_get_set_other by discriminate. apply dict_get_set_same.
  - destruct (r_feature res); discriminate.
Qed.

Lemma apply_edit_flag t internal r (w w' : world S) o :
  apply_edit RS user sfx t internal r w = (Ok (o, true), w') ->
  exists r', o = Some r' /\ marked r'.
Proof.
  unfold apply_edit. intros H.
  destruct (dict_get "__status__" r) as [status|]; [|discriminate H].
  destruct (py_eq status (VStr "new")).
  { apply bind_ok_inv in H as (res & w1 & _ & H).
    injection H as H _. eapply report_flag; eauto. }
  destruct (py_eq status (VStr "changed")).
  { destruct (dict_get "id" r) as [rid|]; [|discriminate H].
    apply bind_ok_inv in H as (d & w1 & _ & H).
    apply bind_ok_inv in H as (res & w2 & _ & H).
    apply bind_ok_inv in H as (u & w3 & _ & H).
    injection H as H _. eapply report_flag; eauto. }
  destruct status as [|b|z|s|d]; try discriminate H.
  destruct (PyStr.startswith "deleted" s); [|discriminate H].
  destruct (dict_get "id" r) as [rid|]; [|discriminate H].
  apply bind_ok_inv in H as (d & w1 & _ & H).
  apply bind_ok_inv in H as (u0 & w2 & _ & H).
  apply bind_ok_inv in H as (res & w3 & _ & H).
  apply bind_ok_inv in H as (u & w4 & _ & H).
  injection H as H _. eapply report_flag; eauto.
Qed.

Lemma process_record_flag id t fk internal r (w w' : world S) o :
  process_record RS user sfx id t fk internal r w = (Ok (o, true), w') ->
  exists r', o = Some r' /\ marked r'.
Proof.
  unfold process_record. destruct fk as [fk|]; [|discriminate].
  destruct (negb _).
  - intros H. injection H as <- _. eexists. split; [reflexivity|].
    left. apply dict_get_set_same.
  - apply apply_edit_flag.
Qed.

Lemma process_records_marked id t fk internal records :
  forall out h (w w' : world S) out',
    process_records RS user sfx id t fk internal records out h w
    = (Ok (out', true), w') ->
    h = true \/ exists r', In r' out' /\ marked r'.
Proof.
  induction records as [|r records IH]; intros out h w w' out' H.
  - injection H as _ <- _. now left.
  - cbn [process_records] in H.
    apply bind_ok_inv in H as ([o e] & w1 & Hr & H). cbn [fst snd] in H.
    pose proof H as Hgrow. apply process_records_grows in Hgrow as [[extra ->] _].
    apply IH in H as [Hh|H]; [|now right].
    apply orb_true_iff in Hh as [->|Hh]; [|now left].
    apply process_record_flag in Hr as (r' & -> & Hm).
    right. exists r'. split; [|exact Hm].
    apply in_or_app. left. apply in_or_app. right. now left.
Qed.

Lemma process_tables_keeps id internal tables :
  forall out h (w w' : world S) out' h' t ro,
    ~ In t (dict_keys tables) ->
    dict_get t out = Some ro ->
    process_tables RS user sfx id internal tables out h w
    = (Ok (out', h'), w') ->
    dict_get t out' = Some ro.
Proof.
  induction tables as [|[t0 rd] tables IH];
    intros out h w w' out' h' t ro Hn Hget H.
  - injection H as <- _ _. exact Hget.
  - cbn [process_tables] in H.
    apply bind_ok_inv in H as ([recs e] & w1 & _ & H). cbn [fst snd] in H.
    eapply IH; [| |exact H].
    + intros Hin. apply Hn. now right.
    + rewrite dict_get_set_other; [exact Hget|].
      intros ->. apply Hn. now left.
Qed.

Lemma process_tables_marked id internal tables :
  forall out h (w w' : world S) out',
    NoDup (dict_keys tables) ->
    process_tables RS user sfx id internal tables out h w
    = (Ok (out', true), w') ->
    h = true
    \/ exists t ro r',
         dict_get t out' = Some ro /\ In r' (ro_records ro) /\ marked r'.
Proof.
  induction tables as [|[t rd] tables IH]; intros out h w w' out' Hnd H.
  - injection H as _ <- _. now left.
  - cbn [process_tables] in H. inversion Hnd as [|? ? Hfresh Hnd']; subst.
    apply bind_ok_inv in H as ([recs e] & w1 & Hr & H). cbn [fst snd] in H.
    pose proof H as Hkeep.
    apply IH in H as [->|H]; [|now right|exact Hnd'].
    apply process_records_marked in Hr as [Hh|(r' & Hin & Hm)]; [now left|].
    right. exists t, (mkRelOut (rd_fk rd) recs), r'.
    split; [|now split].
    eapply process_tables_keeps; [exact Hfresh| |exact Hkeep].
    apply dict_get_set_same.
Qed.

Variable py_int : string -> option Z.

(** X14: a batch that is answered with [success] false shows why: under
    some table of the response there is a record that carries the mark of
    the failed foreign-key test or the error of the Record Store. *)
Theorem failure_is_reported :
  forall (dataset : string) (id : Z) (p : payload) (files : dict filedata)
         (w w' : world S) (out : dict rel_out),
    NoDup (dict_keys p) ->
    relations_post RS user sfx py_int dataset id (Some p) files w
    = (Ok (out, false), w') ->
    exists t ro r,
      dict_get t out = Some ro /\ In r (ro_records ro) /\ marked r.
Proof.
  intros dataset id p files w w' out Hnd H. unfold relations_post in H.
  apply bind_ok_inv in H as (editable & w1 & _ & H).
  destruct (negb editable); [discriminate H|].
  apply bind_ok_inv in H as (u & w2 & _ & H).
  apply bind_ok_inv in H as ([saved [p1 internal]] & w3 & Hsave & H).
  apply bind_ok_inv in H as ([out1 h] & w4 & Ht & H).
  cbn [fst snd] in H. injection H as <- Hh _.
  apply negb_false_iff in Hh. subst h.
  assert (Hnd1 : NoDup (dict_keys p1)).
  { apply (save_attachments_keeps (bind_relation_upload user sfx py_int)
             (fun st => NoDup (dict_keys (fst st)))) in Hsave;
      [exact Hsave| |exact Hnd].
    intros k s [pa ia] [pb ib] Ha Hb. cbn [fst] in *.
    apply bind_relation_upload_keys in Hb. now rewrite Hb. }
  apply process_tables_marked in Ht as [Hf|Ht]; [discriminate Hf|exact Ht|exact Hnd1].
Qed.

End FailureFlag.

(** ** What [attachments_diff] collects *)

Lemma dict_get_values {A} (k : string) (v : A) (d : dict A) :
  dict_get k d = Some v -> In v (dict_values d).
Proof.
  induction d as [|[k' v'] d IH]; simpl; [discriminate|].
  destruct (String.eqb k k').
  - intros H. injection H as ->. now left.
  - intros H. right. now apply IH.
Qed.

Lemma dict_set_values {A} (k : string) (v x : A) (d : dict A) :
  In x (dict_values (dict_set k v d)) -> x = v \/ In x (dict_values d).
Proof.
  induction d as [|[k' v'] d IH]; simpl.
  - intros [<-|[]]. now left.
  - destruct (String.eqb k k'); simpl.
    + intros [<-|H]; [now left | right; now right].
    + intros [<-|H]; [right; now left|].
      apply IH in H as [H|H]; [now left | right; now right].
Qed.

Section DiffSound.
Variable user : value.
Variable sfx : option string.
Variable prev_props : dict value.
Variable props0 : dict value.

Lemma diff_key_sound rd k st st1 :
  In k (dict_keys props0) ->
  diff_sound user prev_props props0 st ->
  diff_key user sfx prev_props rd k st = Ok st1 ->
  diff_sound user prev_props props0 st1.
Proof.
  intros Hk Hst. pose proof Hst as (Hold & Hnew & Hval). unfold diff_key.
  destruct (diff_test prev_props (df_props st) rd k) as [[|]|c m|e];
    try discriminate; [|intros H; injection H as <-; exact Hst].
  destruct (dict_get k prev_props) as [pv|] eqn:Hpv; [|discriminate].
  set (st' := if is_attachment pv then _ else st).
  assert (Hs : diff_sound user prev_props props0 st').
  { subst st'. destruct (is_attachment pv) eqn:Hatt; [|exact Hst].
    assert (Hold' : forall v, In v (oldattachments st ++ [pv]) ->
                      is_attachment v = true
                      /\ exists k, In k (dict_keys props0)
                                   /\ dict_get k prev_props = Some v).
    { intros v Hv. apply in_app_or in Hv as [Hv|[<-|[]]]; [now apply Hold|].
      split; [exact Hatt | now exists k]. }
    destruct (suffix_truthy sfx) as [s|];
      (split; [exact Hold' | split; [exact Hnew|]]); cbn [df_props];
      [|exact Hval].
    intros v Hv. apply dict_set_values in Hv as [->|Hv];
      [now right | now apply Hval]. }
  clearbody st'. destruct Hs as (Hold' & Hnew' & Hval').
  destruct (dict_get k (df_props st')) as [fv|] eqn:Hfv; [|discriminate].
  destruct (is_attachment fv) eqn:Hatt; intros H; injection H as <-;
    [|exact (conj Hold' (conj Hnew' Hval'))].
  split; [exact Hold' | split; [|exact Hval']]. cbn [newattachments].
  intros v Hv. apply in_app_or in Hv as [Hv|[<-|[]]]; [now apply Hnew'|].
  split; [exact Hatt|]. apply Hval'. eapply dict_get_values; eauto.
Qed.

Lemma diff_keys_sound rd keys :
  forall st st1,
    (forall k, In k keys -> In k (dict_keys props0)) ->
    diff_sound user prev_props props0 st ->
    diff_keys user sfx prev_props rd keys st = Ok st1 ->
    diff_sound user prev_props props0 st1.
Proof.
  induction keys as [|k keys IH]; intros st st1 Hk Hs H.
  - injection H as <-. exact Hs.
  - cbn [diff_keys] in H.
    destruct (diff_key user sfx prev_props rd k st) as [st0|c m|e] eqn:E;
      try discriminate H.
    eapply IH; [| |exact H].
    + intros k' Hk'. apply Hk. now right.
    + eapply diff_key_sound; [|exact Hs|exact E]. apply Hk. now left.
Qed.

End DiffSound.

Lemma cleanup_references_run {S : Type} (refs : list value) :
  Forall (fun v => is_attachment v = true) refs ->
  forall w : world S,
    cleanup_attachments refs w
    = (Ok tt,
       mkWorld (w_store w) (remove_slugs (map passed_slug refs) (w_disk w))
               (w_log w ++ map EvRemove (map passed_slug refs))).
Proof.
  induction 1 as [|v refs Hv _ IH]; intros w.
  - cbn. rewrite app_nil_r. now destruct w.
  - destruct v as [|b|z|s|d]; try discriminate Hv.
    cbn [cleanup_attachments]. unfold bind at 1. cbn [remove_attachment].
    rewrite IH. cbn. now rewrite <- app_assoc.
Qed.

Section DiffReferences.
Context {S : Type}.
Variable RS : RecordStore S.
Variable user : value.
Variable sfx : option string.

(** X15: the two lists [attachments_diff] answers hold attachment
    references only: an old one is the stored value of a property the
    incoming record names, a new one is a value of the incoming record (or
    the user name the loop has written into it). So the cleanup of either
    list cannot fail on its items: it removes the passed slug of each and
    ends normally. *)
Theorem diff_collects_references :
  forall (t : string) (rid : value) (feat : feature) (internal : list string)
         (rd : bool) (w w' : world S) (d : diff_state),
    attachments_diff RS user sfx t rid feat internal rd w = (Ok d, w') ->
    (forall v, In v (oldattachments d) ->
       is_attachment v = true
       /\ exists prev pf k,
            fst (rs_show RS (w_store w) t rid) = Some prev
            /\ r_feature prev = Some pf
            /\ In k (dict_keys (f_props feat))
            /\ dict_get k (f_props pf) = Some v)
    /\ (forall v, In v (newattachments d) ->
          is_attachment v = true
          /\ (In v (dict_values (f_props feat)) \/ v = user))
    /\ (forall refs (w1 : world S),
          refs = oldattachments d \/ refs = newattachments d ->
          cleanup_attachments refs w1
          = (Ok tt,
             mkWorld (w_store w1)
                     (remove_slugs (map passed_slug refs) (w_disk w1))
                     (w_log w1 ++ map EvRemove (map passed_slug refs)))).
Proof.
  intros t rid feat internal rd w w' d H. unfold attachments_diff in H.
  apply bind_ok_inv in H as (prev & w1 & Hshow & H).
  rewrite show_run in Hshow. injection Hshow as <- _.
  assert (Hsound :
            exists prev_props,
              diff_sound user prev_props (f_props feat) d
              /\ forall k v, dict_get k prev_props = Some v ->
                   exists prev pf,
                     fst (rs_show RS (w_store w) t rid) = Some prev
                     /\ r_feature prev = Some pf
                     /\ dict_get k (f_props pf) = Some v).
  { destruct (fst (rs_show RS (w_store w) t rid)) as [prev|].
    - destruct (r_feature prev) as [pf|] eqn:Hpf; [|discriminate H].
      unfold lift in H. injection H as H _.
      exists (f_props pf). split.
      + eapply diff_keys_sound; [| |exact H]; [auto|].
        split; [|split]; cbn; try contradiction. intros v Hv. now left.
      + intros k v Hv. now exists prev, pf.
    - injection H as <- _. exists []. split; [|discriminate].
      split; [|split]; cbn; try contradiction. intros v Hv. now left. }
  destruct Hsound as (prev_props & (Hold & Hnew & _) & Hprev).
  split; [|split].
  - intros v Hv. destruct (Hold v Hv) as [Hatt (k & Hk & Hget)].
    split; [exact Hatt|].
    destruct (Hprev k v Hget) as (prev & pf & H1 & H2 & H3).
    now exists prev, pf, k.
  - exact Hnew.
  - intros refs w2 [->| ->]; apply cleanup_references_run;
      apply Forall_forall; intros v Hv; [now apply Hold | now apply Hnew].
Qed.

End DiffReferences.

(** ** Records the Record Store cannot show *)

Section UnknownRecord.
Context {S : Type}.
Variable RS : RecordStore S.
Variable user : value.
Variable sfx : option string.

(** X16: a "changed" record whose stored record the Record Store cannot
    show (it answers nothing) is written all the same: the update is called
    with the properties of the payload, and no attachment is removed. When
    the store answers something that holds no feature (an error, say), the
    request ends there with a [KeyError], before any write. *)
Theorem changed_unknown_record_is_updated :
  forall (t : string) (internal : list string) (r : record) (rid : value)
         (w : world S),
    dict_get "__status__" r = Some (VStr "changed") ->
    dict_get "id" r = Some rid ->
    let entry := mkFeature rid (entry_properties (t ++ "__") r) in
    let ti := table_internal (t ++ "__") internal in
    let s1 := snd (rs_show RS (w_store w) t rid) in
    (fst (rs_show RS (w_store w) t rid) = None ->
     apply_edit RS user sfx t internal r w
     = (Ok (report t r ti (fst (rs_update RS s1 t rid entry ti))),
        mkWorld (snd (rs_update RS s1 t rid entry ti)) (w_disk w)
                (w_log w ++ [EvShow t rid; EvUpdate t rid entry ti])))
    /\ (forall prev,
          fst (rs_show RS (w_store w) t rid) = Some prev ->
          r_feature prev = None ->
          apply_edit RS user sfx t internal r w
          = (Raise KeyError,
             mkWorld s1 (w_disk w) (w_log w ++ [EvShow t rid]))).
Proof.
  intros t internal r rid w Hst Hid entry ti s1.
  unfold apply_edit. rewrite Hst, Hid.
  change (py_eq (VStr "changed") (VStr "new")) with false.
  change (py_eq (VStr "changed") (VStr "changed")) with true.
  cbv iota. fold entry ti. unfold attachments_diff.
  split.
  - intros Hshow. unfold bind. rewrite show_run, Hshow. cbn [ret].
    rewrite update_run. cbn [w_store w_disk w_log fst snd f_id df_props
      df_internal newattachments oldattachments].
    fold s1.
    destruct (has_error _); cbn [cleanup_attachments ret];
      now rewrite <- app_assoc.
  - intros prev Hshow Hfeat. unfold bind. rewrite show_run, Hshow, Hfeat.
    reflexivity.
Qed.

End UnknownRecord.

(** ** An edit that replaces no attachment *)

Section QuietEdit.
Context {S : Type}.
Variable RS : RecordStore S.
Variable user : value.
Variable sfx : option string.



End QuietEdit.

(** ** Records that cannot be processed *)

Section Malformed.
Context {S : Type}.
Variable RS : RecordStore S.
Variable user : value.
Variable sfx : option string.

(** X18: a record that cannot be processed ends the request with an
    exception before the Record Store or the Attachment Store is called for
    it: a record of a table without [fk], a "changed" or "deleted" record
    that passes the foreign-key test but has no [id], and a record whose
    [__status__] is no string. *)
Theorem malformed_record_raises_untouched :
  forall (id : Z) (t : string) (internal : list string) (r : record)
         (w : world S),
    process_record RS user sfx id t None internal r w = (Raise TypeError, w)
    /\ (forall fk s,
          py_eq (fk_of ((t ++ "__") ++ fk) r) (VInt id) = true ->
          dict_get "__status__" r = Some (VStr s) ->
          dict_get "id" r = None ->
          s = "changed" \/ (s <> "new" /\ PyStr.startswith "deleted" s = true) ->
          process_record RS user sfx id t (Some fk) internal r w
          = (Raise KeyError, w))
    /\ (forall fk status,
          py_eq (fk_of ((t ++ "__") ++ fk) r) (VInt id) = true ->
          dict_get "__status__" r = Some status ->
          (forall s, status <> VStr s) ->
          process_record RS user sfx id t (Some fk) internal r w
          = (Raise AttributeError, w)).
Proof.
  intros id t internal r w. split; [reflexivity|]. split.
  - intros fk s Hfk Hst Hid Hs.
    assert (Hnew : py_eq (VStr s) (VStr "new") = false).
    { cbn [py_eq]. apply String.eqb_neq.
      destruct Hs as [->|[Hs _]]; [discriminate | exact Hs]. }
    unfold process_record, force_fk, status_of. rewrite Hst, Hnew, Hfk.
    cbn [negb]. unfold apply_edit. rewrite Hst, Hnew, Hid.
    destruct Hs as [->|[_ Hd]]; [reflexivity|].
    destruct (py_eq (VStr s) (VStr "changed")); [reflexivity|].
    now rewrite Hd.
  - intros fk status Hfk Hst Hns.
    assert (Hne : forall x, py_eq status (VStr x) = false).
    { intros x. destruct status as [|b|z|s|d]; try reflexivity.
      now elim (Hns s). }
    unfold process_record, force_fk, status_of. rewrite Hst, Hne, Hfk.
    cbn [negb]. unfold apply_edit. rewrite Hst, !Hne.
    destruct status as [|b|z|s|d]; try reflexivity. now elim (Hns s).
Qed.

End Malformed.

(** ** The response echoes the records of the batch *)

Lemma eqb_append_l (p a b : string) :
  String.eqb (p ++ a) (p ++ b) = String.eqb a b.
Proof.
  induction p as [|c p IH]; simpl; [reflexivity|].
  now rewrite Ascii.eqb_refl.
Qed.

Lemma dict_get_prefixed {A} (p k : string) (l : dict A) :
  dict_get (p ++ k) (map (fun kv => (p ++ fst kv, snd kv)) l) = dict_get k l.
Proof.
  induction l as [|[k' v] l IH]; simpl; [reflexivity|].
  rewrite eqb_append_l. now destruct (String.eqb k k').
Qed.

Lemma dict_get_filter_key {A} (P : string -> bool) (k : string) (l : dict A) :
  dict_get k (filter (fun kv => P (fst kv)) l)
  = if P k then dict_get k l else None.
Proof.
  induction l as [|[k' v] l IH]; [now destruct (P k)|].
  cbn [filter fst dict_get].
  destruct (String.eqb k k') eqn:E.
  - apply String.eqb_eq in E. subst k'.
    destruct (P k) eqn:HP.
    + cbn [dict_get]. now rewrite String.eqb_refl.
    + exact IH.
  - destruct (P k').
    + cbn [dict_get]. now rewrite E.
    + exact IH.
Qed.

(** What the committed record holds: the id of the feature and, under the
    prefix of the table, the properties of the feature that are no
    internal fields. *)
Lemma committed_record_content (t : string) (f : feature)
    (internal : list string) :
  NoDup (dict_keys (f_props f)) ->
  dict_get "id" (committed_record t f internal) = Some (f_id f)
  /\ (forall k, name_mem k internal = true ->
                dict_get ((t ++ "__") ++ k) (committed_record t f internal)
                = None)
  /\ (forall k, name_mem k internal = false ->
                dict_get ((t ++ "__") ++ k) (committed_record t f internal)
                = dict_get k (f_props f)).
Proof.
  intros Hnd. unfold committed_record. rewrite (committed_fields _ _ _ Hnd).
  split; [apply dict_get_set_same|].
  assert (H : forall k,
             dict_get ((t ++ "__") ++ k)
               (dict_set "id" (f_id f)
                  (map (fun kv => ((t ++ "__") ++ fst kv, snd kv))
                     (filter (fun kv => negb (name_mem (fst kv) internal))
                        (f_props f))))
             = if negb (name_mem k internal) then dict_get k (f_props f)
               else None).
  { intros k. rewrite dict_get_set_other.
    - rewrite dict_get_prefixed.
      apply (dict_get_filter_key (fun k => negb (name_mem k internal))).
    - rewrite append_assoc. apply prefixed_not_id. }
  split; intros k Hk; rewrite H, Hk; reflexivity.
Qed.

Lemma same_shape_refl (p : payload) : same_shape p p.
Proof. induction p as [|x p IH]; constructor; auto. Qed.

Lemma same_shape_trans (p q r : payload) :
  same_shape p q -> same_shape q r -> same_shape p r.
Proof.
  intros H. revert r. induction H as [|a b p q (H1 & H2 & H3) _ IH];
    intros r Hr; inversion Hr as [|? c ? r' (G1 & G2 & G3) Hr']; subst;
    constructor; [|now apply IH].
  repeat split; congruence.
Qed.

Lemma same_shape_keys (p q : payload) :
  same_shape p q -> dict_keys q = dict_keys p.
Proof.
  induction 1 as [|a b p q (H1 & _) _ IH]; [reflexivity|].
  unfold dict_keys in *. cbn [map]. now rewrite IH, H1.
Qed.

Lemma dict_set_same_shape (p : payload) (table : string) (rd rd' : rel_data) :
  dict_get table p = Some rd ->
  rd_fk rd' = rd_fk rd ->
  length (records_of rd') = length (records_of rd) ->
  same_shape p (dict_set table rd' p).
Proof.
  intros Hget Hfk Hlen. induction p as [|[k v] p IH]; [discriminate Hget|].
  cbn [dict_get] in Hget. cbn [dict_set].
  destruct (String.eqb table k) eqn:E.
  - apply String.eqb_eq in E. subst k. injection Hget as ->.
    constructor; [|apply same_shape_refl]. cbn [fst snd]. now repeat split.
  - constructor; [now repeat split | now apply IH].
Qed.

Lemma set_record_field_shape py_int p table index k v p' :
  set_record_field py_int p table index k v = Ok p' -> same_shape p p'.
Proof.
  unfold set_record_field.
  destruct (dict_get table p) as [rd|] eqn:Hp; [|discriminate].
  destruct (rd_records rd) as [recs|] eqn:Hr; [|discriminate].
  destruct (py_int index) as [i|]; [|discriminate].
  destruct (py_index recs i) as [n|]; [|discriminate].
  destruct (nth_error recs n) as [r|]; [|discriminate].
  intros H. injection H as <-.
  apply (dict_set_same_shape p table rd); [exact Hp | reflexivity|].
  unfold records_of. cbn [rd_records]. rewrite Hr. apply list_set_length.
Qed.

Lemma bind_relation_upload_shape user sfx py_int key slug p internal p' internal' :
  bind_relation_upload user sfx py_int key slug (p, internal)
  = Ok (p', internal') ->
  same_shape p p'.
Proof.
  unfold bind_relation_upload.
  destruct (nth_error _ 0) as [table|]; [|discriminate].
  destruct (nth_error _ 1) as [field|]; [|discriminate].
  destruct (nth_error _ 2) as [index|]; [|discriminate].
  destruct (set_record_field py_int p table index _ _) as [p1|c m|e] eqn:E1;
    try discriminate.
  apply set_record_field_shape in E1.
  destruct (suffix_truthy sfx) as [s|].
  - destruct (set_record_field py_int p1 table index _ _) as [p2|c m|e] eqn:E2;
      try discriminate.
    apply set_record_field_shape in E2.
    intros H. injection H as <- _. eapply same_shape_trans; eauto.
  - intros H. injection H as <- _. exact E1.
Qed.

Section EchoFacts.
Context {S : Type}.
Variable RS : RecordStore S.
Variable user : value.
Variable sfx : option string.

Lemma echo_of_report id t fk internal r (w w' : world S) res internal' :
  fk_passes id t fk (with_fk id t fk r) ->
  written RS user sfx t internal (with_fk id t fk r) w res internal' w' ->
  echo_of RS user sfx id t fk internal r w
    (fst (report t (with_fk id t fk r) internal' res)) w'.
Proof.
  intros Hfk Hw. unfold report.
  destruct (r_error res) as [err|] eqn:He.
  - cbn [fst]. eapply echo_error; eauto.
  - destruct (r_feature res) as [f|] eqn:Hf; cbn [fst];
      [eapply echo_committed | eapply echo_nothing]; eauto.
Qed.

Lemma process_record_echo id t fk internal r (w w' : world S) o e :
  process_record RS user sfx id t (Some fk) internal r w = (Ok (o, e), w') ->
  echo_of RS user sfx id t fk internal r w o w'.
Proof.
  unfold process_record. fold (with_fk id t fk r).
  set (r' := with_fk id t fk r).
  destruct (py_eq (fk_of ((t ++ "__") ++ fk) r') (VInt id)) eqn:Hfk;
    cbn [negb]; intros H.
  - unfold apply_edit in H.
    destruct (dict_get "__status__" r') as [status|] eqn:Hst.
    + destruct (py_eq status (VStr "new")) eqn:Hn.
      * apply py_eq_str_inv in Hn. subst status.
        apply bind_ok_inv in H as (res & w1 & Hc & H).
        injection H as Hrep <-.
        replace o with (fst (report t r' (table_internal (t ++ "__") internal) res))
          by now rewrite Hrep.
        apply echo_of_report; [exact Hfk|].
        apply written_new; [exact Hst | exact Hc].
      * destruct (py_eq status (VStr "changed")) eqn:Hc.
        -- apply py_eq_str_inv in Hc. subst status.
           destruct (dict_get "id" r') as [rid|] eqn:Hid; [|discriminate H].
           apply bind_ok_inv in H as (d & w1 & Hd & H).
           apply bind_ok_inv in H as (res & w2 & Hu & H).
           apply bind_ok_inv in H as (u & w3 & Hcl & H).
           injection H as Hrep <-. destruct u.
           replace o with (fst (report t r' (df_internal d) res))
             by now rewrite Hrep.
           apply echo_of_report; [exact Hfk|].
           eapply (written_changed RS user sfx t internal r' w rid d w1 res w2);
             [exact Hst | exact Hid | | exact Hu | exact Hcl].
           unfold record_entry. rewrite Hid. exact Hd.
        -- destruct status as [|b|z|s|d]; try discriminate H.
           destruct (PyStr.startswith "deleted" s) eqn:Hdel.
           ++ destruct (dict_get "id" r') as [rid|] eqn:Hid; [|discriminate H].
              apply bind_ok_inv in H as (d & w1 & Hd & H).
              apply bind_ok_inv in H as (u0 & w2 & Haud & H).
              apply bind_ok_inv in H as (res & w3 & Hdes & H).
              apply bind_ok_inv in H as (u & w4 & Hcl & H).
              injection H as Hrep <-. destruct u.
              replace o with (fst (report t r' (df_internal d) res))
                by now rewrite Hrep.
              apply echo_of_report; [exact Hfk|].
              eapply (written_deleted RS user sfx t internal r' w s rid d w1 w2
                        res w3);
                [exact Hst | exact Hdel | exact Hid | | | exact Hdes | exact Hcl].
              ** unfold record_entry. rewrite Hid. exact Hd.
              ** destruct (suffix_truthy sfx).
                 --- apply bind_ok_inv in Haud as (audit & wx & Hu & Hr).
                     injection Hr as _ <-. now exists audit.
                 --- now injection Haud as _ <-.
           ++ injection H as <- _ <-. apply echo_ignored; [exact Hfk|].
              exists s. simpl in Hn, Hc.
              apply String.eqb_neq in Hn, Hc. auto.
    + injection H as <- _ <-. now apply echo_unchanged.
  - injection H as <- _ <-. now apply echo_rejected.
Qed.

Lemma process_records_echo id t fk internal records :
  forall out h (w w' : world S) out' h',
    process_records RS user sfx id t (Some fk) internal records out h w
    = (Ok (out', h'), w') ->
    exists recs,
      records_echo RS user sfx id t fk internal records w recs w'
      /\ out' = (out ++ recs)%list.
Proof.
  induction records as [|r records IH]; intros out h w w' out' h' H.
  - injection H as <- _ <-. exists []. split; [constructor|].
    now rewrite app_nil_r.
  - cbn [process_records] in H.
    apply bind_ok_inv in H as ([o e] & w1 & Hr & H).
    apply process_record_echo in Hr.
    apply IH in H as (recs & Hall & ->). cbn [fst].
    exists (slot_records o ++ recs)%list. split.
    + econstructor; eauto.
    + destruct o; simpl; [now rewrite <- app_assoc | reflexivity].
Qed.

Lemma process_records_without_fk id t internal records :
  forall out h (w w' : world S) out' h',
    process_records RS user sfx id t None internal records out h w
    = (Ok (out', h'), w') ->
    records = [] /\ out' = out /\ w' = w.
Proof.
  destruct records as [|r records]; intros out h w w' out' h' H.
  - now injection H as <- _ <-.
  - discriminate H.
Qed.

Lemma process_tables_echo id internal tables :
  forall out h (w w' : world S) out' h',
    NoDup (dict_keys out ++ dict_keys tables) ->
    process_tables RS user sfx id internal tables out h w
    = (Ok (out', h'), w') ->
    exists outs,
      out' = (out ++ outs)%list
      /\ tables_echo RS user sfx id internal tables w outs w'.
Proof.
  induction tables as [|[t rd] tables IH]; intros out h w w' out' h' Hnd H.
  - injection H as <- _ <-. exists []. split; [now rewrite app_nil_r|constructor].
  - cbn [process_tables] in H.
    apply bind_ok_inv in H as ([recs e] & w1 & Hr & H). cbn [fst snd] in H.
    assert (Hfresh : ~ In t (dict_keys out)).
    { intros Hin. apply NoDup_remove_2 in Hnd. apply Hnd.
      apply in_or_app. now left. }
    rewrite dict_set_fresh in H by exact Hfresh.
    apply IH in H as (outs & -> & Hall).
    + destruct (rd_fk rd) as [fk|] eqn:Hfk.
      * apply process_records_echo in Hr as (recs' & Hrecs & ->).
        exists ((t, mkRelOut (Some fk) recs') :: outs).
        split; [now rewrite <- app_assoc|].
        eapply tables_echo_fk; eauto.
      * apply process_records_without_fk in Hr as (Hnil & -> & ->).
        exists ((t, mkRelOut None []) :: outs).
        split; [now rewrite <- app_assoc|].
        now apply tables_echo_no_fk.
    + unfold dict_keys in *. rewrite map_app. cbn [map fst].
      rewrite <- app_assoc. cbn [app map fst] in *.
      apply NoDup_Add with (a := t) (l := (map fst out ++ map fst tables)%list).
      * apply Add_app.
      * split.
        -- now apply NoDup_remove_1 in Hnd.
        -- now apply NoDup_remove_2 in Hnd.
Qed.

Variable py_int : string -> option Z.

(** C2, amended: when the batch is processed to the end, the response has
    one entry per table of the batch, in order, with the table's foreign
    key, and its records are the contributions of the input records (as
    the save loop left them, when files are uploaded), in order, each
    record reached in the world the one before it left. A record that
    fails the foreign-key test contributes itself with the mark, a record
    without status contributes itself. For a record marked "new",
    "changed" or "deleted..." the write is made, and the answer of the
    Record Store to that very call decides: with an error the record
    contributes itself with that error and its details; with a feature it
    contributes the committed record, which holds the id of the feature
    and its properties under the prefix of the table, the internal fields
    left out; with neither it contributes nothing. A record with any other
    status contributes nothing. *)
Theorem response_echoes_reported_records :
  forall (id : Z) (p : payload),
    NoDup (dict_keys p) ->
    (forall internal h (w w' : world S) out h',
        process_tables RS user sfx id internal p [] h w = (Ok (out, h'), w') ->
        tables_echo RS user sfx id internal p w out w')
    /\ (forall dataset files (w w' : world S) out success,
        relations_post RS user sfx py_int dataset id (Some p) files w
        = (Ok (out, success), w') ->
        exists saved p1 internal w1,
          save_attachments (bind_relation_upload user sfx py_int) files []
            (p, []) w
          = (Ok (saved, (p1, internal)), w1)
          /\ same_shape p p1
          /\ tables_echo RS user sfx id internal p1 w1 out w')
    /\ (forall t f internal,
        NoDup (dict_keys (f_props f)) ->
        dict_get "id" (committed_record t f internal) = Some (f_id f)
        /\ (forall k, name_mem k internal = true ->
                      dict_get ((t ++ "__") ++ k)
                        (committed_record t f internal) = None)
        /\ (forall k, name_mem k internal = false ->
                      dict_get ((t ++ "__") ++ k)
                        (committed_record t f internal)
                      = dict_get k (f_props f)))
    /\ (forall t fk internal r (w w' : world S),
        echo_of RS user sfx id t fk internal r w None w' ->
        ignored_status (with_fk id t fk r)
        \/ exists res internal',
             written RS user sfx t internal (with_fk id t fk r) w res
               internal' w'
             /\ r_error res = None /\ r_feature res = None).
Proof.
  intros id p Hnd.
  assert (Hloop : forall q internal h (w w' : world S) out h',
             NoDup (dict_keys q) ->
             process_tables RS user sfx id internal q [] h w
             = (Ok (out, h'), w') ->
             tables_echo RS user sfx id internal q w out w').
  { intros q internal h w w' out h' Hq H.
    apply process_tables_echo in H as (outs & -> & Hall); [exact Hall|].
    exact Hq. }
  split; [intros; eapply Hloop; eauto|]. split; [|split].
  - intros dataset files w w' out success H.
    unfold relations_post in H.
    apply bind_ok_inv in H as (editable & w1 & He & H).
    injection He as _ <-.
    destruct (negb editable); [discriminate H|].
    apply bind_ok_inv in H as (u & w2 & Hv & H).
    assert (w2 = w) as ->.
    { destruct (validate_attachments_run files w) as [E|[key E]];
        rewrite E in Hv; [now injection Hv as _ <- | discriminate Hv]. }
    apply bind_ok_inv in H as ([saved [p1 internal]] & w3 & Hsave & H).
    apply bind_ok_inv in H as ([o h] & w4 & Ht & H).
    injection H as <- _ <-. cbn [fst].
    assert (Hshape : same_shape p p1).
    { apply (save_attachments_keeps (bind_relation_upload user sfx py_int)
               (fun st => same_shape p (fst st))) in Hsave;
        [exact Hsave| |apply same_shape_refl].
      intros k s [pa ia] [pb ib] Ha Hb. cbn [fst] in *.
      apply bind_relation_upload_shape in Hb.
      eapply same_shape_trans; eauto. }
    exists saved, p1, internal, w3.
    split; [exact Hsave|]. split; [exact Hshape|].
    eapply Hloop; [|exact Ht].
    now rewrite (same_shape_keys _ _ Hshape).
  - intros t f internal. apply committed_record_content.
  - intros t fk internal r w w' H.
    inversion H as [ | | Hfk Hign | | | res internal' w0 Hfk Hw He Hf]; subst.
    + now left.
    + right. now exists res, internal'.
Qed.

End EchoFacts.

(** ** The further properties at concrete requests *)

Section FurtherWitnesses.
Import Scenario.

Local Abbreviation store := TableStore.store.
Local Abbreviation int_of_string := TableStore.int_of_string.

(** [response_echoes_reported_records] at the update of the photo of the
    child 1 by an uploaded file, with the audit suffix [by] configured: the
    record answered is the committed one, without the audit field. *)
Lemma response_echoes_reported_records_witness :
  let w := start (family "old1" true) ["old1"] in
  let run :=
    relations_post store alice (Some "by") int_of_string "parents" 7
      (Some photo_update) photo_upload w in
  exists saved p1 internal w1,
    save_attachments (bind_relation_upload alice (Some "by") int_of_string)
      photo_upload [] (photo_update, []) w
    = (Ok (saved, (p1, internal)), w1)
    /\ same_shape photo_update p1
    /\ tables_echo store alice (Some "by") 7 internal p1 w1
         [("children",
           mkRelOut (Some "parent_id")
             [[("children__parent_id", VInt 7);
               ("children__photo", VStr "attachment://new1");
               ("id", VInt 1)]])]
         (snd run).
Proof.
  intros w run.
  destruct (response_echoes_reported_records store alice (Some "by")
              int_of_string 7 photo_update) as (_ & H & _).
  - repeat constructor; simpl; intuition discriminate.
  - apply (H "parents" photo_upload w (snd run) _ true).
    vm_compute. reflexivity.
Defined.

(** [cleanup_exact_for_safe_slugs] at the slug [x1]. *)
Lemma cleanup_exact_for_safe_slugs_witness :
  passed_slug (VStr "attachment://x1") = "x1"
  /\ exists w',
       cleanup_attachments [VStr "attachment://x1"]
         (start (family "x1" true) ["x1"; "x2"]) = (Ok tt, w')
       /\ disk_has "x1" (w_disk w') = false
       /\ disk_has "x2" (w_disk w') = true.
Proof.
  destruct (cleanup_exact_for_safe_slugs "x1") as [Hiff H]. split.
  - apply Hiff. reflexivity.
  - destruct (H _ (start (family "x1" true) ["x1"; "x2"]) eq_refl)
      as (w' & Hrun & Hgone & Hother & _).
    exists w'. split; [exact Hrun|]. split; [exact Hgone|].
    rewrite (Hother "x2"); [reflexivity | discriminate].
Defined.

(** [upload_key_names_stripped_table] at the key of the photo of the first
    child record. *)
Lemma upload_key_names_stripped_table_witness :
  PyStr.split_dunder (PyStr.lstrip "file:" "file:children__photo__0")
  = ["children"; "photo"; "0"].
Proof.
  exact (proj1 (upload_key_names_stripped_table "children" "photo" "0"
                  eq_refl eq_refl eq_refl)).
Defined.

(** [upload_binds_reference] at the upload of the photo of the first child
    record, addressed from the end. *)
Lemma upload_binds_reference_witness :
  exists p' r',
    bind_relation_upload alice (Some "by") int_of_string
      "file:children__photo__0" "new1" (photo_update, [])
    = Ok (p', ["children__photo__by"])
    /\ payload_record p' "children" 0 = Some r'
    /\ dict_get "children__photo" r' = Some (VStr "attachment://new1")
    /\ dict_get "children__photo__by" r' = Some alice.
Proof.
  destruct (upload_binds_reference int_of_string alice (Some "by")
              "children" "photo" "0" "new1" photo_update []
              (mkRelData (Some "parent_id")
                 (Some [child_edit "changed"
                          [("children__photo", VStr "attachment://old1")]]))
              [child_edit "changed"
                 [("children__photo", VStr "attachment://old1")]]
              0 0%nat eq_refl eq_refl eq_refl eq_refl eq_refl eq_refl eq_refl)
    as (p' & internal' & r & r' & Hrun & _ & _ & Hrec & Hphoto & Haudit & _).
  cbn [suffix_truthy slug_truthy PyStr.nonempty] in Haudit.
  destruct Haudit as (Hby & -> & _).
  exists p', r'. split; [exact Hrun|]. split; [exact Hrec|].
  split; [exact Hphoto | exact Hby].
Defined.

(** [bind_failure_leaves_saved_files] at an upload for the sixth record of
    a batch of one. *)
Lemma bind_failure_leaves_saved_files_witness :
  let files := [("file:children__photo__5", mkFile true (Some "new1"))] in
  let w := start (family "old1" true) [] in
  fst (relations_post store alice None int_of_string "parents" 7
         (Some photo_update) files w) = Raise IndexError
  /\ disk_has "new1"
       (w_disk (snd (relations_post store alice None int_of_string "parents" 7
                       (Some photo_update) files w))) = true.
Proof.
  intros files w.
  destruct (bind_failure_leaves_saved_files store alice None int_of_string
              "parents" 7 photo_update files w
              (snd (save_attachments
                      (bind_relation_upload alice None int_of_string)
                      files [] (photo_update, []) w))
              IndexError)
    as (Hrun & pre & post & _ & _ & _ & _ & _).
  - reflexivity.
  - repeat constructor.
  - vm_compute. reflexivity.
  - rewrite Hrun. split; [reflexivity | vm_compute; reflexivity].
Defined.

(** [refused_request_has_no_effect] at a parent that does not exist and at
    an upload the Attachment Store rejects. *)
Lemma refused_request_has_no_effect_witness :
  let w := start (family "old1" true) [] in
  relations_post store alice None int_of_string "parents" 99
    (Some photo_update) photo_upload w
  = (Abort 404 (VStr "Dataset or feature not found or permission error"), w)
  /\ create_feature_multipart store alice None "points" (Some point_edit)
       [("file:photo", mkFile false (Some "new1"))] w
     = (Abort 404 (VStr "Attachment validation failed: file:photo"), w).
Proof.
  intros w.
  destruct (refused_request_has_no_effect store alice None int_of_string
              "parents" 99 w) as (_ & Hperm & Hval).
  split.
  - apply Hperm. reflexivity.
  - destruct (Hval [] "file:photo" (mkFile false (Some "new1")) [])
      as (_ & Hcreate & _).
    + constructor.
    + reflexivity.
    + exact (Hcreate point_edit).
Defined.

(** [refused_write_removes_uploads] at a create the Record Store refuses. *)
Lemma refused_write_removes_uploads_witness :
  disk_has "new1"
    (w_disk (snd (create_feature_multipart store alice None "points"
                    (Some point_edit) point_upload (start (points false) []))))
  = false.
Proof.
  destruct (refused_write_removes_uploads store alice None "points" 7
              point_edit point_upload (start (points false) [])
              (snd (create_feature_multipart store alice None "points"
                      (Some point_edit) point_upload
                      (start (points false) [])))
              404 (VStr "create failed"))
    as [Hcreate _].
  - repeat constructor; simpl; intuition discriminate.
  - repeat constructor.
  - repeat constructor; discriminate.
  - destruct Hcreate as (Hgone & _).
    + vm_compute. reflexivity.
    + apply Hgone. simpl. now left.
Defined.

(** [successful_create_keeps_uploads] at the create of a point with a
    photo. *)
Lemma successful_create_keeps_uploads_witness :
  disk_has "new1"
    (w_disk (snd (create_feature_multipart store alice None "points"
                    (Some point_edit) point_upload (start (points true) []))))
  = true.
Proof.
  destruct (successful_create_keeps_uploads store alice None "points"
              (Some point_edit) point_upload (start (points true) [])
              (snd (create_feature_multipart store alice None "points"
                      (Some point_edit) point_upload
                      (start (points true) [])))
              (mkFeature (VInt 8) [("photo", VStr "attachment://new1")]))
    as (_ & Hkept & _).
  - vm_compute. reflexivity.
  - apply Hkept. simpl. now left.
Defined.

(** [write_answer_hides_internal_fields] at the same create with the audit
    suffix [by] configured. *)
Lemma write_answer_hides_internal_fields_witness :
  dict_get "photo__by"
    [("photo", VStr "attachment://new1")] = None
  /\ exists feat' internal',
       In (EvCreate "points" feat' internal')
          (w_log (snd (create_feature_multipart store alice (Some "by")
                         "points" (Some point_edit) point_upload
                         (start (points true) []))))
       /\ name_mem "photo__by" internal' = true.
Proof.
  destruct (write_answer_hides_internal_fields store alice (Some "by")
              "points" 7 (Some point_edit) point_upload
              (start (points true) [])
              (snd (create_feature_multipart store alice (Some "by") "points"
                      (Some point_edit) point_upload
                      (start (points true) [])))
              (mkFeature (VInt 8) [("photo", VStr "attachment://new1")]))
    as [Hcreate _].
  destruct Hcreate as (feat' & internal' & Hin & Hhide & Hreg).
  - vm_compute. reflexivity.
  - assert (Hmem : name_mem "photo__by" internal' = true).
    { apply (Hreg "file:photo" "by"); [simpl; now left | reflexivity]. }
    split.
    + exact (Hhide "photo__by" Hmem).
    + now exists feat', internal'.
Defined.

(** [committed_record_round_trip] at a stored child with an internal audit
    field. *)
Lemma committed_record_round_trip_witness :
  entry_properties "children__"
    (committed_record "children"
       (mkFeature (VInt 1)
          [("parent_id", VInt 7); ("photo", VStr "attachment://a1");
           ("photo__by", VStr "alice")])
       ["photo__by"])
  = [("parent_id", VInt 7); ("photo", VStr "attachment://a1")].
Proof.
  destruct (committed_record_round_trip "children"
              (mkFeature (VInt 1)
                 [("parent_id", VInt 7); ("photo", VStr "attachment://a1");
                  ("photo__by", VStr "alice")])
              ["photo__by"]) as (H & _).
  - repeat constructor; simpl; intuition discriminate.
  - exact H.
Defined.

(** [relation_record_round_trip] at a stored child. *)
Lemma relation_record_round_trip_witness :
  entry_properties "children__"
    (relation_record "children"
       (mkFeature (VInt 1) [("parent_id", VInt 7); ("name", VStr "a")]))
  = [("parent_id", VInt 7); ("name", VStr "a")].
Proof.
  destruct (relation_record_round_trip "children"
              (mkFeature (VInt 1) [("parent_id", VInt 7); ("name", VStr "a")]))
    as (H & _).
  - repeat constructor; simpl; intuition discriminate.
  - exact H.
Defined.

(** [malformed_relation_is_skipped] at an entry without a colon. *)
Lemma malformed_relation_is_skipped_witness :
  relations_get Listing.index Listing.refusal 7
    (Some "units:x,children,children:parent_id") Listing.fresh
  = relations_get Listing.index Listing.refusal 7
      (Some "units:x,children:parent_id") Listing.fresh.
Proof.
  destruct (malformed_relation_is_skipped Listing.index Listing.refusal 7
              "children" Listing.fresh) as (_ & H & _).
  - simpl. discriminate.
  - exact (H eq_refl "units:x" "children:parent_id").
Defined.

(** [relation_records_sorted_by_id] at the children of the parent 7, which
    the store lists as 3, 1, 2. *)
Lemma relation_records_sorted_by_id_witness :
  exists recs,
    fst (relation_entry Listing.index 7 "children:parent_id" [] Listing.fresh)
    = Ok [("children", mkRelOut (Some "parent_id") recs)]
    /\ StronglySorted id_le recs.
Proof.
  destruct (relation_records_sorted_by_id Listing.index 7 "children:parent_id"
              "children" "parent_id" [] Listing.fresh
              [mkFeature (VInt 3) [("parent_id", VInt 7); ("name", VStr "c")];
               mkFeature (VInt 1) [("parent_id", VInt 7); ("name", VStr "a")];
               mkFeature (VInt 2) [("parent_id", VInt 7); ("name", VStr "b")]]
              Listing.register)
    as (recs & Hrun & _ & Hsorted).
  - reflexivity.
  - vm_compute. reflexivity.
  - simpl. intros f [<-|[<-|[<-|[]]]]; eexists; reflexivity.
  - exists recs. rewrite Hrun. now split.
Defined.

(** [keyvalues_one_record_per_feature] at the table of units, keyed by
    their id. *)
Lemma keyvalues_one_record_per_feature_witness :
  exists recs,
    fst (keyvalue_entry Listing.index Listing.strip "units:id:label" []
           Listing.fresh)
    = Ok [("units", recs)]
    /\ length recs = 2%nat.
Proof.
  destruct (keyvalues_one_record_per_feature Listing.index Listing.strip
              "units:id:label" "units" "id" "label" [] Listing.fresh
              [mkFeature (VInt 1) [("code", VStr "m"); ("label", VStr " metre ")];
               mkFeature (VInt 2) [("code", VStr "s"); ("label", VStr "second")]]
              Listing.register)
    as (Hentry & _).
  destruct Hentry as (Hok & _).
  - reflexivity.
  - vm_compute. reflexivity.
  - destruct Hok as (recs & Hrun & Hall).
    + simpl. intros f [<-|[<-|[]]]; (split; [eexists; reflexivity | now left]).
    + exists recs. rewrite Hrun. split; [reflexivity|].
      apply Forall2_length in Hall. symmetry. exact Hall.
Defined.

(** [failure_is_reported] at the update of a child in a store that refuses
    writes. *)
Lemma failure_is_reported_witness :
  exists t ro r,
    dict_get t
      [("children",
        mkRelOut (Some "parent_id")
          [[("id", VInt 1); ("__status__", VStr "changed");
            ("children__parent_id", VInt 7);
            ("children__photo", VStr "attachment://old1");
            ("error", VStr "update failed");
            ("error_details", VDict [])]])]
    = Some ro
    /\ In r (ro_records ro) /\ marked r.
Proof.
  apply (failure_is_reported store alice None int_of_string "parents" 7
           photo_update [] (start (family "old1" false) ["old1"])
           (snd (relations_post store alice None int_of_string "parents" 7
                   (Some photo_update) []
                   (start (family "old1" false) ["old1"])))).
  - repeat constructor; simpl; intuition discriminate.
  - vm_compute. reflexivity.
Defined.

(** [diff_collects_references] at an edit that replaces the photo of the
    child 1. *)
Lemma diff_collects_references_witness :
  let run :=
    attachments_diff store alice None "children" (VInt 1)
      (mkFeature (VInt 1)
         [("parent_id", VInt 7); ("photo", VStr "attachment://new1")])
      [] false (start (family "old1" true) []) in
  fst run
  = Ok (mkDiff [VStr "attachment://new1"] [VStr "attachment://old1"]
          [("parent_id", VInt 7); ("photo", VStr "attachment://new1")] [])
  /\ is_attachment (VStr "attachment://old1") = true.
Proof.
  intros run. split; [vm_compute; reflexivity|].
  destruct (diff_collects_references store alice None "children" (VInt 1)
              (mkFeature (VInt 1)
                 [("parent_id", VInt 7); ("photo", VStr "attachment://new1")])
              [] false (start (family "old1" true) []) (snd run)
              (mkDiff [VStr "attachment://new1"] [VStr "attachment://old1"]
                 [("parent_id", VInt 7); ("photo", VStr "attachment://new1")]
                 []))
    as (Hold & _).
  - vm_compute. reflexivity.
  - apply (Hold (VStr "attachment://old1")). simpl. now left.
Defined.

(** [changed_unknown_record_is_updated] at a "changed" record with the id
    5, which the store does not hold. *)
Lemma changed_unknown_record_is_updated_witness :
  let r := [("id", VInt 5); ("__status__", VStr "changed");
            ("children__parent_id", VInt 7)] in
  let w := start (family "old1" true) ["old1"] in
  apply_edit store alice None "children" [] r w
  = (Ok (Some [("id", VInt 5); ("__status__", VStr "changed");
               ("children__parent_id", VInt 7);
               ("error", VStr "Feature not found");
               ("error_details", VDict [])], true),
     mkWorld (family "old1" true) ["old1"]
       [EvShow "children" (VInt 5);
        EvUpdate "children" (VInt 5)
          (mkFeature (VInt 5) [("parent_id", VInt 7)]) []]).
Proof.
  intros r w.
  destruct (changed_unknown_record_is_updated store alice None "children" []
              r (VInt 5) w eq_refl eq_refl) as [H _].
  rewrite (H eq_refl). vm_compute. reflexivity.
Defined.


(** [malformed_record_raises_untouched] at a "changed" record without an
    id and at a record whose status is a number. *)
Lemma malformed_record_raises_untouched_witness :
  let w := start (family "old1" true) ["old1"] in
  process_record store alice None 7 "children" (Some "parent_id") []
    [("__status__", VStr "changed"); ("children__parent_id", VInt 7)] w
  = (Raise KeyError, w)
  /\ process_record store alice None 7 "children" (Some "parent_id") []
       [("__status__", VInt 1); ("children__parent_id", VInt 7)] w
     = (Raise AttributeError, w).
Proof.
  intros w. split.
  - destruct (malformed_record_raises_untouched store alice None 7 "children"
                []
                [("__status__", VStr "changed"); ("children__parent_id", VInt 7)]
                w) as (_ & H & _).
    apply (H "parent_id" "changed"); try reflexivity. now left.
  - destruct (malformed_record_raises_untouched store alice None 7 "children"
                []
                [("__status__", VInt 1); ("children__parent_id", VInt 7)]
                w) as (_ & _ & H).
    apply (H "parent_id" (VInt 1)); try reflexivity. discriminate.
Defined.

End FurtherWitnesses.
